(** * async-recorder: webhook reconciliation and background indexing

    A shallow embedding of the server side of the recorder:

    - [frontend/server/database.js]: the [users] and [recordings] tables and
      the query functions over them;
    - [frontend/server/insights-service.js]: [indexVideo];
    - [frontend/server/index.js]: the [POST /api/webhook] handler and
      [processIndexingBackground];
    - [frontend/server/tunnel.js]: the [TunnelManager];
    - [frontend/main.js]: the [get-recordings] and [register] handlers and
      the session token.

    Synchronous code is written in a state-and-exception monad over the
    process state ([world]); asynchronous code is a tree of operations
    ([proc]) whose external calls are the points where the event loop may
    run something else. *)

From Stdlib Require Import ZArith List String Ascii Bool Lia Sorted Permutation DecimalString.
Import ListNotations.

Local Open Scope string_scope.
Local Open Scope Z_scope.

(** ** JavaScript values *)

(** The values that flow through the modelled code: what [express.json()]
    puts in a request body, what sql.js reads back from a row, what the
    VideoDB SDK resolves to.  [JNumber n] is the number [n], an integer that
    a double holds exactly; [JObject] is any object that is neither an array
    nor a buffer (an SDK connection, a nested JSON object), kept opaque.
    Booleans, fractional numbers and arrays are outside the embedding. *)
Inductive jsval : Type :=
| JUndefined
| JNull
| JNumber (n : Z)
| JString (s : string)
| JObject.

(** What a [throw] (or a rejected promise) carries.  The only thing the code
    ever does with a caught value is read [err.message], which itself throws
    when the value is [null] or [undefined]. *)
Inductive thrown : Type :=
| Exn (what : string)
| Nullish.

Inductive result (A : Type) : Type :=
| Ok (a : A)
| Throws (e : thrown).
Arguments Ok {A} a.
Arguments Throws {A} e.

(** [if (v)], [!v], [v || w]. *)
Definition truthy (v : jsval) : bool :=
  match v with
  | JUndefined | JNull => false
  | JNumber n => negb (n =? 0)
  | JString s => negb (s =? "")%string
  | JObject => true
  end.

Definition js_or (v w : jsval) : jsval := if truthy v then v else w.

Definition decimal (n : Z) : string := NilZero.string_of_int (Z.to_int n).

(** How many decimal digits [a] has. *)
Definition digit_count (a : Z) : Z := Z.of_nat (String.length (decimal a)).

(** [m] without the zeros its decimal digits end with. *)
Fixpoint strip_zeros (fuel : nat) (m : Z) : Z :=
  match fuel with
  | O => m
  | S fuel' =>
      if (m mod 10 =? 0) && negb (m =? 0) then strip_zeros fuel' (m / 10) else m
  end.

(** The digits of [m], with a point after the first one; [whole] is what is
    written after a single digit. *)
Definition mantissa (m : Z) (whole : string) : string :=
  match decimal m with
  | String d EmptyString => String d whole
  | String d rest => String d ("." ++ rest)
  | EmptyString => EmptyString
  end.

(** The decimal number with the fewest digits that reads back as the double
    [a], the closest to [a] when there are several: the candidates with [k]
    digits are the two multiples of [unit] around [a], for [k = 1, 2, ...];
    [low] and [high] are four times the bounds of the interval of reals that
    round to [a], which belong to it when the significand of [a] is
    [even]. *)
Fixpoint shortest (fuel : nat) (a low high : Z) (even : bool) (unit : Z) : Z :=
  match fuel with
  | O => a
  | S fuel' =>
      let c1 := a / unit * unit in
      let c2 := c1 + unit in
      let inside c :=
        if even then (low <=? 4 * c) && (4 * c <=? high)
        else (low <? 4 * c) && (4 * c <? high) in
      match inside c1, inside c2 with
      | true, true =>
          if a - c1 <? c2 - a then c1
          else if c2 - a <? a - c1 then c2
          else if Z.even (c1 / unit) then c1 else c2
      | true, false => c1
      | false, true => c2
      | false, false => shortest fuel' a low high even (unit / 10)
      end
  end.

(** ECMAScript's Number::toString for an integer: its digits up to 2^53;
    above, the shortest digits that read back as the same double, followed
    by zeros below 10^21 and by an exponent from there on. *)
Definition number_text (n : Z) : string :=
  let a := Z.abs n in
  if a <? 2 ^ 53 then decimal n
  else
    let ulp := 2 ^ (Z.log2 a - 52) in
    let low := 4 * a - (if a =? 2 ^ Z.log2 a then ulp else 2 * ulp) in
    let high := 4 * a + 2 * ulp in
    let c := shortest (Z.to_nat (digit_count a)) a low high (Z.even (a / ulp))
               (10 ^ (digit_count a - 1)) in
    (if n <? 0 then "-" else "") ++
    (if c <? 10 ^ 21 then decimal c
     else mantissa (strip_zeros 400 c) "" ++ "e+" ++ decimal (digit_count c - 1)).

(** String conversion as done by a template literal. *)
Definition to_string (v : jsval) : string :=
  match v with
  | JUndefined => "undefined"
  | JNull => "null"
  | JNumber n => number_text n
  | JString s => s
  | JObject => "[object Object]"
  end.

(** Truthiness of a nullable text column read back from a row. *)
Definition text_truthy (t : option string) : bool :=
  match t with
  | Some s => negb (s =? "")%string
  | None => false
  end.

(** ** String helpers *)

(** [s.includes(needle)]. *)
Fixpoint includes (needle s : string) : bool :=
  String.prefix needle s ||
  match s with
  | EmptyString => false
  | String _ s' => includes needle s'
  end.

Fixpoint drop (n : nat) (s : string) : string :=
  match n, s with
  | O, _ => s
  | S _, EmptyString => EmptyString
  | S n', String _ s' => drop n' s'
  end.

(** The longest prefix matched by [[^&]*], and what follows it. *)
Fixpoint span_not_amp (s : string) : string * string :=
  match s with
  | EmptyString => (EmptyString, EmptyString)
  | String c s' =>
      if (c =? "&")%char then (EmptyString, s)
      else let (v, rest) := span_not_amp s' in (String c v, rest)
  end.

(** The leftmost match of [/url=[^&]+/] in [s], as (text before the match,
    matched text, text after the match). *)
Fixpoint match_url_param (s : string) : option (string * string * string) :=
  match s with
  | EmptyString => None
  | String c s' =>
      let later :=
        match match_url_param s' with
        | Some (before, m, after) => Some (String c before, m, after)
        | None => None
        end in
      if String.prefix "url=" s then
        match span_not_amp (drop 4 s) with
        | (EmptyString, _) => later
        | (v, after) => Some (EmptyString, "url=" ++ v, after)
        end
      else later
  end.

(** ECMAScript's GetSubstitution for a pattern without capture groups:
    [$$], [$&], [$`] and [$'] are expanded in the replacement text, every
    other character (a [$] before anything else included) is copied. *)
Fixpoint get_substitution (matched before after replacement : string) : string :=
  match replacement with
  | EmptyString => EmptyString
  | String c r =>
      let plain := String c (get_substitution matched before after r) in
      if (c =? "$")%char then
        match r with
        | String d r' =>
            let rest := get_substitution matched before after r' in
            if (d =? "$")%char then String "$" rest
            else if (d =? "&")%char then matched ++ rest
            else if (d =? "`")%char then before ++ rest
            else if (d =? "'")%char then after ++ rest
            else plain
        | EmptyString => plain
        end
      else plain
  end.

(** [s.replace(/url=[^&]+/, replacement)]: the pattern is not global, so only
    the leftmost match is replaced, and [s] is returned when there is none. *)
Definition replace_url_param (s replacement : string) : string :=
  match match_url_param s with
  | Some (before, m, after) =>
      before ++ get_substitution m before after replacement ++ after
  | None => s
  end.

(** ** The database ([database.js])

    sql.js keeps the whole SQLite database in memory; [saveToFile] only copies
    it to disk and swallows its own errors, so it does not appear below. *)

(** A value bound to a parameter of a statement: NULL, an integer, a double
    ([SqlReal n] is the double of value [n]; a number reaches SQLite as a
    double only when it is not a 32-bit integer), or text. *)
Inductive sqlval : Type :=
| SqlNull
| SqlInt (n : Z)
| SqlReal (n : Z)
| SqlText (s : string).

(** [val === (val | 0)]. *)
Definition is_int32 (n : Z) : bool := (-2147483648 <=? n) && (n <=? 2147483647).

(** sql.js's [bindValue]: a string is bound as text, a number as an integer
    when [val === (val | 0)] and as a double otherwise, [null] as NULL, and
    anything else ([undefined] included) is refused with a thrown string. *)
Definition bindValue (v : jsval) : result sqlval :=
  match v with
  | JNull => Ok SqlNull
  | JNumber n => Ok (if is_int32 n then SqlInt n else SqlReal n)
  | JString s => Ok (SqlText s)
  | JUndefined | JObject =>
      Throws (Exn "Wrong API use : tried to bind a value of an unknown type")
  end.

(** The text SQLite makes of a double of integral value [n] (its format
    [%!.15g]): the digits and [.0] below 10^15; from there on, fifteen
    significant digits and an exponent.  Below 10^15 the text is exact.
    Above, SQLite rounds the last digit in floating-point arithmetic, and
    its text can differ in that digit from the correctly rounded one, which
    is the one given here. *)
Definition real_text (n : Z) : string :=
  let a := Z.abs n in
  (if n <? 0 then "-" else "") ++
  (if a <? 10 ^ 15 then decimal a ++ ".0"
   else
     let k := digit_count a in
     let unit := 10 ^ (k - 15) in
     let m := a / unit + (if 5 * 10 ^ (k - 16) <=? a mod unit then 1 else 0) in
     mantissa (strip_zeros 15 m) ".0" ++ "e+" ++
     decimal (if m =? 10 ^ 15 then k else k - 1)).

(** What a column declared [TEXT] stores: a number is converted to text. *)
Definition text_affinity (v : sqlval) : option string :=
  match v with
  | SqlNull => None
  | SqlInt n => Some (decimal n)
  | SqlReal n => Some (real_text n)
  | SqlText s => Some s
  end.

(** A value held by a column.  [CellReal n] is a double of integral value
    [n]; [CellNumber s] is the number SQLite reads from the numeric text [s]
    when that is not the text of a 64-bit integer (there is a fraction or an
    exponent, or too many digits): the embedding does not compute it. *)
Inductive cell : Type :=
| CellNull
| CellInt (n : Z)
| CellReal (n : Z)
| CellText (s : string)
| CellNumber (s : string).

Definition cell_of_text (t : option string) : cell :=
  match t with
  | Some s => CellText s
  | None => CellNull
  end.

Definition smallest_int64 : Z := - 2 ^ 63.
Definition largest_int64 : Z := 2 ^ 63 - 1.

(** The characters SQLite skips around a number, and the digits. *)
Definition is_space (c : ascii) : bool :=
  let n := N_of_ascii c in ((9 <=? n) && (n <=? 13) || (n =? 32))%N.

Definition is_digit (c : ascii) : bool :=
  let n := N_of_ascii c in ((48 <=? n) && (n <=? 57))%N.

Fixpoint skip_spaces (s : string) : string :=
  match s with
  | String c s' => if is_space c then skip_spaces s' else s
  | EmptyString => s
  end.

(** The longest prefix made of digits, and what follows it. *)
Fixpoint span_digits (s : string) : string * string :=
  match s with
  | EmptyString => (EmptyString, EmptyString)
  | String c s' =>
      if is_digit c
      then let (ds, rest) := span_digits s' in (String c ds, rest)
      else (EmptyString, s)
  end.

Fixpoint digits_value (acc : Z) (ds : string) : Z :=
  match ds with
  | EmptyString => acc
  | String c ds' => digits_value (10 * acc + (Z.of_N (N_of_ascii c) - 48)) ds'
  end.

(** What SQLite reads in a text that goes into a numeric column. *)
Inductive numeric : Type :=
| Integer_text (n : Z)
| Number_text
| Not_numeric.

Definition after_sign (s : string) : string :=
  match s with
  | String "+" s' | String "-" s' => s'
  | _ => s
  end.

(** SQLite's reading of a text as a number: spaces, a sign, digits with
    possibly a point among them, possibly an exponent ([e] or [E], a sign,
    digits), spaces, and nothing else.  Digits alone that fit in 64 bits are
    an integer. *)
Definition read_numeric (s : string) : numeric :=
  let s1 := skip_spaces s in
  let negative := match s1 with String "-" _ => true | _ => false end in
  let (whole, s2) := span_digits (after_sign s1) in
  let '(point, fraction, s3) :=
    match s2 with
    | String "." s' => let (f, rest) := span_digits s' in (true, f, rest)
    | _ => (false, EmptyString, s2)
    end in
  if (whole =? "")%string && (fraction =? "")%string then Not_numeric
  else
    let '(exponent, well_formed, s4) :=
      match s3 with
      | String "e" s' | String "E" s' =>
          let (ds, rest) := span_digits (after_sign s') in
          (true, negb (ds =? "")%string, rest)
      | _ => (false, true, s3)
      end in
    if negb well_formed || negb (skip_spaces s4 =? "")%string then Not_numeric
    else if point || exponent then Number_text
    else
      let v := if negative then - digits_value 0 whole else digits_value 0 whole in
      if (smallest_int64 <=? v) && (v <=? largest_int64) then Integer_text v
      else Number_text.

(** What a column declared [INTEGER] stores: text that reads as a number
    becomes that number, and a double that is integral and strictly inside
    the 64-bit range becomes an integer. *)
Definition integer_affinity (v : sqlval) : cell :=
  match v with
  | SqlNull => CellNull
  | SqlInt n => CellInt n
  | SqlReal n =>
      if (smallest_int64 <? n) && (n <? largest_int64) then CellInt n else CellReal n
  | SqlText s =>
      match read_numeric s with
      | Integer_text n => CellInt n
      | Number_text => CellNumber s
      | Not_numeric => CellText s
      end
  end.

(** A row of [users]. *)
Module User.
Record t : Type := mk {
  id : Z;
  name : option string;
  api_key : option string;
  access_token : option string
}.
End User.

(** A row of [recordings].  The [TEXT] columns are nullable strings;
    [duration] is declared [INTEGER]. *)
Module Recording.
Record t : Type := mk {
  id : Z;
  video_id : option string;
  stream_url : option string;
  player_url : option string;
  session_id : option string;
  duration : cell;
  created_at : option string;
  insights : option string;
  insights_status : option string
}.
End Recording.

(** The columns of [recordings] an update map may name.  The primary key
    [id] is only ever used in the [WHERE] clause. *)
Inductive column : Type :=
| video_id
| stream_url
| player_url
| session_id
| duration
| created_at
| insights
| insights_status.

Definition column_eqb (c c' : column) : bool :=
  match c, c' with
  | video_id, video_id | stream_url, stream_url | player_url, player_url
  | session_id, session_id | duration, duration | created_at, created_at
  | insights, insights | insights_status, insights_status => true
  | _, _ => false
  end.

Definition column_value (c : column) (r : Recording.t) : cell :=
  match c with
  | video_id => cell_of_text (Recording.video_id r)
  | stream_url => cell_of_text (Recording.stream_url r)
  | player_url => cell_of_text (Recording.player_url r)
  | session_id => cell_of_text (Recording.session_id r)
  | duration => Recording.duration r
  | created_at => cell_of_text (Recording.created_at r)
  | insights => cell_of_text (Recording.insights r)
  | insights_status => cell_of_text (Recording.insights_status r)
  end.

(** One assignment [c = v] of an [UPDATE ... SET]. *)
Definition set_column (c : column) (v : sqlval) (r : Recording.t) : Recording.t :=
  let 'Recording.mk i vid su pu sid du ca ins st := r in
  match c with
  | video_id => Recording.mk i (text_affinity v) su pu sid du ca ins st
  | stream_url => Recording.mk i vid (text_affinity v) pu sid du ca ins st
  | player_url => Recording.mk i vid su (text_affinity v) sid du ca ins st
  | session_id => Recording.mk i vid su pu (text_affinity v) du ca ins st
  | duration => Recording.mk i vid su pu sid (integer_affinity v) ca ins st
  | created_at => Recording.mk i vid su pu sid du (text_affinity v) ins st
  | insights => Recording.mk i vid su pu sid du ca (text_affinity v) st
  | insights_status => Recording.mk i vid su pu sid du ca ins (text_affinity v)
  end.

(** The object passed to [updateRecording]: its entries in insertion order. *)
Definition updates : Type := list (column * jsval).

(** The object passed to [createRecording]; a property that is not there
    reads as [JUndefined]. *)
Module Fields.
Record t : Type := mk {
  video_id : jsval;
  stream_url : jsval;
  player_url : jsval;
  session_id : jsval;
  duration : jsval;
  insights : jsval;
  insights_status : jsval
}.
End Fields.

(** The two tables, rows in rowid order, and the [sqlite_sequence] entry that
    [AUTOINCREMENT] keeps for [recordings]. *)
Record database : Type := {
  users : list User.t;
  recordings : list Recording.t;
  recordings_seq : Z
}.

(** ** Asynchronous code *)

(** The calls made to the VideoDB SDK.  [connect] is the one call
    [indexVideo] does not [await]; it is listed with the others, so that the
    embedding lets the rest of the program run at that point too.  A
    completion of [connect] that follows at once is what the source does. *)
Record config : Type := { apiKey : string; baseUrl : option jsval }.

Inductive ext_call : Type :=
| connect (c : config)
| getCollection
| getVideo (videoId : jsval)
| indexSpokenWords
| getTranscriptText
| addSubtitle.

(** The body of an [async] function, as the tree of what it does next: it
    returns, throws, talks to the store or the console, or makes an external
    call and goes on with whatever that call produces.  The store operations
    are the two [processIndexingBackground] uses. *)
Inductive proc (A : Type) : Type :=
| Return (a : A)
| Raise (e : thrown)
| Store_update (id : Z) (data : updates) (k : result unit -> proc A)
| Store_get (id : Z) (k : result (option Recording.t) -> proc A)
| Console (line : string) (k : proc A)
| External (c : ext_call) (k : result jsval -> proc A).
Arguments Return {A} a.
Arguments Raise {A} e.
Arguments Store_update {A} id data k.
Arguments Store_get {A} id k.
Arguments Console {A} line k.
Arguments External {A} c k.

Fixpoint proc_bind {A B : Type} (p : proc A) (f : A -> proc B) : proc B :=
  match p with
  | Return a => f a
  | Raise e => Raise e
  | Store_update id data k => Store_update id data (fun r => proc_bind (k r) f)
  | Store_get id k => Store_get id (fun r => proc_bind (k r) f)
  | Console line k => Console line (proc_bind k f)
  | External c k => External c (fun r => proc_bind (k r) f)
  end.

(** [try { p } catch (err) { h err }]. *)
Fixpoint proc_catch {A : Type} (p : proc A) (h : thrown -> proc A) : proc A :=
  match p with
  | Return a => Return a
  | Raise e => h e
  | Store_update id data k => Store_update id data (fun r => proc_catch (k r) h)
  | Store_get id k => Store_get id (fun r => proc_catch (k r) h)
  | Console line k => Console line (proc_catch k h)
  | External c k => External c (fun r => proc_catch (k r) h)
  end.

Definition settle {A : Type} (r : result A) : proc A :=
  match r with
  | Ok a => Return a
  | Throws e => Raise e
  end.

(** ** The process state *)

(** The module-level [db] of [database.js] ([None] before [initDatabase] and
    after [closeDatabase]), what SQLite's [datetime('now')] currently reads,
    the console (latest line first), and the background tasks that are
    waiting for an external call to complete. *)
Record world : Type := {
  db : option database;
  clock : string;
  console : list string;
  pool : list (proc unit)
}.

(** Synchronous code: it reads and writes the state and may throw. *)
Definition sync (A : Type) : Type := world -> result A * world.

Definition sync_bind {A B : Type} (m : sync A) (f : A -> sync B) : sync B :=
  fun w =>
    match m w with
    | (Ok a, w') => f a w'
    | (Throws e, w') => (Throws e, w')
    end.

Definition sync_catch {A : Type} (m : sync A) (h : thrown -> sync A) : sync A :=
  fun w =>
    match m w with
    | (Ok a, w') => (Ok a, w')
    | (Throws e, w') => h e w'
    end.

Class Monad (M : Type -> Type) : Type := {
  ret : forall {A : Type}, A -> M A;
  bind : forall {A B : Type}, M A -> (A -> M B) -> M B;
  throw : forall {A : Type}, thrown -> M A;
  try_catch : forall {A : Type}, M A -> (thrown -> M A) -> M A
}.

#[export] Instance sync_monad : Monad sync := {
  ret := fun A a w => (Ok a, w);
  bind := @sync_bind;
  throw := fun A e w => (Throws e, w);
  try_catch := @sync_catch
}.

#[export] Instance proc_monad : Monad proc := {
  ret := @Return;
  bind := @proc_bind;
  throw := @Raise;
  try_catch := @proc_catch
}.

Declare Scope monad_scope.
Delimit Scope monad_scope with monad.
Notation "x <- m ;; k" := (bind m (fun x => k))
  (at level 61, m at next level, right associativity) : monad_scope.
Notation "m ;; k" := (bind m (fun _ => k))
  (at level 61, right associativity) : monad_scope.
Local Open Scope monad_scope.

Definition lift {M : Type -> Type} `{Monad M} {A : Type} (r : result A) : M A :=
  match r with
  | Ok a => ret a
  | Throws e => throw e
  end.

Definition console_log (line : string) : sync unit :=
  fun w => (Ok tt, {| db := db w; clock := clock w;
                      console := line :: console w; pool := pool w |}).

(** The state after [console.log(line)]. *)
Definition logged (line : string) (w : world) : world := snd (console_log line w).

(** Reading the [db] variable to call a method on it. *)
Definition the_db : sync database :=
  fun w =>
    match db w with
    | Some d => (Ok d, w)
    | None => (Throws (Exn "TypeError: Cannot read properties of null"), w)
    end.

Definition put_db (d : database) : sync unit :=
  fun w => (Ok tt, {| db := Some d; clock := clock w;
                      console := console w; pool := pool w |}).

Definition datetime_now : sync string := fun w => (Ok (clock w), w).

Definition closeDatabase : sync unit :=
  fun w => (Ok tt, {| db := None; clock := clock w;
                      console := console w; pool := pool w |}).

(** ** Queries ([database.js]) *)

(** [column = ?] in a [WHERE] clause on a [TEXT] column: never true when
    either side is NULL. *)
Definition sql_text_eq (stored param : option string) : bool :=
  match stored, param with
  | Some a, Some b => (a =? b)%string
  | _, _ => false
  end.

(** [getOne]: the first row of the result, or [undefined]. *)
Definition getOne {A : Type} (rows : list A) : option A := hd_error rows.

Definition findRecordingBySessionId (sessionId : jsval) : sync (option Recording.t) :=
  d <- the_db ;;
  p <- lift (bindValue sessionId) ;;
  ret (getOne (filter (fun r => sql_text_eq (Recording.session_id r) (text_affinity p))
                      (recordings d))).

Definition findRecordingByVideoId (videoId : jsval) : sync (option Recording.t) :=
  d <- the_db ;;
  p <- lift (bindValue videoId) ;;
  ret (getOne (filter (fun r => sql_text_eq (Recording.video_id r) (text_affinity p))
                      (recordings d))).

Definition getRecordingById (id : Z) : sync (option Recording.t) :=
  d <- the_db ;;
  ret (getOne (filter (fun r => Recording.id r =? id) (recordings d))).

(** [SELECT * FROM users ORDER BY id DESC LIMIT 1]. *)
Definition latest_user (us : list User.t) : option User.t :=
  fold_left (fun best u =>
               match best with
               | Some b => if User.id b <? User.id u then Some u else best
               | None => Some u
               end) us None.

Definition getLatestUser : sync (option User.t) :=
  d <- the_db ;;
  ret (latest_user (users d)).

(** The rowid [AUTOINCREMENT] gives to a new row: one more than the largest
    that was ever in the table. *)
Definition next_rowid (d : database) : Z :=
  Z.max (recordings_seq d)
        (fold_right Z.max 0 (map Recording.id (recordings d))) + 1.

Definition createRecording (data : Fields.t) : sync (Z * Fields.t) :=
  d <- the_db ;;
  vid <- lift (bindValue (js_or (Fields.video_id data) JNull)) ;;
  su <- lift (bindValue (js_or (Fields.stream_url data) JNull)) ;;
  pu <- lift (bindValue (js_or (Fields.player_url data) JNull)) ;;
  sid <- lift (bindValue (js_or (Fields.session_id data) JNull)) ;;
  du <- lift (bindValue (js_or (Fields.duration data) JNull)) ;;
  ins <- lift (bindValue (js_or (Fields.insights data) JNull)) ;;
  st <- lift (bindValue (js_or (Fields.insights_status data) (JString "pending"))) ;;
  now <- datetime_now ;;
  let rowid := next_rowid d in
  let row := Recording.mk rowid (text_affinity vid) (text_affinity su)
               (text_affinity pu) (text_affinity sid) (integer_affinity du) (Some now)
               (text_affinity ins) (text_affinity st) in
  put_db {| users := users d;
            recordings := (recordings d ++ [row])%list;
            recordings_seq := rowid |} ;;
  ret (rowid, data).

Definition defined (v : jsval) : bool :=
  match v with
  | JUndefined => false
  | _ => true
  end.

Fixpoint bind_all (entries : updates) : result (list (column * sqlval)) :=
  match entries with
  | [] => Ok []
  | (c, v) :: rest =>
      match bindValue v with
      | Ok p =>
          match bind_all rest with
          | Ok ps => Ok ((c, p) :: ps)
          | Throws e => Throws e
          end
      | Throws e => Throws e
      end
  end.

(** The [SET] clause, assignment after assignment. *)
Definition apply_sets (sets : list (column * sqlval)) (r : Recording.t) : Recording.t :=
  fold_left (fun r' '(c, p) => set_column c p r') sets r.

(** The entries the loop of [updateRecording] keeps. *)
Definition defined_entries (data : updates) : updates :=
  filter (fun '(_, v) => defined v) data.

Definition updateRecording (id : Z) (data : updates) : sync unit :=
  let entries := defined_entries data in
  match entries with
  | [] => ret tt
  | _ =>
      d <- the_db ;;
      sets <- lift (bind_all entries) ;;
      put_db {| users := users d;
                recordings :=
                  map (fun r => if Recording.id r =? id then apply_sets sets r else r)
                      (recordings d);
                recordings_seq := recordings_seq d |}
  end.

(** [ORDER BY created_at DESC]: NULL sorts below every text, texts compare
    byte by byte. *)
Definition created_leb (a b : option string) : bool :=
  match a, b with
  | None, _ => true
  | Some _, None => false
  | Some x, Some y => (x <=? y)%string
  end.

Fixpoint insert_desc (r : Recording.t) (l : list Recording.t) : list Recording.t :=
  match l with
  | [] => [r]
  | e :: l' =>
      if created_leb (Recording.created_at e) (Recording.created_at r)
      then r :: l
      else e :: insert_desc r l'
  end.

Definition order_by_created_at_desc (l : list Recording.t) : list Recording.t :=
  fold_right insert_desc [] l.

(** The number given for [LIMIT ?]: sql.js binds it as an integer when
    [val === (val | 0)] and as a double otherwise, and SQLite takes a double
    for an integer when it is integral and strictly inside the 64-bit range,
    and refuses it otherwise. *)
Definition limit_value (n : Z) : result Z :=
  if is_int32 n then Ok n
  else if (smallest_int64 <? n) && (n <? largest_int64) then Ok n
  else Throws (Exn "datatype mismatch").

(** [LIMIT n]: a negative limit means no limit. *)
Definition sql_limit {A : Type} (n : Z) (rows : list A) : list A :=
  if n <? 0 then rows else firstn (Z.to_nat n) rows.

(** [getRecordings(limit = 20)], for a limit that is a number; [None] is a
    call without argument. *)
Definition getRecordings (limit : option Z) : sync (list Recording.t) :=
  let n := match limit with Some n => n | None => 20 end in
  d <- the_db ;;
  k <- lift (limit_value n) ;;
  ret (sql_limit k (order_by_created_at_desc (recordings d))).

(** *** The [users] table *)

Definition findUserByToken (accessToken : jsval) : sync (option User.t) :=
  d <- the_db ;;
  p <- lift (bindValue accessToken) ;;
  ret (getOne (filter (fun u => sql_text_eq (User.access_token u) (text_affinity p))
                      (users d))).

Definition findUserByApiKey (apiKey : jsval) : sync (option User.t) :=
  d <- the_db ;;
  p <- lift (bindValue apiKey) ;;
  ret (getOne (filter (fun u => sql_text_eq (User.api_key u) (text_affinity p))
                      (users d))).

(** [access_token TEXT UNIQUE]: an insert is refused when a row already
    holds the same text; NULL collides with nothing. *)
Definition token_taken (token : option string) (us : list User.t) : bool :=
  existsb (fun u => sql_text_eq (User.access_token u) token) us.

(** The rowid [AUTOINCREMENT] gives to a new user.  [seq] is the
    [sqlite_sequence] entry of [users] (the largest id the table ever held),
    which [database] does not carry: it is passed in. *)
Definition next_user_id (seq : Z) (us : list User.t) : Z :=
  Z.max seq (fold_right Z.max 0 (map User.id us)) + 1.

(** The object [createUser] returns: the new id and its three arguments. *)
Module NewUser.
Record t : Type := mk {
  id : Z;
  name : jsval;
  api_key : jsval;
  access_token : jsval
}.
End NewUser.

Definition createUser (seq : Z) (name apiKey accessToken : jsval) : sync NewUser.t :=
  d <- the_db ;;
  n <- lift (bindValue name) ;;
  k <- lift (bindValue apiKey) ;;
  t <- lift (bindValue accessToken) ;;
  if token_taken (text_affinity t) (users d)
  then throw (Exn "UNIQUE constraint failed: users.access_token")
  else
    let id := next_user_id seq (users d) in
    put_db {| users := (users d ++ [User.mk id (text_affinity n) (text_affinity k)
                                            (text_affinity t)])%list;
              recordings := recordings d;
              recordings_seq := recordings_seq d |} ;;
    ret (NewUser.mk id name apiKey accessToken).

(** ** Running asynchronous code *)

Definition proc_log (line : string) : proc unit := Console line (Return tt).

(** Runs [p] up to its next external call (or to its end): everything before
    an external call happens in one turn of the event loop. *)
Fixpoint advance {A : Type} (p : proc A) (w : world) : proc A * world :=
  match p with
  | Store_update id data k =>
      let (r, w') := updateRecording id data w in advance (k r) w'
  | Store_get id k =>
      let (r, w') := getRecordingById id w in advance (k r) w'
  | Console line k => advance k (logged line w)
  | Return _ | Raise _ | External _ _ => (p, w)
  end.

Definition enqueue (p : proc unit) (w : world) : world :=
  match p with
  | External _ _ =>
      {| db := db w; clock := clock w; console := console w; pool := (pool w ++ [p])%list |}
  | _ => w
  end.

(** Calling an [async] function without awaiting it: its body runs up to the
    first external call, and the rest is left with the event loop. *)
Definition spawn (p : proc unit) : sync unit :=
  fun w => let (p', w') := advance p w in (Ok tt, enqueue p' w').

(** ** One task from start to end

    [run] follows a single task through all its turns and records what it
    did.  While the task waits for the call [c], the rest of the program runs:
    [interference c] is what that does to the state.  [sdk c] is what the
    call produces. *)
Inductive event : Type :=
| Wrote (id : Z) (data : updates)
| Called (c : ext_call).

Fixpoint run {A : Type} (interference : ext_call -> world -> world)
    (sdk : ext_call -> result jsval) (p : proc A) (w : world)
  : result A * world * list event :=
  match p with
  | Return a => (Ok a, w, [])
  | Raise e => (Throws e, w, [])
  | Store_update id data k =>
      let (r, w') := updateRecording id data w in
      let '(out, w'', t) := run interference sdk (k r) w' in
      match r with
      | Ok _ => (out, w'', Wrote id data :: t)
      | Throws _ => (out, w'', t)
      end
  | Store_get id k =>
      let (r, w') := getRecordingById id w in
      run interference sdk (k r) w'
  | Console line k => run interference sdk k (logged line w)
  | External c k =>
      let '(out, w', t) := run interference sdk (k (sdk c)) (interference c w) in
      (out, w', Called c :: t)
  end.

(** The statuses a trace wrote to the row [id], in order. *)
Definition status_of (data : updates) : option jsval :=
  match filter (fun '(c, v) => column_eqb c insights_status && defined v) data with
  | [] => None
  | e :: es => Some (snd (last es e))
  end.

Fixpoint statuses_written (id : Z) (t : list event) : list jsval :=
  match t with
  | [] => []
  | Wrote i data :: t' =>
      match status_of data with
      | Some v => if i =? id then v :: statuses_written id t' else statuses_written id t'
      | None => statuses_written id t'
      end
  | Called _ :: t' => statuses_written id t'
  end.

Fixpoint calls_made (t : list event) : list ext_call :=
  match t with
  | [] => []
  | Called c :: t' => c :: calls_made t'
  | Wrote _ _ :: t' => calls_made t'
  end.

(** ** [insights-service.js] *)

(** A method call on a value the SDK returned: only an object has methods. *)
Definition method (receiver : jsval) (c : ext_call) : proc jsval :=
  match receiver with
  | JObject => External c settle
  | _ => Raise (Exn "TypeError: not a function")
  end.

Definition indexVideo (videoId : jsval) (key : string) (base : jsval)
  : proc (option (jsval * jsval)) :=
  try_catch
    (let cfg := {| apiKey := key;
                   baseUrl := if truthy base then Some base else None |} in
     conn <- External (connect cfg) settle ;;
     coll <- method conn getCollection ;;
     video <- method coll (getVideo videoId) ;;
     if negb (truthy video) then
       proc_log ("[Insights] Video not found: " ++ to_string videoId) ;;
       ret None
     else
       proc_log ("[Insights] Indexing spoken words for " ++ to_string videoId ++ "...") ;;
       _ <- method video indexSpokenWords ;;
       proc_log ("[Insights] Getting transcript for " ++ to_string videoId ++ "...") ;;
       transcript <- method video getTranscriptText ;;
       proc_log ("[Insights] Adding subtitles for " ++ to_string videoId ++ "...") ;;
       subtitleUrl <- method video addSubtitle ;;
       proc_log ("[Insights] Indexing complete for " ++ to_string videoId) ;;
       ret (Some (transcript, subtitleUrl)))
    (fun err =>
       match err with
       | Exn _ =>
           proc_log ("[Insights] Error indexing video " ++ to_string videoId ++ ":") ;;
           ret None
       | Nullish => throw (Exn "TypeError: Cannot read properties of undefined")
       end).

(** ** [tunnel.js] *)

(** [[a-zA-Z0-9-]]. *)
Definition is_label_char (c : ascii) : bool :=
  let n := N_of_ascii c in
  ((48 <=? n) && (n <=? 57) || (65 <=? n) && (n <=? 90) ||
   (97 <=? n) && (n <=? 122) || (n =? 45))%N.

(** The longest prefix matched by [[a-zA-Z0-9-]*], and what follows it. *)
Fixpoint span_label (s : string) : string * string :=
  match s with
  | EmptyString => (EmptyString, EmptyString)
  | String c s' =>
      if is_label_char c
      then let (label, rest) := span_label s' in (String c label, rest)
      else (EmptyString, s)
  end.

(** The leftmost match of [/https:\/\/[a-zA-Z0-9-]+\.trycloudflare\.com/]
    in [s].  The class does not contain the dot, so at a given start only
    the longest run of class characters can be followed by the suffix. *)
Fixpoint match_tunnel_url (s : string) : option string :=
  match s with
  | EmptyString => None
  | String _ s' =>
      if String.prefix "https://" s then
        let (label, rest) := span_label (drop 8 s) in
        if negb (label =? "")%string && String.prefix ".trycloudflare.com" rest
        then Some ("https://" ++ label ++ ".trycloudflare.com")
        else match_tunnel_url s'
      else match_tunnel_url s'
  end.

Module Tunnel.

(** The variables of the closure [start] creates when it spawns cloudflared:
    the port, the [resolved] flag, and whether the 30 s timer is armed. *)
Record closure : Type := {
  port : jsval;
  resolved : bool;
  timer : bool
}.

(** A [TunnelManager] on which [start] is called once, as [initializeApp]
    does: its three fields ([process] tells whether [_process] holds a child
    process), the lines it logged (latest first), the closure of the [start]
    call if there is one, the values the promise [start] returned was
    resolved with (latest first), and whether the executor of that promise
    threw. *)
Record t : Type := {
  process : bool;
  publicUrl : option string;
  webhookUrl : jsval;
  log : list string;
  listening : option closure;
  resolutions : list jsval;
  rejected : bool
}.

(** [new TunnelManager()]. *)
Definition fresh : t :=
  {| process := false; publicUrl := None; webhookUrl := JNull; log := [];
     listening := None; resolutions := []; rejected := false |}.

(** [start(port, existingWebhookUrl)]; [spawned] is what the call of
    [spawn] does. *)
Definition start (port existingWebhookUrl : jsval) (spawned : result unit) (m : t) : t :=
  if truthy existingWebhookUrl then
    {| process := process m; publicUrl := publicUrl m;
       webhookUrl := existingWebhookUrl;
       log := ("[Tunnel] Using configured webhook URL: " ++ to_string existingWebhookUrl)
              :: log m;
       listening := listening m;
       resolutions := existingWebhookUrl :: resolutions m;
       rejected := rejected m |}
  else
    let starting :=
      ("[Tunnel] Starting cloudflared tunnel --url http://localhost:" ++ to_string port)
      :: log m in
    match spawned with
    | Ok _ =>
        {| process := true; publicUrl := publicUrl m; webhookUrl := webhookUrl m;
           log := starting;
           listening := Some {| port := port; resolved := false; timer := true |};
           resolutions := resolutions m; rejected := rejected m |}
    | Throws (Exn _) =>
        {| process := process m; publicUrl := publicUrl m; webhookUrl := webhookUrl m;
           log := "[Tunnel] Error starting tunnel:" :: starting;
           listening := listening m;
           resolutions := JNull :: resolutions m; rejected := rejected m |}
    | Throws Nullish =>
        {| process := process m; publicUrl := publicUrl m; webhookUrl := webhookUrl m;
           log := starting;
           listening := listening m;
           resolutions := resolutions m; rejected := true |}
    end.

(** What the child process and the timer can make happen. *)
Inductive event : Type :=
| Output (data : string)
| Error (code : jsval)
| Exit (code : jsval)
| Timed_out.

(** [resolved = true; clearTimeout(timeout); ...; resolve(value)], with the
    line logged on the way. *)
Definition settle (line : list string) (value : jsval) (c : closure) (m : t) : t :=
  {| process := process m; publicUrl := publicUrl m; webhookUrl := webhookUrl m;
     log := (line ++ log m)%list;
     listening := Some {| port := port c; resolved := true; timer := false |};
     resolutions := value :: resolutions m; rejected := rejected m |}.

(** [handleOutput], for both [stdout] and [stderr]. *)
Definition handleOutput (data : string) (c : closure) (m : t) : t :=
  match match_tunnel_url data with
  | Some url =>
      if negb (resolved c) then
        let hook := url ++ "/api/webhook" in
        settle ["[Tunnel] Webhook URL: " ++ hook;
                "[Tunnel] Cloudflare tunnel active: " ++ url ++ " -> localhost:"
                  ++ to_string (port c)]
               (JString hook) c
               {| process := process m; publicUrl := Some url; webhookUrl := JString hook;
                  log := log m; listening := listening m;
                  resolutions := resolutions m; rejected := rejected m |}
      else m
  | None => m
  end.

Definition is_enoent (code : jsval) : bool :=
  match code with
  | JString s => (s =? "ENOENT")%string
  | _ => false
  end.

(** One event reaching the handlers [start] installed.  The timer fires only
    while it is armed. *)
Definition fire (e : event) (m : t) : t :=
  match listening m with
  | None => m
  | Some c =>
      match e with
      | Output data => handleOutput data c m
      | Error code =>
          if negb (resolved c) then
            settle [if is_enoent code
                    then "[Tunnel] cloudflared binary not found. Install with: brew install cloudflared"
                    else "[Tunnel] Failed to start tunnel:"]
                   JNull c m
          else m
      | Exit code =>
          let m' :=
            if negb (resolved c)
            then settle ["[Tunnel] cloudflared exited with code " ++ to_string code] JNull c m
            else m in
          {| process := false; publicUrl := None; webhookUrl := webhookUrl m';
             log := log m'; listening := listening m';
             resolutions := resolutions m'; rejected := rejected m' |}
      | Timed_out =>
          if timer c then
            if negb (resolved c)
            then settle ["[Tunnel] Timeout waiting for tunnel URL"] JNull c m
            else {| process := process m; publicUrl := publicUrl m;
                    webhookUrl := webhookUrl m; log := log m;
                    listening := Some {| port := port c; resolved := resolved c;
                                         timer := false |};
                    resolutions := resolutions m; rejected := rejected m |}
          else m
      end
  end.

(** [stop()]; [killed] is what [this._process.kill('SIGTERM')] does. *)
Definition stop (killed : result unit) (m : t) : result unit * t :=
  let cleared (lines : list string) :=
    {| process := false; publicUrl := None; webhookUrl := JNull;
       log := (lines ++ log m)%list; listening := listening m;
       resolutions := resolutions m; rejected := rejected m |} in
  if process m then
    match killed with
    | Ok _ => (Ok tt, cleared [])
    | Throws (Exn _) => (Ok tt, cleared ["[Tunnel] Error stopping tunnel:"])
    | Throws Nullish => (Throws (Exn "TypeError: Cannot read properties of undefined"), m)
    end
  else (Ok tt, cleared []).

Definition isRunning (m : t) : bool :=
  process m && match publicUrl m with Some _ => true | None => false end.

Definition getUrl (m : t) : option string := publicUrl m.

Definition getWebhookUrl (m : t) : jsval := webhookUrl m.

(** What happens to a manager after [start]: events of the child process
    and calls of [stop]. *)
Inductive op : Type :=
| Fire (e : event)
| Stop (killed : result unit).

Definition step (o : op) (m : t) : t :=
  match o with
  | Fire e => fire e m
  | Stop killed => snd (stop killed m)
  end.

Definition play (ops : list op) (m : t) : t := fold_left (fun m' o => step o m') ops m.

End Tunnel.

(** ** [main.js] *)

(** *** The history listing *)

(** What the [get-recordings] handler hands to the renderer for a row:
    every column but [video_id]. *)
Module Listing.
Record t : Type := mk {
  id : Z;
  session_id : option string;
  stream_url : option string;
  player_url : option string;
  created_at : option string;
  duration : cell;
  insights_status : option string;
  insights : option string
}.
End Listing.

Definition listing_of (r : Recording.t) : Listing.t :=
  Listing.mk (Recording.id r) (Recording.session_id r) (Recording.stream_url r)
    (Recording.player_url r) (Recording.created_at r) (Recording.duration r)
    (Recording.insights_status r) (Recording.insights r).

(** [ipcMain.handle('get-recordings', ...)]. *)
Definition get_recordings_handler : sync (list Listing.t) :=
  try_catch
    (recordings <- getRecordings (Some 20) ;;
     ret (map listing_of recordings))
    (fun _ => console_log "Failed to get recordings:" ;; ret []).

(** *** Registration and the session token *)

(** The module-level state the handlers below share: the state of
    [database.js] and the console ([store]), [appConfig.accessToken] and
    [appConfig.userName], and the session token cache.  [users_seq] is the
    [sqlite_sequence] entry of [users]. *)
Module App.
Record t : Type := mk {
  store : world;
  users_seq : Z;
  accessToken : jsval;
  userName : jsval;
  cachedSessionToken : jsval;
  tokenExpiresAt : option Z
}.
End App.

Definition action (A : Type) : Type := App.t -> result A * App.t.

#[export] Instance action_monad : Monad action := {
  ret := fun A x a => (Ok x, a);
  bind := fun A B (m : action A) (f : A -> action B) a =>
            match m a with
            | (Ok x, a') => f x a'
            | (Throws e, a') => (Throws e, a')
            end;
  throw := fun A e a => (Throws e, a);
  try_catch := fun A (m : action A) (h : thrown -> action A) a =>
                 match m a with
                 | (Ok x, a') => (Ok x, a')
                 | (Throws e, a') => h e a'
                 end
}.

Definition with_store (w : world) (a : App.t) : App.t :=
  App.mk w (App.users_seq a) (App.accessToken a) (App.userName a)
         (App.cachedSessionToken a) (App.tokenExpiresAt a).

(** A call into [database.js]. *)
Definition in_store {A : Type} (m : sync A) : action A :=
  fun a => let (r, w) := m (App.store a) in (r, with_store w a).

Definition app_log (line : string) : action unit := in_store (console_log line).

(** A nullable [TEXT] column as the JavaScript value sql.js reads. *)
Definition jsval_of_text (t : option string) : jsval :=
  match t with
  | Some s => JString s
  | None => JNull
  end.

Definition getCurrentUserApiKey : action (option string) :=
  fun a =>
    if negb (truthy (App.accessToken a)) then (Ok None, a)
    else in_store (user <- findUserByToken (App.accessToken a) ;;
                   ret (match user with
                        | Some u => User.api_key u
                        | None => None
                        end)) a.

Definition getCurrentUser : action (option User.t) :=
  fun a =>
    if negb (truthy (App.accessToken a)) then (Ok None, a)
    else in_store (findUserByToken (App.accessToken a)) a.

(** [saveUserConfig({ accessToken, userName })]; [written] tells whether
    [fs.writeFileSync] returned.  [appConfig] is assigned before the file is
    written. *)
Definition saveUserConfig (written : bool) (accessToken userName : jsval) : action bool :=
  fun a =>
    let a' := App.mk (App.store a) (App.users_seq a) accessToken userName
                     (App.cachedSessionToken a) (App.tokenExpiresAt a) in
    if written
    then (Ok true, snd (app_log "User config saved:" a'))
    else (Ok false, snd (app_log "Error saving user config:" a')).

(** [createUser], with the sequence of [users] kept up to date. *)
Definition app_createUser (name apiKey accessToken : jsval) : action NewUser.t :=
  fun a =>
    match createUser (App.users_seq a) name apiKey accessToken (App.store a) with
    | (Ok res, w) =>
        (Ok res, App.mk w (NewUser.id res) (App.accessToken a) (App.userName a)
                        (App.cachedSessionToken a) (App.tokenExpiresAt a))
    | (Throws e, w) => (Throws e, with_store w a)
    end.

(** The methods of [videodbService] the handlers await. *)
Inductive service_call : Type :=
| verifyApiKey (apiKey : jsval)
| generateSessionToken (apiKey : string).

(** An [async] function that awaits at most once.  Called in some state, it
    runs up to its [await] (or to its end) and leaves a promise: either it
    has returned or thrown already, or it waits for [c] and goes on, with
    what [c] settles to, in whatever state the program is in by then. *)
Inductive pending (R S A : Type) : Type :=
| Returned (r : result A)
| Awaiting (c : service_call) (k : result R -> S -> result A * S).
Arguments Returned {R S A} r.
Arguments Awaiting {R S A} c k.

(** What the [register] handler answers: [{ success: true, userName }],
    [{ success: false, error: '...' }] with a message of its own, or
    [{ success: false, error: error.message }] for a caught [error]. *)
Inductive reply : Type :=
| Success (userName : jsval)
| Refused (error : string)
| Failed (error : thrown).

(** The [catch] block of [register]; reading [error.message] throws when
    [error] is [null] or [undefined]. *)
Definition registration_error (error : thrown) : action reply :=
  app_log "Registration error:" ;;
  match error with
  | Exn _ => ret (Failed error)
  | Nullish => throw (Exn "TypeError: Cannot read properties of undefined")
  end.

(** [cachedSessionToken = null; tokenExpiresAt = null]. *)
Definition clear_session_token : action unit :=
  fun a => (Ok tt, App.mk (App.store a) (App.users_seq a) (App.accessToken a)
                          (App.userName a) JNull None).

(** The [register] handler from its [await] on: [valid] is what
    [verifyApiKey] settled to. *)
Definition register_resume (uuid : string) (written : bool) (name apiKey : jsval)
    (valid : result bool) : action reply :=
  try_catch
    (ok <- lift valid ;;
     if negb ok
     then ret (Refused "Invalid API key. Please check your key and try again.")
     else
       existingUser <- in_store (findUserByApiKey apiKey) ;;
       let guest := js_or name (JString "Guest") in
       chosen <- match existingUser with
                 | Some u =>
                     ret (jsval_of_text (User.access_token u),
                          jsval_of_text (User.name u))
                 | None =>
                     app_createUser guest apiKey (JString uuid) ;;
                     ret (JString uuid, guest)
                 end ;;
       app_log "Registration successful. Token generated." ;;
       saveUserConfig written (fst chosen) (snd chosen) ;;
       clear_session_token ;;
       ret (Success (snd chosen)))
    registration_error.

(** [ipcMain.handle('register', ...)].  [data] is [None] for a [data] that
    cannot be destructured ([null], [undefined]); otherwise its [name] and
    its [apiKey].  [uuid] is what [randomUUID()] returns. *)
Definition register (uuid : string) (written : bool) (data : option (jsval * jsval))
  : App.t -> pending bool App.t reply * App.t :=
  fun a =>
    match data with
    | None =>
        let (r, a') := registration_error (Exn "TypeError: Cannot destructure property") a in
        (Returned r, a')
    | Some (name, apiKey) =>
        (Awaiting (verifyApiKey apiKey) (register_resume uuid written name apiKey),
         snd (app_log ("Registering user: " ++ to_string name) a))
    end.

(** What [videodbService.generateSessionToken] resolves to. *)
Module TokenData.
Record t : Type := mk {
  sessionToken : jsval;
  expiresIn : Z;
  expiresAt : Z
}.
End TokenData.

(** [getSessionToken] from its [await] on; [later] is what [Date.now()]
    reads then. *)
Definition getSessionToken_resume (later : Z) (outcome : result TokenData.t) : action jsval :=
  fun a =>
    match outcome with
    | Ok tokenData =>
        if truthy (TokenData.sessionToken tokenData) then
          let expiresInMs :=
            (if TokenData.expiresIn tokenData =? 0 then 3600
             else TokenData.expiresIn tokenData) * 1000 in
          (Ok (TokenData.sessionToken tokenData),
           App.mk (App.store a) (App.users_seq a) (App.accessToken a) (App.userName a)
                  (TokenData.sessionToken tokenData)
                  (Some (later + expiresInMs - 5 * 60 * 1000)))
        else (Ok JNull, a)
    | Throws _ => (Ok JNull, snd (app_log "Error generating session token:" a))
    end.

(** [getSessionToken()]; [now] is what [Date.now()] reads when the function
    is called. *)
Definition getSessionToken (now later : Z)
  : App.t -> pending TokenData.t App.t jsval * App.t :=
  fun a =>
    if truthy (App.cachedSessionToken a) &&
       match App.tokenExpiresAt a with
       | Some expires => negb (expires =? 0) && (now <? expires)
       | None => false
       end
    then (Returned (Ok (App.cachedSessionToken a)),
          snd (app_log "Using cached session token (expires in" a))
    else
      match getCurrentUserApiKey a with
      | (Throws e, a') => (Returned (Throws e), a')
      | (Ok apiKey, a') =>
          match apiKey with
          | Some key =>
              if text_truthy (Some key) then
                (Awaiting (generateSessionToken key) (getSessionToken_resume later),
                 snd (app_log "Generating session token via VideoDB SDK..." a'))
              else
                (Returned (Ok JNull),
                 snd (app_log "No API key available. Please register first." a'))
          | None =>
              (Returned (Ok JNull),
               snd (app_log "No API key available. Please register first." a'))
          end
      end.

(** ** [index.js] *)

(** The JSON body of a webhook request.  [data] is [None] when [body.data]
    is missing or is not an object, so that all its properties read as
    [JUndefined]. *)
Module Data.
Record t : Type := mk {
  exported_video_id : jsval;
  stream_url : jsval;
  player_url : jsval
}.
End Data.

Module Body.
Record t : Type := mk {
  event : jsval;
  capture_session_id : jsval;
  data : option Data.t
}.
End Body.

Section Server.

(** [JSON.stringify({ transcript: v })]. *)
Variable JSON_stringify : jsval -> string.

Definition rewritten_player_url (recording : option Recording.t) (subtitleUrl : jsval)
  : jsval :=
  match recording with
  | Some r =>
      match Recording.player_url r with
      | Some p =>
          if text_truthy (Some p) && includes "url=" p
          then JString (replace_url_param p ("url=" ++ to_string subtitleUrl))
          else subtitleUrl
      | None => subtitleUrl
      end
  | None => subtitleUrl
  end.

(** The [if (result) ... else ...] of [processIndexingBackground]. *)
Definition store_result (recordingId : Z) (videoId : jsval)
    (result : option (jsval * jsval)) : proc unit :=
  match result with
  | Some (transcript, subtitleUrl) =>
      let status := [(insights_status, JString "ready")] in
      let payload :=
        if truthy transcript
        then [(insights, JString (JSON_stringify transcript))]
        else [] in
      urls <- (if truthy subtitleUrl then
                 recording <- Store_get recordingId settle ;;
                 ret [(stream_url, subtitleUrl);
                      (player_url, rewritten_player_url recording subtitleUrl)]
               else ret []) ;;
      Store_update recordingId (status ++ payload ++ urls)%list settle ;;
      proc_log ("[Index BG] Indexed video " ++ to_string videoId ++ " successfully")
  | None =>
      Store_update recordingId [(insights_status, JString "failed")] settle ;;
      proc_log ("[Index BG] Failed to index video " ++ to_string videoId)
  end.

(** Its [catch] block. *)
Definition on_error (recordingId : Z) (err : thrown) : proc unit :=
  proc_log "[Index BG] Error processing:" ;;
  try_catch
    (Store_update recordingId [(insights_status, JString "failed")] settle)
    (fun _ => ret tt).

Definition processIndexingBackground (recordingId : Z) (videoId : jsval) (key : string)
  : proc unit :=
  try_catch
    (Store_update recordingId [(insights_status, JString "processing")] settle ;;
     proc_log ("[Index BG] Starting indexing for recording " ++ number_text recordingId) ;;
     result <- indexVideo videoId key JUndefined ;;
     store_result recordingId videoId result)
    (on_error recordingId).

(** The two answers of the handler: [res.json({ status: 'ok', received: true })]
    and [res.status(500).json({ error: ... })]. *)
Inductive response : Type :=
| ok_received
| error_500.

Definition data_field (f : Data.t -> jsval) (d : option Data.t) : jsval :=
  match d with
  | Some x => f x
  | None => JUndefined
  end.

(** [eventType === s]. *)
Definition strict_eq_string (v : jsval) (s : string) : bool :=
  match v with
  | JString t => (t =? s)%string
  | _ => false
  end.

(** [eventType.startsWith(s)], for a truthy [eventType]. *)
Definition startsWith (v : jsval) (s : string) : sync bool :=
  match v with
  | JString t => ret (String.prefix s t)
  | _ => throw (Exn "TypeError: eventType.startsWith is not a function")
  end.

(** The end of the exported-event branch: re-fetch the row and schedule the
    background indexing. *)
Definition schedule_indexing (videoId : jsval) : sync unit :=
  rec <- findRecordingByVideoId videoId ;;
  latestUser <- getLatestUser ;;
  match latestUser, rec with
  | Some u, Some r =>
      match User.api_key u with
      | Some k =>
          if text_truthy (Some k)
          then spawn (processIndexingBackground (Recording.id r) videoId k)
          else ret tt
      | None => ret tt
      end
  | _, _ => ret tt
  end.

Definition exported_event (videoId streamUrl playerUrl sessionId : jsval)
  : sync response :=
  if truthy videoId then
    recording <- findRecordingBySessionId sessionId ;;
    match recording with
    | Some r =>
        updateRecording (Recording.id r)
          [(video_id, videoId); (stream_url, streamUrl);
           (player_url, playerUrl); (insights_status, JString "pending")] ;;
        console_log ("[Webhook] Updated recording: " ++ to_string videoId) ;;
        schedule_indexing videoId ;;
        ret ok_received
    | None =>
        existing <- findRecordingByVideoId videoId ;;
        match existing with
        | Some _ =>
            console_log ("[Webhook] Recording already exists: " ++ to_string videoId) ;;
            ret ok_received
        | None =>
            createRecording
              (Fields.mk videoId streamUrl playerUrl sessionId
                         JUndefined JUndefined (JString "pending")) ;;
            console_log ("[Webhook] Created recording: " ++ to_string videoId) ;;
            schedule_indexing videoId ;;
            ret ok_received
        end
    end
  else
    console_log "[Webhook] No video_id in exported event" ;;
    ret ok_received.

Definition handle (body : option Body.t) : sync response :=
  match body with
  | None => ret ok_received
  | Some b =>
      if negb (truthy (Body.event b)) then ret ok_received
      else
        let eventType := js_or (Body.event b) (JString "unknown") in
        console_log ("[Webhook] Event: " ++ to_string eventType) ;;
        let data := Body.data b in
        let captureSessionId := Body.capture_session_id b in
        if strict_eq_string eventType "capture_session.exported" then
          exported_event (data_field Data.exported_video_id data)
                         (data_field Data.stream_url data)
                         (data_field Data.player_url data)
                         captureSessionId
        else
          capture <- startsWith eventType "capture_session." ;;
          (if capture
           then console_log ("[Webhook] Capture session event: " ++ to_string eventType)
           else ret tt) ;;
          ret ok_received
  end.

(** [POST /api/webhook]. *)
Definition webhook (body : option Body.t) (w : world) : response * world :=
  match try_catch (handle body)
          (fun err => console_log "[Webhook] Error processing:" ;; ret error_500) w
  with
  | (Ok r, w') => (r, w')
  | (Throws _, w') => (error_500, w')
  end.

(** ** The event loop *)

(** What can happen next: a webhook request arrives, an external call of
    the [i]-th waiting task completes, the clock moves on, or the
    application shuts its database. *)
Inductive happening : Type :=
| Delivery (body : option Body.t)
| Completion (i : nat) (outcome : result jsval)
| Tick (now : string)
| Shutdown.

Definition without {A : Type} (i : nat) (l : list A) : list A :=
  (firstn i l ++ skipn (S i) l)%list.

Definition resume (i : nat) (outcome : result jsval) (w : world) : world :=
  match nth_error (pool w) i with
  | Some (External _ k) =>
      let w0 := {| db := db w; clock := clock w; console := console w;
                   pool := without i (pool w) |} in
      let (p', w') := advance (k outcome) w0 in
      enqueue p' w'
  | _ => w
  end.

Definition react (h : happening) (w : world) : world :=
  match h with
  | Delivery body => snd (webhook body w)
  | Completion i outcome => resume i outcome w
  | Tick now =>
      {| db := db w; clock := now; console := console w; pool := pool w |}
  | Shutdown => snd (closeDatabase w)
  end.

Definition play (hs : list happening) (w : world) : world :=
  fold_left (fun w' h => react h w') hs w.

(** ** Vocabulary of the statements *)

(** The rows of [recordings]; none while the database is closed. *)
Definition rows (w : world) : list Recording.t :=
  match db w with
  | Some d => recordings d
  | None => []
  end.

(** [c] is a key of the update map with a defined value. *)
Definition mentions (c : column) (data : updates) : bool :=
  existsb (fun '(c', v) => column_eqb c c' && defined v) data.

(** What column [c] holds once [p] was assigned to it. *)
Definition stored (c : column) (p : sqlval) : cell :=
  match c with
  | duration => integer_affinity p
  | _ => cell_of_text (text_affinity p)
  end.

(** [a] may come before [b] in a listing that is most recent first. *)
Definition newest_first (a b : Recording.t) : Prop :=
  created_leb (Recording.created_at b) (Recording.created_at a) = true.

(** The state with another content of [recordings]. *)
Definition with_rows (rs : list Recording.t) (seq : Z) (d : database) (w : world) : world :=
  {| db := Some {| users := users d; recordings := rs; recordings_seq := seq |};
     clock := clock w; console := console w; pool := pool w |}.

(** The effect of [UPDATE recordings SET ... WHERE id = ?] on the table. *)
Definition updated_rows (id : Z) (sets : list (column * sqlval)) (rs : list Recording.t)
  : list Recording.t :=
  map (fun r => if Recording.id r =? id then apply_sets sets r else r) rs.

(** No entry of [l] is keyed by [c]. *)
Definition avoids {V : Type} (c : column) (l : list (column * V)) : bool :=
  forallb (fun '(c', _) => negb (column_eqb c c')) l.

(** The answer of the handler, from what its [try] block did. *)
Definition conclude (x : result response * world) : response * world :=
  match x with
  | (Ok r, w') => (r, w')
  | (Throws _, w') => (error_500, logged "[Webhook] Error processing:" w')
  end.

(** A [capture_session.exported] request. *)
Definition exported (sessionId videoId streamUrl playerUrl : jsval) : option Body.t :=
  Some (Body.mk (JString "capture_session.exported") sessionId
          (Some (Data.mk videoId streamUrl playerUrl))).

(** The row the two lookups of the handler find. *)
Definition session_row (sid : option string) (rs : list Recording.t) : option Recording.t :=
  getOne (filter (fun r => sql_text_eq (Recording.session_id r) sid) rs).

Definition video_row (vid : option string) (rs : list Recording.t) : option Recording.t :=
  getOne (filter (fun r => sql_text_eq (Recording.video_id r) vid) rs).

Definition closed_error : thrown := Exn "TypeError: Cannot read properties of null".

(** What [run] returns, and how it composes along [bind] and [try_catch]. *)
Definition outcome_of (A : Type) : Type := (result A * world * list event)%type.

Definition run_then {A B : Type} (x : outcome_of A) (f : A -> world -> outcome_of B)
  : outcome_of B :=
  match x with
  | (Ok a, w, t) => let '(r, w', t') := f a w in (r, w', (t ++ t')%list)
  | (Throws e, w, t) => (Throws e, w, t)
  end.

Definition run_else {A : Type} (x : outcome_of A) (h : thrown -> world -> outcome_of A)
  : outcome_of A :=
  match x with
  | (Ok a, w, t) => (Ok a, w, t)
  | (Throws e, w, t) => let '(r, w', t') := h e w in (r, w', (t ++ t')%list)
  end.

(** The external calls of one indexing, in the order [indexVideo] makes
    them. *)
Definition steps (videoId : jsval) (key : string) : list ext_call :=
  [connect {| apiKey := key; baseUrl := None |}; getCollection; getVideo videoId;
   indexSpokenWords; getTranscriptText; addSubtitle].

(** The two ways an indexing fails: the lookup resolves to nothing, or some
    call raises. *)
Definition lookup_fails (sdk : ext_call -> result jsval) (videoId : jsval) : Prop :=
  exists v, sdk (getVideo videoId) = Ok v /\ truthy v = false.

Definition step_raises (sdk : ext_call -> result jsval) (videoId : jsval) (key : string)
  : Prop :=
  exists c e, In c (steps videoId key) /\ sdk c = Throws e.

Definition resolves (sdk : ext_call -> result jsval) (c : ext_call) : Prop :=
  exists v, sdk c = Ok v.

(** The status column of the rows with a given id. *)
Definition has_status (id : Z) (status : string) (w : world) : Prop :=
  forall r, In r (rows w) -> Recording.id r = id ->
            Recording.insights_status r = Some status.

(** The state once the background task for row [id] has had its first
    turn and waits as [p]. *)
Definition begun (id : Z) (p : proc unit) (d : database) (w : world) : world :=
  enqueue p
    (logged ("[Index BG] Starting indexing for recording " ++ number_text id)
       (with_rows (updated_rows id [(insights_status, SqlText "processing")] (recordings d))
          (recordings_seq d) d w)).

(** The update map of the handler for a session it already tracks. *)
Definition redelivery (videoId streamUrl playerUrl : jsval) : updates :=
  [(video_id, videoId); (stream_url, streamUrl);
   (player_url, playerUrl); (insights_status, JString "pending")].

(** The object the handler passes to [createRecording]. *)
Definition first_delivery (videoId streamUrl playerUrl sessionId : jsval) : Fields.t :=
  Fields.mk videoId streamUrl playerUrl sessionId JUndefined JUndefined (JString "pending").

Definition result_bind {A B : Type} (r : result A) (f : A -> result B) : result B :=
  match r with
  | Ok a => f a
  | Throws e => Throws e
  end.

(** The row [createRecording data] inserts, when every value can be bound. *)
Definition new_row (data : Fields.t) (d : database) (now : string) : result Recording.t :=
  result_bind (bindValue (js_or (Fields.video_id data) JNull)) (fun vid =>
  result_bind (bindValue (js_or (Fields.stream_url data) JNull)) (fun su =>
  result_bind (bindValue (js_or (Fields.player_url data) JNull)) (fun pu =>
  result_bind (bindValue (js_or (Fields.session_id data) JNull)) (fun sid =>
  result_bind (bindValue (js_or (Fields.duration data) JNull)) (fun du =>
  result_bind (bindValue (js_or (Fields.insights data) JNull)) (fun ins =>
  result_bind (bindValue (js_or (Fields.insights_status data) (JString "pending"))) (fun st =>
  Ok (Recording.mk (next_rowid d) (text_affinity vid) (text_affinity su)
        (text_affinity pu) (text_affinity sid) (integer_affinity du) (Some now)
        (text_affinity ins) (text_affinity st))))))))).

(** The player URL [rewritten_player_url] computes from the stored one when
    the subtitle URL is the string [s]. *)
Definition new_player_url (stored_url : option string) (s : string) : string :=
  match stored_url with
  | Some p =>
      if text_truthy (Some p) && includes "url=" p
      then replace_url_param p ("url=" ++ s)
      else s
  | None => s
  end.

Definition has_player_url (id : Z) (url : string) (w : world) : Prop :=
  forall r, In r (rows w) -> Recording.id r = id -> Recording.player_url r = Some url.

Definition has_stream_url (id : Z) (url : string) (w : world) : Prop :=
  forall r, In r (rows w) -> Recording.id r = id -> Recording.stream_url r = Some url.

(** The row [getRecordingById] finds. *)
Definition row_by_id (id : Z) (rs : list Recording.t) : option Recording.t :=
  getOne (filter (fun r => Recording.id r =? id) rs).

(** Every call of an indexing resolves, to objects where methods are called
    on the result, with transcript [t] and subtitle URL [s]. *)
Definition indexing_succeeds (sdk : ext_call -> result jsval) (videoId : jsval)
    (key : string) (t : jsval) (s : string) : Prop :=
  sdk (connect {| apiKey := key; baseUrl := None |}) = Ok JObject /\
  sdk getCollection = Ok JObject /\
  sdk (getVideo videoId) = Ok JObject /\
  (exists v, sdk indexSpokenWords = Ok v) /\
  sdk getTranscriptText = Ok t /\
  sdk addSubtitle = Ok (JString s).

(** ** The life of a status *)

Definition terminal (status : option string) : Prop :=
  status = Some "ready" \/ status = Some "failed".

(** An update map that writes a terminal status, and leaves the session id
    alone. *)
Definition terminal_update (data : updates) : Prop :=
  exists s rest,
    data = (insights_status, JString s) :: rest /\
    (s = "ready" \/ s = "failed") /\
    avoids insights_status rest = true /\
    avoids session_id rest = true.

(** What is left of a background task on row [id] after its first turn:
    whatever the store and the SDK answer, it writes nothing but terminal
    statuses, to that row, and it ends without throwing. *)
Inductive finishing (id : Z) : proc unit -> Prop :=
| finishing_return : finishing id (Return tt)
| finishing_console line k : finishing id k -> finishing id (Console line k)
| finishing_external c k :
    (forall o, finishing id (k o)) -> finishing id (External c k)
| finishing_get i k :
    (forall r, finishing id (k r)) -> finishing id (Store_get i k)
| finishing_update data k :
    terminal_update data ->
    (forall r, finishing id (k r)) -> finishing id (Store_update id data k).

(** Every waiting task is the rest of a background task. *)
Definition pool_ok (w : world) : Prop :=
  Forall (fun p => exists id, finishing id p) (pool w).

(** How a row may differ after a completion of a task on row [id], and after
    a webhook delivery. *)
Definition same_key (a b : Recording.t) : Prop :=
  Recording.id b = Recording.id a /\ Recording.session_id b = Recording.session_id a.

Definition by_completion (id : Z) (a b : Recording.t) : Prop :=
  same_key a b /\
  (Recording.id a <> id -> b = a) /\
  (Recording.insights_status b = Recording.insights_status a \/
   terminal (Recording.insights_status b)).

Definition by_delivery (a b : Recording.t) : Prop :=
  same_key a b /\
  (Recording.insights_status b = Recording.insights_status a \/
   Recording.insights_status b = Some "pending" \/
   Recording.insights_status b = Some "processing").

(** The table [rs'] has the rows of [rs], each possibly changed as [R]
    allows, and possibly more rows after them. *)
Definition evolves (R : Recording.t -> Recording.t -> Prop) (rs rs' : list Recording.t)
  : Prop :=
  exists kept extra, rs' = (kept ++ extra)%list /\ Forall2 R rs kept.

(** The statuses one run may write, in order. *)
Definition forward_only (written : list jsval) : Prop :=
  written = [] \/
  written = [JString "processing"] \/
  written = [JString "processing"; JString "ready"] \/
  written = [JString "processing"; JString "failed"].

(** ** A delivery for a session that is already tracked *)


(** A value sql.js can bind, or none at all. *)
Definition storable (v : jsval) : Prop := v <> JObject.

(** A value whose text in a [TEXT] column the embedding gives to the letter:
    anything but a number of sixteen digits or more, the last digit of whose
    text depends on the rounding of SQLite's floating-point arithmetic. *)
Definition plain (v : jsval) : Prop :=
  match v with
  | JNumber n => Z.abs n < 10 ^ 15
  | _ => True
  end.



Definition terminal_status_is_sticky : Prop :=
  forall w0 hs h n a b,
    pool w0 = [] ->
    nth_error (rows (play hs w0)) n = Some a ->
    nth_error (rows (react h (play hs w0))) n = Some b ->
    terminal (Recording.insights_status a) ->
    Recording.insights_status b <> Recording.insights_status a ->
    exists body, h = Delivery body.

(** The property that a listing never has more rows than the limit asked
    for. *)
Definition every_limit_bounds_the_listing : Prop :=
  forall n w listing,
    getRecordings (Some n) w = (Ok listing, w) ->
    Z.of_nat (List.length listing) <= n.

(** The property that, once a run has begun on a row and as long as none
    of its calls has completed, no reader of the row finds it
    ['pending']. *)
Definition pending_is_not_seen_once_begun : Prop :=
  forall w0 rid vid key bodies x,
    db w0 <> None ->
    In x (rows (play (map Delivery bodies)
                  (snd (spawn (processIndexingBackground rid vid key) w0)))) ->
    Recording.id x = rid ->
    Recording.insights_status x <> Some "pending".

(** ** Users *)

(** The rows of [users]; none while the database is closed. *)
Definition registered (w : world) : list User.t :=
  match db w with
  | Some d => users d
  | None => []
  end.

(** The rows the lookups on [users] find. *)
Definition user_by_token (token : option string) (us : list User.t) : option User.t :=
  getOne (filter (fun u => sql_text_eq (User.access_token u) token) us).

Definition user_by_api_key (key : option string) (us : list User.t) : option User.t :=
  getOne (filter (fun u => sql_text_eq (User.api_key u) key) us).

(** The access tokens in the table, NULLs left out. *)
Definition tokens (us : list User.t) : list string :=
  flat_map (fun u => match User.access_token u with
                     | Some t => [t]
                     | None => []
                     end) us.

Definition unique_violation : thrown :=
  Exn "UNIQUE constraint failed: users.access_token".

(** ** Indexing *)

(** The configuration [indexVideo] connects with, and the calls it makes
    with it, in order. *)
Definition config_for (key : string) (base : jsval) : config :=
  {| apiKey := key; baseUrl := if truthy base then Some base else None |}.

Definition indexing_calls (vid : jsval) (cfg : config) : list ext_call :=
  [connect cfg; getCollection; getVideo vid;
   indexSpokenWords; getTranscriptText; addSubtitle].

(** A run changed the state only by logging and by what the rest of the
    program did meanwhile. *)
Definition only_logged (interference : ext_call -> world -> world) (w w' : world) : Prop :=
  forall P : world -> Prop,
    (forall c w0, P w0 -> P (interference c w0)) ->
    (forall line w0, P w0 -> P (logged line w0)) ->
    P w -> P w'.

(** ** The tunnel *)

(** Every character of [label] is in [[a-zA-Z0-9-]]. *)
Fixpoint label_ok (label : string) : bool :=
  match label with
  | EmptyString => true
  | String c l => is_label_char c && label_ok l
  end.

(** What the fields of a manager and the closure of its [start] call have
    to do with what [start] resolved to. *)
Definition tunnel_consistent (m : Tunnel.t) : Prop :=
  match Tunnel.listening m with
  | Some c => (Tunnel.resolved c = false <-> Tunnel.resolutions m = []) /\
              (Tunnel.timer c = true -> Tunnel.resolved c = false)
  | None => True
  end /\
  (List.length (Tunnel.resolutions m) <= 1)%nat /\
  (forall u, Tunnel.publicUrl m = Some u ->
             Tunnel.webhookUrl m = JString (u ++ "/api/webhook")) /\
  (Tunnel.webhookUrl m <> JNull -> Tunnel.resolutions m = [Tunnel.webhookUrl m]).

(** ** The application *)

(** How long a generated session token is served from the cache, in
    milliseconds: its lifetime (an hour when none is given) less five
    minutes. *)
Definition cache_window (tokenData : TokenData.t) : Z :=
  (if TokenData.expiresIn tokenData =? 0 then 3600 else TokenData.expiresIn tokenData) * 1000
  - 300000.

(** The parts of the application state a registration may change. *)
Definition same_account (a a' : App.t) : Prop :=
  registered (App.store a') = registered (App.store a) /\
  rows (App.store a') = rows (App.store a) /\
  App.users_seq a' = App.users_seq a /\
  App.accessToken a' = App.accessToken a /\
  App.userName a' = App.userName a /\
  App.cachedSessionToken a' = App.cachedSessionToken a /\
  App.tokenExpiresAt a' = App.tokenExpiresAt a.

(** The state in which a registration that succeeded ends: two lines
    logged, the account in [appConfig], the token cache empty. *)
Definition signed_in (written : bool) (accessToken userName : jsval) (a : App.t) : App.t :=
  App.mk (logged (if written then "User config saved:" else "Error saving user config:")
            (logged "Registration successful. Token generated." (App.store a)))
         (App.users_seq a) accessToken userName JNull None.

(** ** What a run leaves alone *)

(** Row [b] is row [a] after a run of the background task for the rows with
    id [rid]: the columns a delivery fills in and the creation time are as
    they were, and a row with another id is untouched. *)
Definition kept_by_indexing (rid : Z) (a b : Recording.t) : Prop :=
  Recording.id b = Recording.id a /\
  Recording.video_id b = Recording.video_id a /\
  Recording.session_id b = Recording.session_id a /\
  Recording.duration b = Recording.duration a /\
  Recording.created_at b = Recording.created_at a /\
  (Recording.id a <> rid -> b = a).

(** An update map that has none of these columns among its keys. *)
Definition indexing_update (data : updates) : Prop :=
  avoids video_id data = true /\ avoids session_id data = true /\
  avoids duration data = true /\ avoids created_at data = true.

(** A task whose writes all are such updates of the rows with id [rid]. *)
Inductive indexing_only (rid : Z) : proc unit -> Prop :=
| indexing_return : indexing_only rid (Return tt)
| indexing_raise e : indexing_only rid (Raise e)
| indexing_console line k : indexing_only rid k -> indexing_only rid (Console line k)
| indexing_external c k :
    (forall o, indexing_only rid (k o)) -> indexing_only rid (External c k)
| indexing_get i k :
    (forall r, indexing_only rid (k r)) -> indexing_only rid (Store_get i k)
| indexing_write data k :
    indexing_update data ->
    (forall r, indexing_only rid (k r)) -> indexing_only rid (Store_update rid data k).

(** ** Sample states *)

Definition sample_user : User.t :=
  User.mk 1 (Some "ann") (Some "sk-1") (Some "token-1").

Definition sample_row : Recording.t :=
  Recording.mk 1 (Some "v0") (Some "s0") (Some "p0?url=s0&t=3") (Some "sess0")
    CellNull (Some "2025-02-18 10:00:00") None (Some "ready").

Definition sample_row2 : Recording.t :=
  Recording.mk 2 (Some "v9") (Some "s9") (Some "p9") (Some "sess9")
    CellNull (Some "2025-02-20 08:30:00") None (Some "failed").

Definition world_of (us : list User.t) (rs : list Recording.t) : world :=
  {| db := Some {| users := us; recordings := rs; recordings_seq := 0 |};
     clock := "2025-02-20 09:00:00"; console := []; pool := [] |}.

Definition empty_world : world := world_of [sample_user] [].

Definition sample_world : world := world_of [sample_user] [sample_row; sample_row2].

(** The row of the round-trip example. *)
Definition round_trip_row : Recording.t :=
  Recording.mk 1 (Some "v1") (Some "s1") (Some "p1?url=s1") (Some "sess1")
    CellNull (Some "2025-02-20 09:00:00") None (Some "pending").

Definition round_trip_world : world := world_of [sample_user] [round_trip_row].

(** A stand-in for [JSON.stringify] in the instances. *)
Definition sample_stringify (v : jsval) : string := "{transcript:" ++ to_string v ++ "}".

(** Nothing else runs while the task waits. *)
Definition quiet (c : ext_call) (w : world) : world := w.

(** The application shuts down while the task waits. *)
Definition shutting_down (c : ext_call) (w : world) : world := snd (closeDatabase w).

(** An SDK whose calls all resolve. *)
Definition sdk_ok (c : ext_call) : result jsval :=
  match c with
  | connect _ | getCollection | getVideo _ => Ok JObject
  | indexSpokenWords => Ok JUndefined
  | getTranscriptText => Ok (JString "hello")
  | addSubtitle => Ok (JString "s2")
  end.

(** An SDK that does not find the video. *)
Definition sdk_not_found (c : ext_call) : result jsval :=
  match c with
  | getVideo _ => Ok JNull
  | _ => sdk_ok c
  end.

(** An SDK whose network fails after the connection. *)
Definition sdk_offline (c : ext_call) : result jsval :=
  match c with
  | connect _ => Ok JObject
  | _ => Throws (Exn "fetch failed")
  end.

(** Two runs on one row: the session is delivered again while the first
    run waits, the first run then succeeds, and the second is still
    waiting. *)
Definition round_trip_delivery : happening :=
  Delivery (exported (JString "sess1") (JString "v1") (JString "s1") (JString "p1?url=s1")).

Definition overlapping_runs : list happening :=
  [round_trip_delivery; Completion 0 (Ok JObject);
   round_trip_delivery; Completion 1 (Ok JObject);
   Completion 0 (Ok JObject); Completion 1 (Ok JObject); Completion 1 (Ok JUndefined);
   Completion 1 (Ok (JString "hello")); Completion 1 (Ok (JString "s2"))].

(** A database without users, and one that is closed. *)
Definition anonymous_world : world := world_of [] [].

Definition closed_world : world := snd (closeDatabase sample_world).

(** An SDK that indexes the video but gives no subtitle URL. *)
Definition sdk_no_subtitles (c : ext_call) : result jsval :=
  match c with
  | addSubtitle => Ok JNull
  | _ => sdk_ok c
  end.

(** The application before anybody has signed in. *)
Definition sample_app : App.t := App.mk empty_world 1 JNull JNull JNull None.

(** The application with the sample user signed in. *)
Definition signed_in_app : App.t :=
  App.mk empty_world 1 (JString "token-1") (JString "ann") JNull None.

(** A line of cloudflared's output. *)
Definition sample_output : string :=
  "INF |  https://blue-sky-42.trycloudflare.com  |".

Definition sample_token : TokenData.t := TokenData.mk (JString "st-1") 86400 1740128400.

(** * Properties *)

(** ** The rewrite of the [url=] parameter *)

Lemma append_assoc (a b c : string) : ((a ++ b) ++ c = a ++ (b ++ c))%string.
Proof. induction a as [|x a IH]; simpl; [reflexivity|]. rewrite IH. reflexivity. Qed.

Lemma prefix_app (n t : string) : String.prefix n (n ++ t) = true.
Proof.
  induction n as [|x n IH]; simpl; [destruct t; reflexivity|].
  destruct (ascii_dec x x) as [_|N]; [exact IH|contradiction].
Qed.

Lemma includes_unfold (n s : string) :
  includes n s = String.prefix n s ||
                 match s with
                 | EmptyString => false
                 | String _ s' => includes n s'
                 end.
Proof. destruct s; reflexivity. Qed.

Lemma includes_app (n a t : string) : includes n (a ++ n ++ t) = true.
Proof.
  induction a as [|x a IH]; simpl.
  - rewrite includes_unfold, prefix_app. reflexivity.
  - rewrite IH. apply orb_true_r.
Qed.

(** Whether [url=] starts at the head of a text is decided by its first four
    characters. *)
Lemma prefix_url_head c (b t : string) :
  String.prefix "url=" (String c (b ++ "url" ++ t)) =
  String.prefix "url=" (String c (b ++ "url")).
Proof.
  destruct b as [|x [|y [|z b]]]; try reflexivity.
  simpl. repeat destruct (ascii_dec _ _); try reflexivity.
  destruct b; reflexivity.
Qed.

Lemma span_not_amp_app (v rest : string) :
  includes "&" v = false ->
  (rest = "" \/ exists r, rest = String "&" r) ->
  span_not_amp (v ++ rest) = (v, rest).
Proof.
  intros Hv Hr. induction v as [|c v IH]; simpl.
  - destruct Hr as [->|(r & ->)]; reflexivity.
  - simpl in Hv. apply orb_false_iff in Hv as [Hc Hv].
    destruct (c =? "&")%char eqn:E.
    + apply Ascii.eqb_eq in E. subst c. simpl in Hc.
      destruct v; discriminate Hc.
    + rewrite (IH Hv). reflexivity.
Qed.

Lemma match_url_param_here (s v after : string) :
  span_not_amp s = (v, after) -> v <> "" ->
  match_url_param ("url=" ++ s) = Some ("", "url=" ++ v, after).
Proof.
  intros H N.
  change ("url=" ++ s)%string with (String "u" (String "r" (String "l" (String "=" s)))).
  unfold match_url_param; fold match_url_param.
  replace (String.prefix "url=" (String "u" (String "r" (String "l" (String "=" s)))))
    with true by (symmetry; apply (prefix_app "url=" s)).
  change (drop 4 (String "u" (String "r" (String "l" (String "=" s))))) with s.
  rewrite H. destruct v as [|x v]; [contradiction|reflexivity].
Qed.

Lemma match_url_param_later c (s before m after : string) :
  String.prefix "url=" (String c s) = false ->
  match_url_param s = Some (before, m, after) ->
  match_url_param (String c s) = Some (String c before, m, after).
Proof.
  intros P H. unfold match_url_param; fold match_url_param. rewrite P, H. reflexivity.
Qed.

Lemma match_url_param_at (before v rest : string) :
  includes "url=" (before ++ "url") = false ->
  v <> "" -> includes "&" v = false ->
  (rest = "" \/ exists r, rest = String "&" r) ->
  match_url_param (before ++ "url=" ++ v ++ rest) = Some (before, "url=" ++ v, rest).
Proof.
  intros Hb Hn Hv Hr. induction before as [|c b IH].
  - apply match_url_param_here; [apply span_not_amp_app; assumption|exact Hn].
  - rewrite includes_unfold in Hb. apply orb_false_iff in Hb as [Hp Hb].
    apply (match_url_param_later c (b ++ "url=" ++ v ++ rest)).
    + etransitivity; [apply (prefix_url_head c b (String "=" (v ++ rest)))|exact Hp].
    + apply IH, Hb.
Qed.

Lemma get_substitution_plain (m b a r : string) :
  includes "$" r = false -> get_substitution m b a r = r.
Proof.
  induction r as [|c r IH]; simpl; intro H; [reflexivity|].
  apply orb_false_iff in H as [Hc Hr].
  destruct (c =? "$")%char eqn:E.
  - apply Ascii.eqb_eq in E. subst c. simpl in Hc. destruct r; discriminate Hc.
  - rewrite (IH Hr). reflexivity.
Qed.

(** Substituting the value of the first [url=] parameter: the text before
    it and the parameters after it are kept. *)
Lemma replace_url_param_value (before v rest s2 : string) :
  includes "url=" (before ++ "url") = false ->
  v <> "" -> includes "&" v = false ->
  (rest = "" \/ exists r, rest = String "&" r) ->
  includes "$" s2 = false ->
  replace_url_param (before ++ "url=" ++ v ++ rest) ("url=" ++ s2)
  = (before ++ "url=" ++ s2 ++ rest)%string.
Proof.
  intros Hb Hn Hv Hr Hs. unfold replace_url_param.
  rewrite (match_url_param_at before v rest Hb Hn Hv Hr).
  rewrite get_substitution_plain; [|exact Hs].
  rewrite (append_assoc "url=" s2 rest). reflexivity.
Qed.

Lemma includes_nonempty (n s : string) :
  n <> "" -> includes n s = true -> text_truthy (Some s) = true.
Proof.
  intros Hn H. destruct s as [|c s]; [|reflexivity].
  destruct n as [|x n]; [contradiction|]. discriminate H.
Qed.

Arguments findRecordingBySessionId : simpl never.
Arguments findRecordingByVideoId : simpl never.
Arguments getRecordingById : simpl never.
Arguments getLatestUser : simpl never.
Arguments createRecording : simpl never.
Arguments updateRecording : simpl never.
Arguments schedule_indexing : simpl never.
Arguments exported_event : simpl never.
Arguments processIndexingBackground : simpl never.
Arguments store_result : simpl never.
Arguments on_error : simpl never.
Arguments indexVideo : simpl never.
Arguments logged : simpl never.
Arguments to_string : simpl never.
Arguments decimal : simpl never.
Arguments number_text : simpl never.
Arguments real_text : simpl never.
Arguments String.append : simpl never.

(** ** The store *)

Lemma column_eqb_eq c c' : column_eqb c c' = true <-> c = c'.
Proof. destruct c, c'; simpl; split; intro H; try reflexivity; discriminate. Qed.

Lemma column_eqb_refl c : column_eqb c c = true.
Proof. apply column_eqb_eq. reflexivity. Qed.

Lemma set_column_id c p r : Recording.id (set_column c p r) = Recording.id r.
Proof. destruct r, c; reflexivity. Qed.

Lemma set_column_other c c' p r :
  c <> c' -> column_value c' (set_column c p r) = column_value c' r.
Proof. destruct r, c, c'; simpl; intro H; try reflexivity; congruence. Qed.

Lemma set_column_same c p r : column_value c (set_column c p r) = stored c p.
Proof. destruct r, c; reflexivity. Qed.

Lemma apply_sets_id sets : forall r, Recording.id (apply_sets sets r) = Recording.id r.
Proof.
  unfold apply_sets. induction sets as [|[c p] sets IH]; intro r; simpl.
  - reflexivity.
  - rewrite IH. apply set_column_id.
Qed.

Lemma apply_sets_frame c sets :
  avoids c sets = true ->
  forall r, column_value c (apply_sets sets r) = column_value c r.
Proof.
  unfold apply_sets, avoids. induction sets as [|[c' p] sets IH]; simpl; intros H r.
  - reflexivity.
  - apply andb_true_iff in H as [Hc H]. rewrite (IH H).
    apply set_column_other. intro E. subst c'.
    rewrite column_eqb_refl in Hc. discriminate Hc.
Qed.

Lemma avoids_keys {V W : Type} c (a : list (column * V)) (b : list (column * W)) :
  map fst b = map fst a -> avoids c a = true -> avoids c b = true.
Proof.
  unfold avoids. revert b.
  induction a as [|[c1 v1] a IH]; intros [|[c2 v2] b]; simpl; intros E H;
    try reflexivity; try discriminate.
  injection E as E1 E2. subst c2. apply andb_true_iff in H as [H1 H2].
  rewrite H1. simpl. apply IH; assumption.
Qed.

Lemma apply_sets_assigned c p sets :
  NoDup (map fst sets) -> In (c, p) sets ->
  forall r, column_value c (apply_sets sets r) = stored c p.
Proof.
  unfold apply_sets. induction sets as [|[c' p'] sets IH]; simpl; intros N I r.
  - contradiction.
  - inversion N as [|? ? Hnot N']; subst. destruct I as [E|I].
    + injection E as -> ->.
      change (fold_left _ sets (set_column c p r)) with (apply_sets sets (set_column c p r)).
      rewrite apply_sets_frame; [apply set_column_same|].
      unfold avoids. apply forallb_forall. intros [c1 p1] I1.
      destruct (column_eqb c c1) eqn:E; [|reflexivity].
      apply column_eqb_eq in E. subst c1. exfalso. apply Hnot.
      change c with (fst (c, p1)). apply in_map, I1.
    + apply IH; assumption.
Qed.

Lemma bind_all_keys entries : forall sets,
  bind_all entries = Ok sets -> map fst sets = map fst entries.
Proof.
  induction entries as [|[c v] rest IH]; simpl; intros sets H.
  - injection H as <-. reflexivity.
  - destruct (bindValue v); [|discriminate H].
    destruct (bind_all rest); [|discriminate H].
    injection H as <-. simpl. f_equal. apply IH. reflexivity.
Qed.

Lemma bind_all_in entries : forall sets c v,
  bind_all entries = Ok sets -> In (c, v) entries ->
  exists p, bindValue v = Ok p /\ In (c, p) sets.
Proof.
  induction entries as [|[c' v'] rest IH]; simpl; intros sets c v H I.
  - contradiction.
  - destruct (bindValue v') as [p'|] eqn:B; [|discriminate H].
    destruct (bind_all rest) as [ps|]; [|discriminate H].
    injection H as <-. destruct I as [E|I].
    + injection E as -> ->. exists p'. split; [exact B|left; reflexivity].
    + destruct (IH ps c v eq_refl I) as (p & Hp & Hin).
      exists p. split; [exact Hp|right; exact Hin].
Qed.

Lemma defined_entries_keys data :
  NoDup (map fst data) -> NoDup (map fst (defined_entries data)).
Proof.
  unfold defined_entries. induction data as [|[c v] data IH]; simpl; intro N.
  - constructor.
  - inversion N as [|? ? Hnot N']; subst. destruct (defined v); simpl.
    + constructor; [|apply IH, N']. intro I. apply Hnot.
      apply in_map_iff in I as (x & E & I). apply filter_In in I as [I _].
      rewrite <- E. apply in_map, I.
    + apply IH, N'.
Qed.

Lemma mentions_avoids c data :
  mentions c data = false -> avoids c (defined_entries data) = true.
Proof.
  unfold mentions, avoids, defined_entries.
  induction data as [|[c' v] data IH]; simpl; intro H.
  - reflexivity.
  - apply orb_false_iff in H as [H1 H2].
    destruct (defined v); simpl.
    + rewrite andb_true_r in H1. rewrite H1. simpl. apply IH, H2.
    + apply IH, H2.
Qed.

(** What a call of [updateRecording] that returns has done. *)
Lemma updateRecording_ok id data w w' :
  updateRecording id data w = (Ok tt, w') ->
  (defined_entries data = [] /\ w' = w) \/
  (exists d sets,
      db w = Some d /\
      bind_all (defined_entries data) = Ok sets /\
      w' = with_rows (updated_rows id sets (recordings d)) (recordings_seq d) d w).
Proof.
  unfold updateRecording. intro H.
  destruct (defined_entries data) as [|e es] eqn:E.
  - cbn in H. injection H as <-. left. split; reflexivity.
  - cbn -[bind_all] in H. unfold sync_bind, the_db in H.
    destruct (db w) as [d|] eqn:D; cbn -[bind_all] in H; [|discriminate H].
    destruct (bind_all (e :: es)) as [sets|err] eqn:B; cbn in H; [|discriminate H].
    injection H as <-. right. exists d, sets. repeat split; reflexivity.
Qed.

(** *** The queries, as equations *)

Lemma db_logged line w : db (logged line w) = db w.
Proof. reflexivity. Qed.

Lemma pool_logged line w : pool (logged line w) = pool w.
Proof. reflexivity. Qed.

Lemma rows_logged line w : rows (logged line w) = rows w.
Proof. reflexivity. Qed.

Lemma sync_bind_eq {A B : Type} (m : sync A) (f : A -> sync B) w :
  bind m f w = match m w with
               | (Ok a, w') => f a w'
               | (Throws e, w') => (Throws e, w')
               end.
Proof. reflexivity. Qed.

Lemma findRecordingBySessionId_eq sid w :
  findRecordingBySessionId sid w =
  (match db w with
   | Some d =>
       match bindValue sid with
       | Ok p => Ok (session_row (text_affinity p) (recordings d))
       | Throws e => Throws e
       end
   | None => Throws closed_error
   end, w).
Proof.
  unfold findRecordingBySessionId. cbn. unfold sync_bind, the_db.
  destruct (db w); [|reflexivity]. cbn. destruct (bindValue sid); reflexivity.
Qed.

Lemma findRecordingByVideoId_eq vid w :
  findRecordingByVideoId vid w =
  (match db w with
   | Some d =>
       match bindValue vid with
       | Ok p => Ok (video_row (text_affinity p) (recordings d))
       | Throws e => Throws e
       end
   | None => Throws closed_error
   end, w).
Proof.
  unfold findRecordingByVideoId. cbn. unfold sync_bind, the_db.
  destruct (db w); [|reflexivity]. cbn. destruct (bindValue vid); reflexivity.
Qed.

Lemma getRecordingById_eq id w :
  getRecordingById id w =
  (match db w with
   | Some d => Ok (getOne (filter (fun r => Recording.id r =? id) (recordings d)))
   | None => Throws closed_error
   end, w).
Proof.
  unfold getRecordingById. cbn. unfold sync_bind, the_db.
  destruct (db w); reflexivity.
Qed.

Lemma getLatestUser_eq w :
  getLatestUser w =
  (match db w with
   | Some d => Ok (latest_user (users d))
   | None => Throws closed_error
   end, w).
Proof.
  unfold getLatestUser. cbn. unfold sync_bind, the_db.
  destruct (db w); reflexivity.
Qed.

Lemma updateRecording_eq id data w :
  updateRecording id data w =
  match defined_entries data with
  | [] => (Ok tt, w)
  | _ =>
      match db w with
      | Some d =>
          match bind_all (defined_entries data) with
          | Ok sets =>
              (Ok tt, with_rows (updated_rows id sets (recordings d)) (recordings_seq d) d w)
          | Throws e => (Throws e, w)
          end
      | None => (Throws closed_error, w)
      end
  end.
Proof.
  unfold updateRecording.
  destruct (defined_entries data) as [|e es]; [reflexivity|].
  cbn -[bind_all]. unfold sync_bind, the_db.
  destruct (db w); [|reflexivity]. cbn -[bind_all].
  destruct (bind_all (e :: es)); reflexivity.
Qed.

(** Writing one status. *)
Lemma update_status_eq id s w :
  updateRecording id [(insights_status, JString s)] w =
  match db w with
  | Some d =>
      (Ok tt, with_rows (updated_rows id [(insights_status, SqlText s)] (recordings d))
                (recordings_seq d) d w)
  | None => (Throws closed_error, w)
  end.
Proof. rewrite updateRecording_eq. reflexivity. Qed.

Lemma createRecording_eq data w :
  createRecording data w =
  match db w with
  | Some d =>
      match new_row data d (clock w) with
      | Ok row =>
          (Ok (Recording.id row, data),
           with_rows (recordings d ++ [row]) (Recording.id row) d w)
      | Throws e => (Throws e, w)
      end
  | None => (Throws closed_error, w)
  end.
Proof.
  unfold createRecording, new_row. cbn. unfold sync_bind, the_db.
  destruct (db w) as [d|]; [|reflexivity]. cbn.
  repeat match goal with
  | |- context [bindValue ?v] => destruct (bindValue v); cbn; [|reflexivity]
  end.
  reflexivity.
Qed.

Lemma falsy_text v fallback p :
  truthy v = false -> bindValue (js_or v fallback) = Ok p -> bindValue fallback = Ok p.
Proof. unfold js_or. intros ->. exact (fun H => H). Qed.

(** C8. A call [updateRecording id data] that returns leaves every row in
    its place with its id; it leaves the rows with another id as they were;
    in the rows it updates, a column that is not a key of [data] with a
    defined value keeps its value, and (the keys of an object being distinct)
    a column that is such a key holds the value given for it, as a column of
    its type stores it (for a [TEXT] column, a value that is a string,
    [null] or a number of at most fifteen digits). *)
Theorem updateRecording_touches_only_given_fields id data w w' :
  updateRecording id data w = (Ok tt, w') ->
  Forall2 (fun r r' =>
             Recording.id r' = Recording.id r /\
             (Recording.id r <> id -> r' = r) /\
             (forall c, mentions c data = false ->
                        column_value c r' = column_value c r) /\
             (Recording.id r = id -> NoDup (map fst data) ->
              forall c v, In (c, v) data -> defined v = true ->
                          (c <> duration -> plain v) ->
                          exists p, bindValue v = Ok p /\
                                    column_value c r' = stored c p))
          (rows w) (rows w').
Proof.
  intro H. apply updateRecording_ok in H as [[E ->]|(d & sets & D & B & ->)].
  - induction (rows w) as [|r rs IH]; constructor; [|exact IH].
    repeat split; try reflexivity.
    intros _ _ c v I Dv _. exfalso.
    assert (In (c, v) (defined_entries data)) as I'
      by (apply filter_In; split; assumption).
    rewrite E in I'. exact I'.
  - unfold rows, with_rows, updated_rows. rewrite D. simpl.
    induction (recordings d) as [|r rs IH]; simpl; constructor; [|exact IH].
    destruct (Recording.id r =? id) eqn:E.
    + split; [apply apply_sets_id|]. split; [|split].
      * intro N. apply Z.eqb_eq in E. contradiction.
      * intros c M. apply apply_sets_frame.
        apply (avoids_keys c _ _ (bind_all_keys _ _ B)), mentions_avoids, M.
      * intros _ N c v I Dv _.
        assert (In (c, v) (defined_entries data)) as I'
          by (apply filter_In; split; assumption).
        destruct (bind_all_in _ _ _ _ B I') as (p & Hp & Hin).
        exists p. split; [exact Hp|].
        apply apply_sets_assigned; [|exact Hin].
        rewrite (bind_all_keys _ _ B). apply defined_entries_keys, N.
    + repeat split; try reflexivity.
      intro N. apply Z.eqb_neq in E. contradiction.
Qed.

Lemma created_leb_total a b : created_leb a b = true \/ created_leb b a = true.
Proof.
  destruct a as [x|], b as [y|]; simpl; auto.
  apply String.leb_total.
Qed.

Lemma insert_desc_perm r l : Permutation (insert_desc r l) (r :: l).
Proof.
  induction l as [|e l IH]; simpl.
  - reflexivity.
  - destruct (created_leb _ _).
    + reflexivity.
    + rewrite IH. apply perm_swap.
Qed.

Lemma insert_desc_hd r e l :
  newest_first e r -> HdRel newest_first e l -> HdRel newest_first e (insert_desc r l).
Proof.
  intros Her H. destruct l as [|x l]; simpl.
  - constructor. exact Her.
  - destruct (created_leb _ _); constructor.
    + exact Her.
    + inversion H. assumption.
Qed.

Lemma insert_desc_sorted r l :
  Sorted newest_first l -> Sorted newest_first (insert_desc r l).
Proof.
  induction 1 as [|e l S IH H]; simpl.
  - repeat constructor.
  - destruct (created_leb (Recording.created_at e) (Recording.created_at r)) eqn:E.
    + constructor; [constructor; assumption|]. constructor. exact E.
    + constructor; [exact IH|]. apply insert_desc_hd; [|exact H].
      unfold newest_first.
      destruct (created_leb_total (Recording.created_at e) (Recording.created_at r));
        congruence.
Qed.

Lemma order_perm l : Permutation (order_by_created_at_desc l) l.
Proof.
  induction l as [|r l IH]; simpl; [reflexivity|].
  rewrite insert_desc_perm. constructor. exact IH.
Qed.

Lemma order_sorted l : Sorted newest_first (order_by_created_at_desc l).
Proof.
  induction l as [|r l IH]; simpl; [constructor|]. apply insert_desc_sorted, IH.
Qed.

Lemma getRecordings_eq limit w :
  getRecordings limit w =
  match db w with
  | Some d =>
      match limit_value (match limit with Some n => n | None => 20 end) with
      | Ok k => (Ok (sql_limit k (order_by_created_at_desc (recordings d))), w)
      | Throws e => (Throws e, w)
      end
  | None => (Throws closed_error, w)
  end.
Proof.
  unfold getRecordings. cbn. unfold sync_bind, the_db.
  destruct (db w) as [d|]; [|reflexivity]. cbn.
  destruct (limit_value _); reflexivity.
Qed.

Lemma limit_value_taken n :
  smallest_int64 < n < largest_int64 -> limit_value n = Ok n.
Proof.
  intros [L H]. unfold limit_value.
  destruct (is_int32 n); [reflexivity|].
  apply Z.ltb_lt in L, H. rewrite L, H. reflexivity.
Qed.

Lemma limit_value_refused n :
  n <= smallest_int64 \/ largest_int64 <= n ->
  limit_value n = Throws (Exn "datatype mismatch").
Proof.
  intro H. unfold limit_value.
  assert (is_int32 n = false) as ->.
  { unfold is_int32, smallest_int64, largest_int64 in *.
    apply andb_false_iff. destruct H as [H|H]; [left|right]; apply Z.leb_gt; lia. }
  assert ((smallest_int64 <? n) && (n <? largest_int64) = false) as ->; [|reflexivity].
  apply andb_false_iff. destruct H as [H|H]; [left|right]; apply Z.ltb_ge; exact H.
Qed.

(** C9. With the database open, [getRecordings n] changes nothing.  For a
    limit [n] from 0 up to the largest 64-bit integer it returns at most [n]
    rows: the first [n] of the table put in order of [created_at], most
    recent first ([rest] being the rows left out, if any).  A limit of 2^63
    or more is refused by SQLite, and the call throws. *)
Theorem getRecordings_limit_and_order (n : Z) (w : world) (d : database) :
  db w = Some d ->
  (0 <= n < largest_int64 ->
   exists listing rest,
     getRecordings (Some n) w = (Ok listing, w) /\
     Z.of_nat (List.length listing) <= n /\
     Sorted newest_first (listing ++ rest) /\
     Permutation (listing ++ rest) (recordings d) /\
     (rest <> [] -> Z.of_nat (List.length listing) = n)) /\
  (2 ^ 63 <= n ->
   getRecordings (Some n) w = (Throws (Exn "datatype mismatch"), w)).
Proof.
  intro D. rewrite getRecordings_eq, D. split.
  - intros [Hn Hm].
    rewrite limit_value_taken by (unfold smallest_int64; lia).
    exists (firstn (Z.to_nat n) (order_by_created_at_desc (recordings d))),
           (skipn (Z.to_nat n) (order_by_created_at_desc (recordings d))).
    split.
    + unfold sql_limit. destruct (n <? 0) eqn:E; [apply Z.ltb_lt in E; lia|reflexivity].
    + rewrite firstn_skipn. repeat split.
      * rewrite length_firstn. lia.
      * apply order_sorted.
      * apply order_perm.
      * intro R. rewrite length_firstn.
        destruct (Nat.le_gt_cases (Z.to_nat n)
                    (List.length (order_by_created_at_desc (recordings d)))) as [L|L].
        -- lia.
        -- exfalso. apply R. apply skipn_all2. lia.
  - intro Hn. rewrite limit_value_refused; [reflexivity|].
    right. unfold largest_int64. lia.
Qed.

(** ** One run of the background task *)

Section Run.

Variable interference : ext_call -> world -> world.
Variable sdk : ext_call -> result jsval.

Lemma run_bind {A B : Type} (p : proc A) (f : A -> proc B) : forall w,
  run interference sdk (proc_bind p f) w =
  run_then (run interference sdk p w) (fun a => run interference sdk (f a)).
Proof.
  induction p as [a|e|id data k IH|id k IH|line k IH|c k IH]; intro w; simpl.
  - destruct (run interference sdk (f a) w) as [[r w'] t]. reflexivity.
  - reflexivity.
  - destruct (updateRecording id data w) as [r w']. rewrite IH.
    destruct (run interference sdk (k r) w') as [[[a|e] w''] t], r; simpl;
      try reflexivity;
      destruct (run interference sdk (f a) w'') as [[r' w3] t']; reflexivity.
  - destruct (getRecordingById id w) as [r w']. apply IH.
  - apply IH.
  - rewrite IH.
    destruct (run interference sdk (k (sdk c)) (interference c w)) as [[[a|e] w''] t]; simpl;
      try reflexivity;
      destruct (run interference sdk (f a) w'') as [[r' w3] t']; reflexivity.
Qed.

Lemma run_catch {A : Type} (p : proc A) (h : thrown -> proc A) : forall w,
  run interference sdk (proc_catch p h) w =
  run_else (run interference sdk p w) (fun e => run interference sdk (h e)).
Proof.
  induction p as [a|e|id data k IH|id k IH|line k IH|c k IH]; intro w; simpl.
  - reflexivity.
  - destruct (run interference sdk (h e) w) as [[r w'] t]. reflexivity.
  - destruct (updateRecording id data w) as [r w']. rewrite IH.
    destruct (run interference sdk (k r) w') as [[[a|e] w''] t], r; simpl;
      try reflexivity;
      destruct (run interference sdk (h e) w'') as [[r' w3] t']; reflexivity.
  - destruct (getRecordingById id w) as [r w']. apply IH.
  - apply IH.
  - rewrite IH.
    destruct (run interference sdk (k (sdk c)) (interference c w)) as [[[a|e] w''] t]; simpl;
      try reflexivity;
      destruct (run interference sdk (h e) w'') as [[r' w3] t']; reflexivity.
Qed.

Ltac ask c := destruct (sdk c) as [[| |?|?|]|[?|]] eqn:?; cbn.

Ltac carried HI HL H0 := repeat first [apply HL | apply HI]; exact H0.

Ltac stop cs HI HL H0 :=
  do 2 eexists; exists cs; eexists;
  split; [reflexivity|]; split; [reflexivity|]; split; [carried HI HL H0|];
  intros ? ? Habs; discriminate Habs.

(** One run of [indexVideo]: it only makes calls, in the order of [steps]
    and up to the first that fails; it hands back a transcript and a
    subtitle URL only when every call resolved and the video was found. *)
Lemma run_indexVideo (P : world -> Prop) vid key w :
  (forall c w0, P w0 -> P (interference c w0)) ->
  (forall line w0, P w0 -> P (logged line w0)) ->
  P w ->
  exists r w' cs rest,
    run interference sdk (indexVideo vid key JUndefined) w = (r, w', map Called cs) /\
    (cs ++ rest)%list = steps vid key /\
    P w' /\
    (forall t s, r = Ok (Some (t, s)) ->
       cs = steps vid key /\
       Forall (resolves sdk) (steps vid key) /\
       (exists v, sdk (getVideo vid) = Ok v /\ truthy v = true) /\
       sdk getTranscriptText = Ok t /\ sdk addSubtitle = Ok s).
Proof.
  intros HI HL H0. unfold indexVideo, steps, resolves. cbn.
  set (c1 := connect {| apiKey := key; baseUrl := None |}).
  ask c1; try solve [stop [c1] HI HL H0].
  ask getCollection; try solve [stop [c1; getCollection] HI HL H0].
  ask (getVideo vid);
    try match goal with
        | |- context [(?n =? 0)%Z] => destruct (n =? 0)%Z; cbn
        | |- context [(?s =? "")%string] => destruct (s =? "")%string; cbn
        end;
    try solve [stop [c1; getCollection; getVideo vid] HI HL H0].
  destruct (sdk indexSpokenWords) as [v4|[|]] eqn:E4; cbn;
    try solve [stop [c1; getCollection; getVideo vid; indexSpokenWords] HI HL H0].
  destruct (sdk getTranscriptText) as [v5|[|]] eqn:E5; cbn;
    try solve [stop [c1; getCollection; getVideo vid; indexSpokenWords; getTranscriptText]
                    HI HL H0].
  destruct (sdk addSubtitle) as [v6|[|]] eqn:E6; cbn;
    try solve [stop [c1; getCollection; getVideo vid; indexSpokenWords;
                     getTranscriptText; addSubtitle] HI HL H0].
  do 2 eexists. exists (steps vid key), []. split; [reflexivity|]. split; [reflexivity|].
  split; [carried HI HL H0|].
  intros t s H. injection H as <- <-. split; [reflexivity|]. split.
  - repeat (apply Forall_cons; [cbv beta; eexists; eassumption|]). apply Forall_nil.
  - split; [eexists; split; reflexivity|]. split; reflexivity.
Qed.

Lemma run_write id data w :
  run interference sdk (Store_update id data settle) w =
  match updateRecording id data w with
  | (Ok a, w') => (Ok a, w', [Wrote id data])
  | (Throws e, w') => (Throws e, w', [])
  end.
Proof.
  simpl. destruct (updateRecording id data w) as [[a|e] w']; reflexivity.
Qed.

Lemma run_log {B : Type} line (f : unit -> proc B) w :
  run interference sdk (proc_bind (proc_log line) f) w =
  run interference sdk (f tt) (logged line w).
Proof. reflexivity. Qed.

Lemma run_log_end line w :
  run interference sdk (proc_log line) w = (Ok tt, logged line w, []).
Proof. reflexivity. Qed.

Lemma run_on_error rid e w :
  run interference sdk (on_error rid e) w =
  match db w with
  | Some d =>
      (Ok tt,
       with_rows (updated_rows rid [(insights_status, SqlText "failed")] (recordings d))
         (recordings_seq d) d (logged "[Index BG] Error processing:" w),
       [Wrote rid [(insights_status, JString "failed")]])
  | None => (Ok tt, logged "[Index BG] Error processing:" w, [])
  end.
Proof.
  unfold on_error. cbn [try_catch bind ret throw proc_monad].
  rewrite run_log, run_catch, run_write, update_status_eq, db_logged.
  destruct (db w); reflexivity.
Qed.

Lemma run_store_none rid vid w :
  run interference sdk (store_result rid vid None) w =
  match db w with
  | Some d =>
      (Ok tt,
       logged ("[Index BG] Failed to index video " ++ to_string vid)
         (with_rows (updated_rows rid [(insights_status, SqlText "failed")] (recordings d))
            (recordings_seq d) d w),
       [Wrote rid [(insights_status, JString "failed")]])
  | None => (Throws closed_error, w, [])
  end.
Proof.
  unfold store_result. cbn [try_catch bind ret throw proc_monad].
  rewrite run_bind, run_write, update_status_eq.
  destruct (db w); reflexivity.
Qed.

Lemma ready_entries t (urls : updates) :
  exists e es,
    defined_entries ([(insights_status, JString "ready")] ++
                     (if truthy t then [(insights, JString (JSON_stringify t))] else []) ++ urls)%list
    = e :: es.
Proof. do 2 eexists. reflexivity. Qed.

Lemma ready_status t s (recording : option Recording.t) (urls : updates) :
  urls = [] \/ (truthy s = true /\
               urls = [(stream_url, s); (player_url, rewritten_player_url recording s)]) ->
  status_of ([(insights_status, JString "ready")] ++
             (if truthy t then [(insights, JString (JSON_stringify t))] else []) ++ urls)%list
  = Some (JString "ready").
Proof.
  intros [->|[Ts ->]]; unfold status_of; simpl; destruct (truthy t); simpl; try reflexivity;
    destruct s; try discriminate Ts; reflexivity.
Qed.

Lemma run_ready_update rid vid (data : updates) w e0 es :
  defined_entries data = e0 :: es ->
  run interference sdk
    (proc_bind (Store_update rid data settle)
       (fun _ => proc_log ("[Index BG] Indexed video " ++ to_string vid ++ " successfully"))) w =
  match db w with
  | Some d =>
      match bind_all (defined_entries data) with
      | Ok sets =>
          (Ok tt,
           logged ("[Index BG] Indexed video " ++ to_string vid ++ " successfully")
             (with_rows (updated_rows rid sets (recordings d)) (recordings_seq d) d w),
           [Wrote rid data])
      | Throws e => (Throws e, w, [])
      end
  | None => (Throws closed_error, w, [])
  end.
Proof.
  intro E. rewrite run_bind, run_write, updateRecording_eq.
  destruct (defined_entries data) eqn:E'; [discriminate E|].
  destruct (db w); [|reflexivity]. rewrite <- E'.
  destruct (bind_all (defined_entries data)); reflexivity.
Qed.

Lemma run_store_some rid vid t s w r w' tr :
  run interference sdk (store_result rid vid (Some (t, s))) w = (r, w', tr) ->
  (exists data d sets,
      db w = Some d /\
      bind_all (defined_entries data) = Ok sets /\
      status_of data = Some (JString "ready") /\
      r = Ok tt /\
      w' = logged ("[Index BG] Indexed video " ++ to_string vid ++ " successfully")
             (with_rows (updated_rows rid sets (recordings d)) (recordings_seq d) d w) /\
      tr = [Wrote rid data]) \/
  (exists e, r = Throws e /\ w' = w /\ tr = []).
Proof.
  unfold store_result. cbn [try_catch bind ret throw proc_monad].
  rewrite run_bind. intro H.
  destruct (truthy s) eqn:Ts.
  - rewrite run_bind in H. simpl run at 1 in H. rewrite getRecordingById_eq in H.
    destruct (db w) as [d|] eqn:D.
    + cbn [run_then settle run app] in H.
      match type of H with context [Store_update rid ?x] => set (data := x) in * end.
      destruct (ready_entries t [(stream_url, s); (player_url, rewritten_player_url (getOne
                      (filter (fun r : Recording.t => Recording.id r =? rid)
                         (recordings d))) s)]) as (e0 & es & E).
      rewrite (run_ready_update rid vid data w e0 es E), D in H.
      destruct (bind_all (defined_entries data)) as [sets|e] eqn:B.
      * injection H as <- <- <-. left. exists data, d, sets. repeat split; try assumption.
        unfold data. eapply ready_status. right. split; [exact Ts|reflexivity].
      * injection H as <- <- <-. right. exists e. repeat split.
    + cbn [run_then settle run app] in H. injection H as <- <- <-.
      right. eexists. repeat split.
  - cbn [run run_then app] in H.
    match type of H with context [Store_update rid ?x] => set (data := x) in * end.
    destruct (ready_entries t []) as (e0 & es & E).
    rewrite (run_ready_update rid vid data w e0 es E) in H.
    destruct (db w) as [d|] eqn:D.
    + destruct (bind_all (defined_entries data)) as [sets|e] eqn:B.
      * injection H as <- <- <-. left. exists data, d, sets. repeat split; try assumption.
        unfold data. apply (ready_status t s None). left. reflexivity.
      * injection H as <- <- <-. right. exists e. repeat split.
    + injection H as <- <- <-. right. eexists. repeat split.
Qed.

Lemma updated_rows_status id s rs r :
  In r (updated_rows id [(insights_status, SqlText s)] rs) ->
  Recording.id r = id -> Recording.insights_status r = Some s.
Proof.
  unfold updated_rows. intros I E. apply in_map_iff in I as (r0 & <- & _).
  destruct (Recording.id r0 =? id) eqn:T.
  - destruct r0. reflexivity.
  - apply Z.eqb_neq in T. contradiction.
Qed.

Lemma has_status_written id s d w :
  has_status id s
    (with_rows (updated_rows id [(insights_status, SqlText s)] (recordings d))
       (recordings_seq d) d w).
Proof. intros r I E. exact (updated_rows_status id s _ r I E). Qed.

Lemma run_processIndexingBackground rid vid key w :
  exists w' t,
    run interference sdk (processIndexingBackground rid vid key) w = (Ok tt, w', t) /\
    ((db w = None /\ db w' = None /\ t = []) \/
     (exists cs rest tail,
        t = (Wrote rid [(insights_status, JString "processing")] :: map Called cs ++ tail)%list /\
        (cs ++ rest)%list = steps vid key /\
        ((tail = [] /\ db w' = None) \/
         (tail = [Wrote rid [(insights_status, JString "failed")]] /\
          has_status rid "failed" w') \/
         (exists data,
             tail = [Wrote rid data] /\ status_of data = Some (JString "ready") /\
             cs = steps vid key /\ Forall (resolves sdk) (steps vid key) /\
             exists v, sdk (getVideo vid) = Ok v /\ truthy v = true)))).
Proof.
  unfold processIndexingBackground. cbn [try_catch bind ret throw proc_monad].
  rewrite run_catch, run_bind, run_write, update_status_eq.
  destruct (db w) as [d|] eqn:D.
  - cbn [run_then]. rewrite run_log, run_bind.
    match goal with |- context [run _ _ (indexVideo _ _ _) ?x] => set (w1 := x) end.
    destruct (run_indexVideo (fun _ => True) vid key w1) as (ri & w3 & cs & rest & R & Pf & _ & S);
      auto.
    rewrite R. cbn [run_then].
    destruct ri as [[[t s]|]|e].
    + destruct (run interference sdk (store_result rid vid (Some (t, s))) w3)
        as [[r w4] tr] eqn:F.
      destruct (run_store_some _ _ _ _ _ _ _ _ F)
        as [(data & d3 & sets & D3 & B & St & -> & -> & ->)|(e & -> & -> & ->)].
      * cbn [run_else app]. do 2 eexists. split; [reflexivity|]. right.
        exists cs, rest, [Wrote rid data]. split; [reflexivity|]. split; [exact Pf|].
        right. right. exists data. destruct (S t s eq_refl) as (Hc & Hf & Hv & _).
        repeat split; assumption.
      * cbn [run_else app]. rewrite run_on_error.
        destruct (db w3) as [d3|] eqn:D3.
        -- do 2 eexists. split; [reflexivity|]. right.
           exists cs, rest, [Wrote rid [(insights_status, JString "failed")]].
           split; [rewrite app_nil_r; reflexivity|]. split; [exact Pf|].
           right. left. split; [reflexivity|]. apply has_status_written.
        -- do 2 eexists. split; [reflexivity|]. right.
           exists cs, rest, []. split; [rewrite !app_nil_r; reflexivity|].
           split; [exact Pf|]. left. split; [reflexivity|].
           rewrite db_logged. exact D3.
    + rewrite run_store_none. destruct (db w3) as [d3|] eqn:D3.
      * cbn [run_else app]. do 2 eexists. split; [reflexivity|]. right.
        exists cs, rest, [Wrote rid [(insights_status, JString "failed")]].
        split; [reflexivity|]. split; [exact Pf|].
        right. left. split; [reflexivity|].
        intros r I E. rewrite rows_logged in I. exact (has_status_written rid _ d3 w3 r I E).
      * cbn [run_else app]. rewrite run_on_error, D3.
        do 2 eexists. split; [reflexivity|]. right.
        exists cs, rest, []. split; [rewrite !app_nil_r; reflexivity|].
        split; [exact Pf|]. left. split; [reflexivity|].
        rewrite db_logged. exact D3.
    + cbn [run_else app]. rewrite run_on_error.
      destruct (db w3) as [d3|] eqn:D3.
      * do 2 eexists. split; [reflexivity|]. right.
        exists cs, rest, [Wrote rid [(insights_status, JString "failed")]].
        split; [reflexivity|]. split; [exact Pf|].
        right. left. split; [reflexivity|]. apply has_status_written.
      * do 2 eexists. split; [reflexivity|]. right.
        exists cs, rest, []. split; [rewrite !app_nil_r; reflexivity|].
        split; [exact Pf|]. left. split; [reflexivity|].
        rewrite db_logged. exact D3.
  - cbn [run_then run_else app]. rewrite run_on_error, D.
    do 2 eexists. split; [reflexivity|]. left.
    split; [reflexivity|]. split; [rewrite db_logged; exact D|reflexivity].
Qed.
Lemma calls_made_app t t' : calls_made (t ++ t') = (calls_made t ++ calls_made t')%list.
Proof.
  induction t as [|[id data|c] t IH]; simpl; [reflexivity|exact IH|].
  rewrite IH. reflexivity.
Qed.

Lemma calls_made_calls cs : calls_made (map Called cs) = cs.
Proof. induction cs as [|c cs IH]; simpl; [reflexivity|]. rewrite IH. reflexivity. Qed.

Lemma statuses_written_calls id cs t :
  statuses_written id (map Called cs ++ t) = statuses_written id t.
Proof. induction cs as [|c cs IH]; simpl; [reflexivity|exact IH]. Qed.

(** C5. Take any run of the background task, whatever the rest of the
    program does to the state while the task waits.  If the lookup of the
    video resolves to nothing, or if some call to the SDK raises, then the
    task returns normally to its caller (nothing is thrown, even when the
    database has been closed and the write of ['failed'] itself throws); it
    made each call at most once, in the order of [steps]; it never wrote
    ['ready']; and, unless the database is closed by then, the rows with its
    id end with status ['failed']. *)
Theorem failed_indexing_ends_failed_without_throwing rid vid key w :
  lookup_fails sdk vid \/ step_raises sdk vid key ->
  exists w' t,
    run interference sdk (processIndexingBackground rid vid key) w = (Ok tt, w', t) /\
    (exists rest, (calls_made t ++ rest)%list = steps vid key) /\
    ~ In (JString "ready") (statuses_written rid t) /\
    (db w' <> None -> has_status rid "failed" w').
Proof.
  intro F.
  destruct (run_processIndexingBackground rid vid key w)
    as (w' & t & R & [(D & D' & ->)|(cs & rest & tail & -> & P & T)]).
  - exists w', []. split; [exact R|]. split; [|split].
    + exists (steps vid key). reflexivity.
    + intros [].
    + intro N. contradiction.
  - exists w'. eexists. split; [exact R|].
    assert (Forall (resolves sdk) (steps vid key) ->
            (exists v, sdk (getVideo vid) = Ok v /\ truthy v = true) -> False)
      as Absurd.
    { intros Hf (v & Hv & Tv). destruct F as [(v' & Hv' & Fv)|(c & e & I & E)].
      - rewrite Hv in Hv'. injection Hv' as <-. rewrite Tv in Fv. discriminate Fv.
      - rewrite Forall_forall in Hf. destruct (Hf c I) as (x & Hx).
        rewrite E in Hx. discriminate Hx. }
    cbn [calls_made statuses_written status_of filter column_eqb defined andb last snd].
    rewrite Z.eqb_refl, calls_made_app, calls_made_calls, statuses_written_calls.
    destruct T as [(-> & D')|[(-> & S)|(data & -> & St & Hc & Hf & Hv)]].
    + split; [|split].
      * exists rest. rewrite app_nil_r. exact P.
      * simpl. intros [E|[]]. discriminate E.
      * intro N. contradiction.
    + split; [|split].
      * exists rest. rewrite app_nil_r. exact P.
      * simpl. rewrite Z.eqb_refl. simpl. intros [E|[E|[]]]; discriminate E.
      * intros _. exact S.
    + exfalso. exact (Absurd Hf Hv).
Qed.


(** The first turn of the background task. *)
Lemma start_open rid vid key w d :
  db w = Some d ->
  exists k,
    advance (processIndexingBackground rid vid key) w =
    (External (connect {| apiKey := key; baseUrl := None |}) k,
     logged ("[Index BG] Starting indexing for recording " ++ number_text rid)
       (with_rows (updated_rows rid [(insights_status, SqlText "processing")] (recordings d))
          (recordings_seq d) d w)).
Proof.
  intro D. eexists. unfold processIndexingBackground, indexVideo. cbn.
  rewrite update_status_eq, D. cbn. reflexivity.
Qed.

Lemma start_closed rid vid key w :
  db w = None ->
  advance (processIndexingBackground rid vid key) w =
  (Return tt, logged "[Index BG] Error processing:" w).
Proof.
  intro D. unfold processIndexingBackground, indexVideo, on_error. cbn.
  rewrite update_status_eq, D. cbn.
  rewrite update_status_eq, db_logged, D. reflexivity.
Qed.

(** In any run of the background task, a call to the SDK is only ever
    made after ['processing'] was written: the trace of a run that makes a
    call starts with that write.  When the task, in its first turn, reaches
    its first call, the rows with its id have status ['processing']; and
    with the database open it does reach that call. *)
Lemma processing_written_first rid vid key w r w' t :
  run interference sdk (processIndexingBackground rid vid key) w = (r, w', t) ->
  (forall c, In (Called c) t ->
             exists t', t = Wrote rid [(insights_status, JString "processing")] :: t') /\
  (forall c k w1,
      advance (processIndexingBackground rid vid key) w = (External c k, w1) ->
      has_status rid "processing" w1 /\ db w1 <> None) /\
  (db w <> None ->
   exists k w1,
     advance (processIndexingBackground rid vid key) w =
     (External (connect {| apiKey := key; baseUrl := None |}) k, w1)).
Proof.
  intro R.
  destruct (run_processIndexingBackground rid vid key w)
    as (w0 & t0 & R0 & Shape).
  rewrite R in R0. injection R0 as -> -> ->.
  split; [|split].
  - intros c I. destruct Shape as [(_ & _ & ->)|(cs & rest & tail & -> & _)].
    + destruct I.
    + eexists. reflexivity.
  - intros c k w1 A. destruct (db w) as [d|] eqn:D.
    + destruct (start_open rid vid key w d D) as (k' & A').
      rewrite A in A'. injection A' as _ _ ->. split.
      * intros x I E. rewrite rows_logged in I. exact (has_status_written rid _ d w x I E).
      * rewrite db_logged. discriminate.
    + rewrite (start_closed rid vid key w D) in A. discriminate A.
  - intro N. destruct (db w) as [d|] eqn:D; [|contradiction].
    destruct (start_open rid vid key w d D) as (k & A). eauto.
Qed.

Lemma run_indexVideo_success (P : world -> Prop) vid key w t s v4 :
  (forall c w0, P w0 -> P (interference c w0)) ->
  (forall line w0, P w0 -> P (logged line w0)) ->
  P w ->
  sdk (connect {| apiKey := key; baseUrl := None |}) = Ok JObject ->
  sdk getCollection = Ok JObject ->
  sdk (getVideo vid) = Ok JObject ->
  sdk indexSpokenWords = Ok v4 ->
  sdk getTranscriptText = Ok t ->
  sdk addSubtitle = Ok s ->
  exists w',
    run interference sdk (indexVideo vid key JUndefined) w
    = (Ok (Some (t, s)), w', map Called (steps vid key)) /\ P w'.
Proof.
  intros HI HL H0 E1 E2 E3 E4 E5 E6. unfold indexVideo, steps. cbn.
  rewrite E1. cbn. rewrite E2. cbn. rewrite E3. cbn. rewrite E4. cbn.
  rewrite E5. cbn. rewrite E6. cbn.
  eexists. split; [reflexivity|]. carried HI HL H0.
Qed.

Lemma row_by_id_updated id sets rs :
  row_by_id id (updated_rows id sets rs) = option_map (apply_sets sets) (row_by_id id rs).
Proof.
  unfold row_by_id, updated_rows, getOne.
  induction rs as [|r rs IH]; simpl; [reflexivity|].
  destruct (Recording.id r =? id) eqn:E; simpl.
  - rewrite apply_sets_id, E. reflexivity.
  - rewrite E. exact IH.
Qed.

Lemma rewritten_player_url_string r s :
  rewritten_player_url (Some r) (JString s) = JString (new_player_url (Recording.player_url r) s).
Proof.
  unfold rewritten_player_url, new_player_url.
  destruct (Recording.player_url r) as [p|]; [|reflexivity].
  destruct (text_truthy (Some p) && includes "url=" p); reflexivity.
Qed.

(** The last turn of a successful indexing with a subtitle URL. *)
Lemma run_store_success rid vid t s w d r1 :
  db w = Some d -> row_by_id rid (recordings d) = Some r1 -> s <> "" ->
  exists data sets,
    run interference sdk (store_result rid vid (Some (t, JString s))) w =
    (Ok tt,
     logged ("[Index BG] Indexed video " ++ to_string vid ++ " successfully")
       (with_rows (updated_rows rid sets (recordings d)) (recordings_seq d) d w),
     [Wrote rid data]) /\
    NoDup (map fst sets) /\
    In (insights_status, SqlText "ready") sets /\
    In (stream_url, SqlText s) sets /\
    In (player_url, SqlText (new_player_url (Recording.player_url r1) s)) sets.
Proof.
  intros D R N.
  assert (truthy (JString s) = true) as Ts.
  { simpl. destruct (s =? "")%string eqn:E; [|reflexivity].
    apply String.eqb_eq in E. contradiction. }
  unfold store_result. cbn [try_catch bind ret throw proc_monad].
  rewrite Ts, run_bind, run_bind. simpl run at 1.
  rewrite getRecordingById_eq, D. cbn [run_then settle run app].
  fold (row_by_id rid (recordings d)). rewrite R, rewritten_player_url_string.
  match goal with |- context [Store_update rid ?x] => set (data := x) end.
  destruct (ready_entries t [(stream_url, JString s);
              (player_url, JString (new_player_url (Recording.player_url r1) s))])
    as (e0 & es & E).
  rewrite (run_ready_update rid vid data w e0 es E), D.
  unfold data. destruct (truthy t); simpl.
  - do 2 eexists. split; [reflexivity|]. split.
    + repeat constructor; simpl; intuition discriminate.
    + simpl. tauto.
  - do 2 eexists. split; [reflexivity|]. split.
    + repeat constructor; simpl; intuition discriminate.
    + simpl. tauto.
Qed.

Lemma updated_rows_assigned id sets rs c p r :
  NoDup (map fst sets) -> In (c, p) sets ->
  In r (updated_rows id sets rs) -> Recording.id r = id ->
  column_value c r = stored c p.
Proof.
  unfold updated_rows. intros N I Hr E. apply in_map_iff in Hr as (r0 & <- & _).
  destruct (Recording.id r0 =? id) eqn:T.
  - apply apply_sets_assigned; assumption.
  - apply Z.eqb_neq in T. contradiction.
Qed.

Lemma cell_of_text_some t s : cell_of_text t = CellText s -> t = Some s.
Proof. destruct t; simpl; intro H; [injection H as ->; reflexivity|discriminate H]. Qed.

Lemma row_by_id_in id rs r : row_by_id id rs = Some r -> In r rs /\ Recording.id r = id.
Proof.
  unfold row_by_id, getOne. intro H.
  assert (In r (filter (fun x => Recording.id x =? id) rs)) as I.
  { destruct (filter _ rs) as [|x xs]; [discriminate H|].
    injection H as ->. left. reflexivity. }
  apply filter_In in I as [I E]. split; [exact I|]. apply Z.eqb_eq, E.
Qed.

Lemma updated_rows_in id sets rs r :
  In r rs -> Recording.id r = id ->
  exists r', In r' (updated_rows id sets rs) /\ Recording.id r' = id.
Proof.
  intros I E. exists (apply_sets sets r). split.
  - unfold updated_rows. apply in_map_iff. exists r. split; [|exact I].
    apply Z.eqb_eq in E. rewrite E. reflexivity.
  - rewrite apply_sets_id. exact E.
Qed.

(** The state at the end of a successful indexing, when nothing else wrote
    to the database meanwhile. *)
Lemma run_success rid vid key w d r0 t s :
  (forall c w0, db (interference c w0) = db w0) ->
  db w = Some d -> row_by_id rid (recordings d) = Some r0 -> s <> "" ->
  indexing_succeeds sdk vid key t s ->
  exists w' tr,
    run interference sdk (processIndexingBackground rid vid key) w = (Ok tt, w', tr) /\
    (exists r, In r (rows w') /\ Recording.id r = rid) /\
    has_status rid "ready" w' /\
    has_stream_url rid s w' /\
    has_player_url rid (new_player_url (Recording.player_url r0) s) w'.
Proof.
  intros Q D R N (E1 & E2 & E3 & (v4 & E4) & E5 & E6).
  unfold processIndexingBackground. cbn [try_catch bind ret throw proc_monad].
  rewrite run_catch, run_bind, run_write, update_status_eq, D.
  cbn [run_then]. rewrite run_log, run_bind.
  set (rows1 := updated_rows rid [(insights_status, SqlText "processing")] (recordings d)).
  set (d1 := {| users := users d; recordings := rows1; recordings_seq := recordings_seq d |}).
  match goal with |- context [run _ _ (indexVideo _ _ _) ?x] => set (w1 := x) end.
  destruct (run_indexVideo_success (fun x => db x = Some d1) vid key w1 t (JString s) v4)
    as (w3 & I & D3); try assumption.
  { intros c w0 H. rewrite Q. exact H. }
  { intros line w0 H. rewrite db_logged. exact H. }
  { reflexivity. }
  rewrite I. cbn [run_then].
  assert (row_by_id rid (recordings d1) =
          Some (apply_sets [(insights_status, SqlText "processing")] r0)) as R1.
  { unfold d1, rows1. cbn [recordings]. rewrite row_by_id_updated, R. reflexivity. }
  destruct (run_store_success rid vid t s w3 d1 _ D3 R1 N)
    as (data & sets & S & Nd & Ist & Isu & Ipu).
  rewrite S. cbn [run_else app].
  do 2 eexists. split; [reflexivity|].
  rewrite rows_logged. unfold has_status, has_stream_url, has_player_url.
  rewrite rows_logged. cbn [rows with_rows db recordings].
  split; [|split; [|split]].
  - destruct (row_by_id_in _ _ _ R1) as [I1 E1']. exact (updated_rows_in rid sets _ _ I1 E1').
  - intros r Hr E. apply cell_of_text_some.
    exact (updated_rows_assigned rid sets _ insights_status _ r Nd Ist Hr E).
  - intros r Hr E. apply cell_of_text_some.
    exact (updated_rows_assigned rid sets _ stream_url _ r Nd Isu Hr E).
  - intros r Hr E. apply cell_of_text_some.
    replace (Recording.player_url r0)
      with (Recording.player_url (apply_sets [(insights_status, SqlText "processing")] r0))
      by (destruct r0; reflexivity).
    exact (updated_rows_assigned rid sets _ player_url _ r Nd Ipu Hr E).
Qed.

(** C4. Take a run of the background task in which every call resolves,
    with subtitle URL [s], nothing else writing to the database meanwhile;
    [r0] is the row of the task when it starts.  The row ends ['ready'] with
    [s] as stream URL.  If its player URL was [before ++ "url=" ++ v ++ rest],
    where this is the first [url=] of the text and [v] its value up to the
    next [&] (and [s] has no [$], which [replace] would interpret), the
    stored player URL becomes [before ++ "url=" ++ s ++ rest]: only the
    value of the parameter is substituted.  If its player URL had no
    [url=], or was NULL, the stored player URL becomes [s] itself. *)
Theorem player_url_gets_the_subtitle_url rid vid key w d r0 t s :
  (forall c w0, db (interference c w0) = db w0) ->
  db w = Some d -> row_by_id rid (recordings d) = Some r0 -> s <> "" ->
  indexing_succeeds sdk vid key t s ->
  exists w' tr,
    run interference sdk (processIndexingBackground rid vid key) w = (Ok tt, w', tr) /\
    (exists r, In r (rows w') /\ Recording.id r = rid) /\
    has_status rid "ready" w' /\
    has_stream_url rid s w' /\
    (forall before v rest,
        Recording.player_url r0 = Some (before ++ "url=" ++ v ++ rest)%string ->
        includes "url=" (before ++ "url") = false ->
        v <> "" -> includes "&" v = false ->
        (rest = "" \/ exists q, rest = String "&" q) ->
        includes "$" s = false ->
        has_player_url rid (before ++ "url=" ++ s ++ rest) w') /\
    (forall p, Recording.player_url r0 = Some p -> includes "url=" p = false ->
               has_player_url rid s w') /\
    (Recording.player_url r0 = None -> has_player_url rid s w').
Proof.
  intros Q D R N Success.
  destruct (run_success rid vid key w d r0 t s Q D R N Success)
    as (w' & tr & Run & Ex & St & Su & Pu).
  exists w', tr. split; [exact Run|]. split; [exact Ex|]. split; [exact St|].
  split; [exact Su|]. split; [|split].
  - intros before v rest P Hb Hv Ha Hr Hs. rewrite P in Pu.
    unfold new_player_url in Pu.
    rewrite (includes_app "url=" before (v ++ rest)) in Pu.
    rewrite (includes_nonempty "url=" _ ltac:(discriminate)
               (includes_app "url=" before (v ++ rest))) in Pu.
    cbn [andb] in Pu.
    rewrite (replace_url_param_value before v rest s Hb Hv Ha Hr Hs) in Pu.
    exact Pu.
  - intros p P Hp. rewrite P in Pu. unfold new_player_url in Pu.
    rewrite Hp, andb_false_r in Pu. exact Pu.
  - intros P. rewrite P in Pu. exact Pu.
Qed.

End Run.

(** ** The webhook handler *)

Lemma spawn_open rid vid key w d :
  db w = Some d ->
  exists k,
    spawn (processIndexingBackground rid vid key) w =
    (Ok tt, begun rid (External (connect {| apiKey := key; baseUrl := None |}) k) d w).
Proof.
  intro D. destruct (start_open rid vid key w d D) as (k & A).
  exists k. unfold spawn. rewrite A. reflexivity.
Qed.

Lemma schedule_indexing_open vid pv w d :
  db w = Some d -> bindValue vid = Ok pv ->
  schedule_indexing vid w =
  match latest_user (users d), video_row (text_affinity pv) (recordings d) with
  | Some u, Some r =>
      match User.api_key u with
      | Some k =>
          if text_truthy (Some k)
          then spawn (processIndexingBackground (Recording.id r) vid k) w
          else (Ok tt, w)
      | None => (Ok tt, w)
      end
  | _, _ => (Ok tt, w)
  end.
Proof.
  intros D B. unfold schedule_indexing.
  rewrite sync_bind_eq, findRecordingByVideoId_eq, D, B.
  rewrite sync_bind_eq, getLatestUser_eq, D.
  destruct (latest_user (users d)) as [u|]; [|reflexivity].
  destruct (video_row (text_affinity pv) (recordings d)) as [r|]; [|reflexivity].
  destruct (User.api_key u) as [k|]; [destruct (text_truthy (Some k))|]; reflexivity.
Qed.

(** What scheduling does to an open database: nothing, or the first turn
    of a task on the row found by video id. *)
Lemma schedule_indexing_effect vid pv w d :
  db w = Some d -> bindValue vid = Ok pv ->
  schedule_indexing vid w = (Ok tt, w) \/
  exists r key k,
    video_row (text_affinity pv) (recordings d) = Some r /\
    schedule_indexing vid w =
    (Ok tt, begun (Recording.id r)
              (External (connect {| apiKey := key; baseUrl := None |}) k) d w).
Proof.
  intros D B. rewrite (schedule_indexing_open vid pv w d D B).
  destruct (latest_user (users d)) as [u|]; [|left; reflexivity].
  destruct (video_row (text_affinity pv) (recordings d)) as [r|]; [|left; reflexivity].
  destruct (User.api_key u) as [key|]; [|left; reflexivity].
  destruct (text_truthy (Some key)); [|left; reflexivity].
  destruct (spawn_open (Recording.id r) vid key w d D) as (k & E).
  right. exists r, key, k. split; [reflexivity|exact E].
Qed.

Lemma webhook_exported_body b w :
  Body.event b = JString "capture_session.exported" ->
  webhook (Some b) w =
  conclude (exported_event (data_field Data.exported_video_id (Body.data b))
              (data_field Data.stream_url (Body.data b))
              (data_field Data.player_url (Body.data b))
              (Body.capture_session_id b)
              (logged "[Webhook] Event: capture_session.exported" w)).
Proof.
  intro E. unfold webhook, handle, conclude. rewrite E. cbn.
  unfold sync_catch, sync_bind. cbn.
  match goal with
  | |- context [exported_event ?a ?b ?c ?d ?x] =>
      change x with (logged "[Webhook] Event: capture_session.exported" w);
      destruct (exported_event a b c d (logged "[Webhook] Event: capture_session.exported" w))
        as [[r|e] w']
  end; reflexivity.
Qed.

Lemma webhook_exported sid vid su pu w :
  webhook (exported sid vid su pu) w =
  conclude (exported_event vid su pu sid
              (logged "[Webhook] Event: capture_session.exported" w)).
Proof. apply (webhook_exported_body (Body.mk _ sid (Some (Data.mk vid su pu)))). reflexivity. Qed.

Lemma exported_no_video vid su pu sid w :
  truthy vid = false ->
  exported_event vid su pu sid w =
  (Ok ok_received, logged "[Webhook] No video_id in exported event" w).
Proof. intro F. unfold exported_event. rewrite F. reflexivity. Qed.

Lemma exported_duplicate vid su pu sid w d ps pv r :
  db w = Some d -> truthy vid = true ->
  bindValue sid = Ok ps -> bindValue vid = Ok pv ->
  session_row (text_affinity ps) (recordings d) = None ->
  video_row (text_affinity pv) (recordings d) = Some r ->
  exported_event vid su pu sid w =
  (Ok ok_received, logged ("[Webhook] Recording already exists: " ++ to_string vid) w).
Proof.
  intros D T Bs Bv S V. unfold exported_event. rewrite T.
  rewrite sync_bind_eq, findRecordingBySessionId_eq, D, Bs, S.
  rewrite sync_bind_eq, findRecordingByVideoId_eq, D, Bv, V.
  reflexivity.
Qed.

Lemma exported_update vid su pu sid w d ps r sets :
  db w = Some d -> truthy vid = true ->
  bindValue sid = Ok ps ->
  session_row (text_affinity ps) (recordings d) = Some r ->
  bind_all (defined_entries (redelivery vid su pu)) = Ok sets ->
  exported_event vid su pu sid w =
  match schedule_indexing vid
          (logged ("[Webhook] Updated recording: " ++ to_string vid)
             (with_rows (updated_rows (Recording.id r) sets (recordings d))
                (recordings_seq d) d w))
  with
  | (Ok _, w') => (Ok ok_received, w')
  | (Throws e, w') => (Throws e, w')
  end.
Proof.
  intros D T Bs S B. unfold exported_event. rewrite T.
  rewrite sync_bind_eq, findRecordingBySessionId_eq, D, Bs, S.
  rewrite sync_bind_eq. fold (redelivery vid su pu).
  rewrite updateRecording_eq, D, B.
  destruct (defined_entries (redelivery vid su pu)) as [|e es] eqn:E.
  { unfold redelivery, defined_entries in E. simpl in E.
    destruct (defined vid), (defined su), (defined pu); discriminate E. }
  reflexivity.
Qed.

Lemma exported_create vid su pu sid w d ps pv row :
  db w = Some d -> truthy vid = true ->
  bindValue sid = Ok ps -> bindValue vid = Ok pv ->
  session_row (text_affinity ps) (recordings d) = None ->
  video_row (text_affinity pv) (recordings d) = None ->
  new_row (first_delivery vid su pu sid) d (clock w) = Ok row ->
  exported_event vid su pu sid w =
  match schedule_indexing vid
          (logged ("[Webhook] Created recording: " ++ to_string vid)
             (with_rows (recordings d ++ [row]) (Recording.id row) d w))
  with
  | (Ok _, w') => (Ok ok_received, w')
  | (Throws e, w') => (Throws e, w')
  end.
Proof.
  intros D T Bs Bv S V N. unfold exported_event. rewrite T.
  rewrite sync_bind_eq, findRecordingBySessionId_eq, D, Bs, S.
  rewrite sync_bind_eq, findRecordingByVideoId_eq, D, Bv, V.
  rewrite sync_bind_eq. fold (first_delivery vid su pu sid).
  rewrite createRecording_eq, D, N.
  reflexivity.
Qed.

Lemma rows_begun id p d w :
  rows (begun id p d w) =
  updated_rows id [(insights_status, SqlText "processing")] (recordings d).
Proof. unfold begun, enqueue. destruct p; reflexivity. Qed.

Lemma db_begun id p d w : db (begun id p d w) <> None.
Proof. unfold begun, enqueue. destruct p; discriminate. Qed.

Lemma updated_rows_app id sets rs rs' :
  updated_rows id sets (rs ++ rs') = (updated_rows id sets rs ++ updated_rows id sets rs')%list.
Proof. apply map_app. Qed.

Lemma updated_rows_length id sets rs :
  List.length (updated_rows id sets rs) = List.length rs.
Proof. apply length_map. Qed.

(** C7. A [capture_session.exported] delivery whose [exported_video_id] is
    absent (or falsy in any other way) is answered with the 200
    acknowledgment; the database, the waiting tasks and the clock are as
    before, only two lines were logged. *)
Theorem exported_without_video_id_changes_nothing b w :
  Body.event b = JString "capture_session.exported" ->
  truthy (data_field Data.exported_video_id (Body.data b)) = false ->
  exists w',
    webhook (Some b) w = (ok_received, w') /\
    db w' = db w /\ pool w' = pool w /\ clock w' = clock w /\
    console w' = "[Webhook] No video_id in exported event"
                 :: "[Webhook] Event: capture_session.exported" :: console w.
Proof.
  intros E F. rewrite (webhook_exported_body b w E), (exported_no_video _ _ _ _ _ F).
  eexists. split; [reflexivity|]. repeat split.
Qed.

(** X30. A [capture_session.exported] delivery with a video id and with a
    session id that sql.js can bind (both strings, [null] or numbers of at
    most fifteen digits), whose session id matches no row while its video id
    is already on a row, is answered with the 200 acknowledgment; the
    database and the waiting tasks are as before (no row created, none
    modified, no task started) and the handler logged that the recording
    already exists. *)
Theorem duplicate_video_id_is_acknowledged_unchanged sid vid su pu w d ps pv r :
  db w = Some d -> truthy vid = true ->
  plain sid -> plain vid ->
  bindValue sid = Ok ps -> bindValue vid = Ok pv ->
  session_row (text_affinity ps) (recordings d) = None ->
  video_row (text_affinity pv) (recordings d) = Some r ->
  exists w',
    webhook (exported sid vid su pu) w = (ok_received, w') /\
    db w' = db w /\ pool w' = pool w /\ clock w' = clock w /\
    console w' = ("[Webhook] Recording already exists: " ++ to_string vid)
                 :: "[Webhook] Event: capture_session.exported" :: console w.
Proof.
  intros D T _ _ Bs Bv S V. rewrite webhook_exported.
  rewrite (exported_duplicate vid su pu sid (logged _ w) d ps pv r D T Bs Bv S V).
  eexists. split; [reflexivity|]. repeat split.
Qed.

(** C10. [createRecording] stores NULL for every falsy field it is given
    (the empty string and 0 are falsy) and ['pending'] for a falsy
    [insights_status]; and a [capture_session.exported] delivery with empty
    strings for both URLs that makes the handler create a row (the database
    is open, no row has its session id or its video id, which are strings,
    [null] or numbers of at most fifteen digits) is acknowledged and leaves,
    as last row of the table, a row with NULL in both URL columns. *)
Theorem createRecording_stores_null_for_falsy_fields :
  (forall data w res w',
      createRecording data w = (Ok res, w') ->
      exists row,
        rows w' = (rows w ++ [row])%list /\
        fst res = Recording.id row /\
        (truthy (Fields.video_id data) = false -> Recording.video_id row = None) /\
        (truthy (Fields.stream_url data) = false -> Recording.stream_url row = None) /\
        (truthy (Fields.player_url data) = false -> Recording.player_url row = None) /\
        (truthy (Fields.session_id data) = false -> Recording.session_id row = None) /\
        (truthy (Fields.duration data) = false -> Recording.duration row = CellNull) /\
        (truthy (Fields.insights data) = false -> Recording.insights row = None) /\
        (truthy (Fields.insights_status data) = false ->
         Recording.insights_status row = Some "pending")) /\
  truthy (JString "") = false /\
  truthy (JNumber 0) = false /\
  (forall sid vid w d ps pv,
      db w = Some d -> truthy vid = true ->
      plain sid -> plain vid ->
      bindValue sid = Ok ps -> bindValue vid = Ok pv ->
      session_row (text_affinity ps) (recordings d) = None ->
      video_row (text_affinity pv) (recordings d) = None ->
      exists w' before row,
        webhook (exported sid vid (JString "") (JString "")) w = (ok_received, w') /\
        rows w' = (before ++ [row])%list /\
        List.length before = List.length (recordings d) /\
        Recording.video_id row = text_affinity pv /\
        Recording.stream_url row = None /\
        Recording.player_url row = None).
Proof.
  split; [|split; [reflexivity|split; [reflexivity|]]].
  - intros data w res w' H. rewrite createRecording_eq in H.
    unfold rows. destruct (db w) as [d|] eqn:D; [|discriminate H].
    destruct (new_row data d (clock w)) as [row|] eqn:N; [|discriminate H].
    injection H as <- <-. exists row. split; [reflexivity|]. split; [reflexivity|].
    unfold new_row, result_bind in N.
    repeat match type of N with
    | context [bindValue ?v] =>
        let B := fresh "B" in
        destruct (bindValue v) eqn:B; [|discriminate N]
    end.
    injection N as <-. simpl.
    repeat split; intro F;
      match goal with
      | B : bindValue (js_or ?v _) = Ok ?p |- _ = _ =>
          match type of F with
          | truthy v = false =>
              apply (falsy_text _ _ _ F) in B; simpl in B; injection B as <-; reflexivity
          end
      end.
  - intros sid vid w d ps pv D T _ _ Bs Bv S V.
    assert (exists ps', bindValue (js_or sid JNull) = Ok ps') as (ps' & Bs').
    { unfold js_or. destruct (truthy sid); [exists ps; exact Bs|exists SqlNull; reflexivity]. }
    assert (new_row (first_delivery vid (JString "") (JString "") sid) d (clock w)
            = Ok (Recording.mk (next_rowid d) (text_affinity pv) None None
                    (text_affinity ps') CellNull (Some (clock w)) None (Some "pending")))
      as N.
    { unfold new_row, first_delivery. cbn [Fields.video_id Fields.stream_url
        Fields.player_url Fields.session_id Fields.duration Fields.insights
        Fields.insights_status].
      unfold js_or at 1. rewrite T, Bv, Bs'. reflexivity. }
    rewrite webhook_exported.
    rewrite (exported_create vid _ _ sid (logged _ w) d ps pv _ D T Bs Bv S V N).
    match goal with
    | |- context [schedule_indexing vid ?x] =>
        destruct (schedule_indexing_effect vid pv x _ eq_refl Bv) as [E|(r & key & k & _ & E)];
          rewrite E
    end.
    + eexists. exists (recordings d). eexists. split; [reflexivity|].
      repeat split.
    + eexists. eexists. eexists. split; [reflexivity|].
      rewrite rows_begun. cbn [recordings]. rewrite updated_rows_app. split; [reflexivity|].
      split; [apply updated_rows_length|].
      cbn. destruct (next_rowid d =? Recording.id r); repeat split.
Qed.

(** ** The life of a status *)

Lemma apply_sets_cons c p sets r :
  apply_sets ((c, p) :: sets) r = apply_sets sets (set_column c p r).
Proof. reflexivity. Qed.

Lemma apply_sets_session sets r :
  avoids session_id sets = true ->
  Recording.session_id (apply_sets sets r) = Recording.session_id r.
Proof.
  intro A. pose proof (apply_sets_frame session_id sets A r) as H. simpl in H.
  destruct (Recording.session_id (apply_sets sets r)), (Recording.session_id r);
    simpl in H; congruence.
Qed.

Lemma apply_sets_status s sets r :
  avoids insights_status sets = true ->
  Recording.insights_status (apply_sets ((insights_status, SqlText s) :: sets) r) = Some s.
Proof.
  intro A. rewrite apply_sets_cons.
  pose proof (apply_sets_frame insights_status sets A
                (set_column insights_status (SqlText s) r)) as H.
  rewrite set_column_same in H. simpl in H.
  apply cell_of_text_some, H.
Qed.

Lemma avoids_defined {c} (data : updates) :
  avoids c data = true -> avoids c (defined_entries data) = true.
Proof.
  unfold avoids, defined_entries. induction data as [|[c' v] data IH]; simpl; intro H.
  - reflexivity.
  - apply andb_true_iff in H as [H1 H2]. destruct (defined v); simpl.
    + rewrite H1. exact (IH H2).
    + exact (IH H2).
Qed.

Lemma avoids_bound c (data : updates) sets :
  avoids c data = true -> bind_all (defined_entries data) = Ok sets ->
  avoids c sets = true.
Proof.
  intros A B. apply (avoids_keys c (defined_entries data) sets).
  - apply bind_all_keys, B.
  - apply avoids_defined, A.
Qed.

Lemma Forall2_same {A : Type} (R : A -> A -> Prop) (l : list A) :
  (forall a, R a a) -> Forall2 R l l.
Proof. intro H. induction l; constructor; auto. Qed.

Lemma Forall2_map_r {A : Type} (R : A -> A -> Prop) (f : A -> A) (l : list A) :
  (forall a, R a (f a)) -> Forall2 R l (map f l).
Proof. intro H. induction l; simpl; constructor; auto. Qed.

Lemma Forall2_compose {A : Type} (R S T : A -> A -> Prop) :
  (forall a b c, R a b -> S b c -> T a c) ->
  forall l1 l2 l3, Forall2 R l1 l2 -> Forall2 S l2 l3 -> Forall2 T l1 l3.
Proof.
  intros H l1 l2 l3 H12. revert l3.
  induction H12 as [|a b l1 l2 Hab _ IH]; intros l3 H23; inversion H23; subst.
  - constructor.
  - constructor; [eapply H; eassumption|apply IH; assumption].
Qed.

Lemma same_key_refl a : same_key a a.
Proof. split; reflexivity. Qed.

Lemma same_key_trans a b c : same_key a b -> same_key b c -> same_key a c.
Proof. intros [H1 H2] [H3 H4]. split; congruence. Qed.

Lemma by_completion_refl id a : by_completion id a a.
Proof. split; [apply same_key_refl|]. split; [reflexivity|left; reflexivity]. Qed.

Lemma by_completion_trans id a b c :
  by_completion id a b -> by_completion id b c -> by_completion id a c.
Proof.
  intros (K1 & N1 & S1) (K2 & N2 & S2). split; [exact (same_key_trans _ _ _ K1 K2)|].
  split.
  - intro N. pose proof (N1 N) as E. subst b. exact (N2 N).
  - destruct S2 as [E|T]; [|right; exact T].
    rewrite E. exact S1.
Qed.

(** What one terminal write does to the table. *)
Lemma terminal_update_effect id data w r w' :
  terminal_update data ->
  updateRecording id data w = (r, w') ->
  pool w' = pool w /\ Forall2 (by_completion id) (rows w) (rows w').
Proof.
  intros (s & rest & -> & Hs & A1 & A2) H. rewrite updateRecording_eq in H.
  change (defined_entries ((insights_status, JString s) :: rest))
    with ((insights_status, JString s) :: defined_entries rest) in H.
  cbv iota in H.
  assert (pool w = pool w /\ Forall2 (by_completion id) (rows w) (rows w)) as Same
    by (split; [reflexivity|apply Forall2_same, by_completion_refl]).
  destruct (db w) as [d|] eqn:D; [|injection H as <- <-; exact Same].
  destruct (bind_all ((insights_status, JString s) :: defined_entries rest))
    as [sets|e] eqn:B; [|injection H as <- <-; exact Same].
  injection H as <- <-. split; [reflexivity|].
  unfold rows at 1. rewrite D. cbn [rows with_rows db recordings].
  unfold bind_all in B; fold bind_all in B. cbn [bindValue] in B.
  destruct (bind_all (defined_entries rest)) as [sets'|] eqn:B'; [|discriminate B].
  injection B as <-.
  apply Forall2_map_r. intro a.
  destruct (Recording.id a =? id) eqn:E.
  - split; [split; [apply apply_sets_id|]|split].
    + rewrite apply_sets_cons, apply_sets_session.
      * destruct a; reflexivity.
      * exact (avoids_bound session_id rest sets' A2 B').
    + intro N. apply Z.eqb_eq in E. contradiction.
    + right. rewrite apply_sets_status.
      * destruct Hs as [->| ->]; [left|right]; reflexivity.
      * exact (avoids_bound insights_status rest sets' A1 B').
  - apply by_completion_refl.
Qed.

(** A turn of what is left of a background task. *)
Lemma advance_finishing id p :
  finishing id p ->
  forall w p' w',
    advance p w = (p', w') ->
    finishing id p' /\ pool w' = pool w /\ Forall2 (by_completion id) (rows w) (rows w').
Proof.
  induction 1 as [|line k F IH|c k F IH|i k F IH|data k T F IH]; intros w p' w' A.
  - injection A as <- <-. split; [constructor|].
    split; [reflexivity|apply Forall2_same, by_completion_refl].
  - cbn [advance] in A. destruct (IH _ _ _ A) as (Fp & P & R).
    split; [exact Fp|]. split; [exact P|exact R].
  - injection A as <- <-. split; [constructor; exact F|].
    split; [reflexivity|apply Forall2_same, by_completion_refl].
  - cbn [advance] in A. rewrite getRecordingById_eq in A.
    destruct (IH _ _ _ _ A) as (Fp & P & R).
    split; [exact Fp|]. split; [exact P|exact R].
  - cbn [advance] in A.
    destruct (updateRecording id data w) as [r w1] eqn:U.
    destruct (terminal_update_effect id data w r w1 T U) as (P1 & R1).
    destruct (IH _ _ _ _ A) as (Fp & P & R).
    split; [exact Fp|]. split; [congruence|].
    exact (Forall2_compose _ _ _ (by_completion_trans id) _ _ _ R1 R).
Qed.

Ltac terminal_data :=
  do 2 eexists; split; [reflexivity|];
  split; [first [left; reflexivity|right; reflexivity]|];
  split; reflexivity.

Ltac finish_tree :=
  repeat first
    [ apply finishing_return
    | apply finishing_console
    | apply finishing_external; intros [[| |?|?|]|[?|]]; cbn
    | apply finishing_get; intros [[?|]|?]; cbn
    | apply finishing_update; [terminal_data|intros [[]|?]; cbn]
    | match goal with
      | |- context [if ?b then _ else _] => destruct b; cbn
      end ].

(** After its first turn a background task is of the kind described by
    [finishing]. *)
Lemma start_finishing rid vid key w p' w' :
  advance (processIndexingBackground rid vid key) w = (p', w') -> finishing rid p'.
Proof.
  unfold processIndexingBackground, indexVideo, store_result, on_error, method, proc_log.
  cbn. destruct (updateRecording rid _ w) as [r w1]. intro A.
  refine (proj1 (advance_finishing rid _ _ w1 p' w' A)).
  destruct r as [[]|e]; cbn; finish_tree.
Qed.

Lemma rows_enqueue p w : rows (enqueue p w) = rows w.
Proof. destruct p; reflexivity. Qed.

Lemma pool_ok_same w w' : pool w' = pool w -> pool_ok w -> pool_ok w'.
Proof. unfold pool_ok. intros ->. exact (fun H => H). Qed.

Lemma pool_ok_enqueue id p w : finishing id p -> pool_ok w -> pool_ok (enqueue p w).
Proof.
  unfold pool_ok. intros F H. destruct p; try exact H.
  cbn [enqueue pool]. apply Forall_app. split; [exact H|].
  constructor; [exists id; exact F|constructor].
Qed.

Lemma pool_ok_without i w w' :
  pool w' = without i (pool w) -> pool_ok w -> pool_ok w'.
Proof.
  unfold pool_ok, without. intros -> H. apply Forall_app. split.
  - apply Forall_forall. intros x I. rewrite Forall_forall in H.
    apply H. rewrite <- (firstn_skipn i (pool w)). apply in_or_app. left. exact I.
  - apply Forall_forall. intros x I. rewrite Forall_forall in H.
    apply H. rewrite <- (firstn_skipn (S i) (pool w)). apply in_or_app. right. exact I.
Qed.

(** The completion of an external call of a waiting task. *)
Lemma resume_effect i o w :
  pool_ok w ->
  pool_ok (resume i o w) /\
  (rows (resume i o w) = rows w \/
   exists p id,
     nth_error (pool w) i = Some p /\ finishing id p /\
     Forall2 (by_completion id) (rows w) (rows (resume i o w))).
Proof.
  intro Ok. unfold resume.
  destruct (nth_error (pool w) i) as [p|] eqn:N;
    [|split; [exact Ok|left; reflexivity]].
  destruct p as [a|e|id data k|id k|line k|c k];
    try (split; [exact Ok|left; reflexivity]).
  assert (exists id, finishing id (External c k)) as (id & F).
  { unfold pool_ok in Ok. rewrite Forall_forall in Ok.
    apply Ok. exact (nth_error_In _ _ N). }
  inversion F as [| |c' k' Fk| |]; subst.
  match goal with
  | |- context [advance (k o) ?x] =>
      set (w0 := x); destruct (advance (k o) w0) as [p' w'] eqn:A
  end.
  destruct (advance_finishing id (k o) (Fk o) w0 p' w' A) as (Fp & P & R).
  split.
  - apply (pool_ok_enqueue id p' w' Fp).
    apply (pool_ok_without i w w'); [rewrite P; reflexivity|exact Ok].
  - right. exists (External c k), id. split; [reflexivity|]. split; [exact F|].
    rewrite rows_enqueue. exact R.
Qed.

Lemma evolves_same (R : Recording.t -> Recording.t -> Prop) rs :
  (forall a, R a a) -> evolves R rs rs.
Proof.
  intro H. exists rs, []. split; [rewrite app_nil_r; reflexivity|].
  apply Forall2_same, H.
Qed.

Lemma by_delivery_refl a : by_delivery a a.
Proof. split; [apply same_key_refl|left; reflexivity]. Qed.

Lemma by_delivery_processing id a :
  by_delivery a (if Recording.id a =? id
                 then apply_sets [(insights_status, SqlText "processing")] a else a).
Proof.
  destruct (Recording.id a =? id); [|apply by_delivery_refl].
  destruct a. split; [split; reflexivity|right; right; reflexivity].
Qed.

Lemma by_delivery_then_processing id a b :
  by_delivery a b ->
  by_delivery a (if Recording.id b =? id
                 then apply_sets [(insights_status, SqlText "processing")] b else b).
Proof.
  intros (K & S). destruct (by_delivery_processing id b) as (K' & S').
  split; [exact (same_key_trans _ _ _ K K')|].
  destruct S' as [E|[E|E]]; [rewrite E; exact S|right; left; exact E|right; right; exact E].
Qed.

(** Scheduling, on an open database: nothing happens, or a background task
    has its first turn. *)
Lemma schedule_indexing_begins vid pv w d :
  db w = Some d -> bindValue vid = Ok pv ->
  schedule_indexing vid w = (Ok tt, w) \/
  exists id p, finishing id p /\ schedule_indexing vid w = (Ok tt, begun id p d w).
Proof.
  intros D B. rewrite (schedule_indexing_open vid pv w d D B).
  destruct (latest_user (users d)) as [u|]; [|left; reflexivity].
  destruct (video_row (text_affinity pv) (recordings d)) as [r|]; [|left; reflexivity].
  destruct (User.api_key u) as [key|]; [|left; reflexivity].
  destruct (text_truthy (Some key)); [|left; reflexivity].
  right. unfold spawn.
  destruct (advance (processIndexingBackground (Recording.id r) vid key) w)
    as [p' w'] eqn:A.
  pose proof (start_finishing _ _ _ _ _ _ A) as F.
  destruct (start_open (Recording.id r) vid key w d D) as (k & A').
  rewrite A in A'. injection A' as -> ->.
  exists (Recording.id r). eexists. split; [exact F|reflexivity].
Qed.

Lemma pool_ok_begun id p d w : finishing id p -> pool_ok w -> pool_ok (begun id p d w).
Proof.
  intros F H. unfold begun. apply (pool_ok_enqueue id p _ F).
  apply (pool_ok_same w); [reflexivity|exact H].
Qed.

Lemma redelivery_keys vid su pu sets :
  bind_all (defined_entries (redelivery vid su pu)) = Ok sets ->
  NoDup (map fst sets) /\
  avoids session_id sets = true /\
  In (insights_status, SqlText "pending") sets.
Proof.
  intro B. split; [|split].
  - rewrite (bind_all_keys _ _ B). apply defined_entries_keys.
    unfold redelivery. repeat constructor; simpl; intuition discriminate.
  - apply (avoids_bound session_id (redelivery vid su pu) sets); [reflexivity|exact B].
  - destruct (bind_all_in _ _ insights_status (JString "pending") B) as (p & Hp & I).
    + apply filter_In. split; [|reflexivity]. simpl. tauto.
    + injection Hp as <-. exact I.
Qed.

Lemma redelivery_defined vid su pu :
  exists e es, defined_entries (redelivery vid su pu) = e :: es.
Proof.
  unfold redelivery, defined_entries. simpl.
  destruct (defined vid), (defined su), (defined pu); eauto.
Qed.

Lemma redelivery_video vid su pu sets :
  truthy vid = true ->
  bind_all (defined_entries (redelivery vid su pu)) = Ok sets ->
  exists pv, bindValue vid = Ok pv /\ In (video_id, pv) sets.
Proof.
  intros T B. apply (bind_all_in _ _ video_id vid B).
  apply filter_In. split; [left; reflexivity|].
  destruct vid; try reflexivity. discriminate T.
Qed.

Lemma by_delivery_redelivered vid su pu sets id a :
  bind_all (defined_entries (redelivery vid su pu)) = Ok sets ->
  by_delivery a (if Recording.id a =? id then apply_sets sets a else a).
Proof.
  intro B. destruct (redelivery_keys vid su pu sets B) as (N & A & I).
  destruct (Recording.id a =? id); [|apply by_delivery_refl].
  split; [split; [apply apply_sets_id|apply apply_sets_session, A]|].
  right. left. apply cell_of_text_some.
  exact (apply_sets_assigned insights_status _ sets N I a).
Qed.

Lemma pool_ok_logged line w : pool_ok w -> pool_ok (logged line w).
Proof. apply pool_ok_same. apply pool_logged. Qed.

(** What the exported-event branch of the handler does to the table and to
    the waiting tasks. *)
Lemma exported_event_effect vid su pu sid w out w' :
  exported_event vid su pu sid w = (out, w') ->
  pool_ok w ->
  pool_ok w' /\ evolves by_delivery (rows w) (rows w').
Proof.
  intros H Ok.
  assert (pool_ok w /\ evolves by_delivery (rows w) (rows w)) as Same
    by (split; [exact Ok|apply evolves_same, by_delivery_refl]).
  assert (forall line, pool_ok (logged line w) /\
                       evolves by_delivery (rows w) (rows (logged line w))) as Logged.
  { intro line. split; [apply pool_ok_logged, Ok|].
    rewrite rows_logged. apply evolves_same, by_delivery_refl. }
  unfold exported_event in H. destruct (truthy vid) eqn:T.
  2:{ injection H as <- <-. apply Logged. }
  rewrite sync_bind_eq, findRecordingBySessionId_eq in H.
  destruct (db w) as [d|] eqn:D; [|injection H as <- <-; exact Same].
  destruct (bindValue sid) as [ps|e] eqn:Bs; [|injection H as <- <-; exact Same].
  destruct (session_row (text_affinity ps) (recordings d)) as [r|] eqn:S.
  - rewrite sync_bind_eq in H. fold (redelivery vid su pu) in H.
    rewrite updateRecording_eq, D in H.
    destruct (redelivery_defined vid su pu) as (e0 & es & E). rewrite E in H.
    rewrite <- E in H.
    destruct (bind_all (defined_entries (redelivery vid su pu))) as [sets|e] eqn:B;
      [|injection H as <- <-; exact Same].
    destruct (redelivery_video vid su pu sets T B) as (pv & Bv & _).
    rewrite sync_bind_eq in H. cbn [console_log] in H. rewrite sync_bind_eq in H.
    match type of H with
    | context [schedule_indexing vid ?x] =>
        destruct (schedule_indexing_begins vid pv x _ eq_refl Bv)
          as [Sch|(id & p & F & Sch)]; rewrite Sch in H
    end.
    + injection H as <- <-. split; [apply (pool_ok_same w); [reflexivity|exact Ok]|].
      unfold rows at 1. rewrite D. cbn [rows db recordings].
      exists (updated_rows (Recording.id r) sets (recordings d)), [].
      split; [rewrite app_nil_r; reflexivity|].
      apply Forall2_map_r. intro a. exact (by_delivery_redelivered vid su pu sets _ a B).
    + injection H as <- <-. split.
      * apply (pool_ok_begun id p _ _ F). apply (pool_ok_same w); [reflexivity|exact Ok].
      * unfold rows at 1. rewrite D, rows_begun. cbn [recordings].
        eexists. exists []. split; [rewrite app_nil_r; reflexivity|].
        unfold updated_rows. rewrite map_map. apply Forall2_map_r. intro a.
        apply by_delivery_then_processing.
        exact (by_delivery_redelivered vid su pu sets _ a B).
  - rewrite sync_bind_eq, findRecordingByVideoId_eq, D in H.
    destruct (bindValue vid) as [pv|e] eqn:Bv; [|injection H as <- <-; exact Same].
    destruct (video_row (text_affinity pv) (recordings d)) as [x|] eqn:V.
    + injection H as <- <-. apply Logged.
    + rewrite sync_bind_eq, createRecording_eq, D in H.
      match type of H with
      | context [new_row ?f d ?c] => destruct (new_row f d c) as [row|e] eqn:N
      end; [|injection H as <- <-; exact Same].
      rewrite sync_bind_eq in H. cbn [console_log] in H. rewrite sync_bind_eq in H.
      match type of H with
      | context [schedule_indexing vid ?x] =>
          destruct (schedule_indexing_begins vid pv x _ eq_refl Bv)
            as [Sch|(id & p & F & Sch)]; rewrite Sch in H
      end.
      * injection H as <- <-. split; [apply (pool_ok_same w); [reflexivity|exact Ok]|].
        unfold rows at 1. rewrite D. cbn [rows db recordings].
        exists (recordings d), [row]. split; [reflexivity|].
        apply Forall2_same, by_delivery_refl.
      * injection H as <- <-. split.
        -- apply (pool_ok_begun id p _ _ F). apply (pool_ok_same w); [reflexivity|exact Ok].
        -- unfold rows at 1. rewrite D, rows_begun. cbn [recordings].
           rewrite updated_rows_app. eexists. eexists. split; [reflexivity|].
           apply Forall2_map_r. intro a. apply by_delivery_processing.
Qed.

(** A request that is not a [capture_session.exported] event leaves the
    database and the waiting tasks alone. *)
Lemma webhook_other body w :
  (exists b, body = Some b /\ Body.event b = JString "capture_session.exported") \/
  (db (snd (webhook body w)) = db w /\ pool (snd (webhook body w)) = pool w).
Proof.
  destruct body as [[ev sid data]|]; [|right; split; reflexivity].
  destruct ev as [| |n|s|].
  - right. split; reflexivity.
  - right. split; reflexivity.
  - right. unfold webhook, handle, js_or. cbn. destruct (n =? 0); cbn; split; reflexivity.
  - destruct (s =? "capture_session.exported")%string eqn:E.
    + left. apply String.eqb_eq in E. subst s. eexists. split; reflexivity.
    + right. unfold webhook, handle, js_or. cbn.
      destruct (s =? "")%string; cbn; [split; reflexivity|].
      rewrite E. cbn.
      destruct (String.prefix "capture_session." s); split; reflexivity.
  - right. split; reflexivity.
Qed.

Lemma rows_same_db w w' : db w' = db w -> rows w' = rows w.
Proof. unfold rows. intros ->. reflexivity. Qed.

(** What a webhook request does to the table and to the waiting tasks. *)
Lemma webhook_effect body w :
  pool_ok w ->
  pool_ok (snd (webhook body w)) /\
  evolves by_delivery (rows w) (rows (snd (webhook body w))).
Proof.
  intro Ok. destruct (webhook_other body w) as [(b & -> & E)|(D & P)].
  - rewrite (webhook_exported_body b w E).
    match goal with
    | |- context [exported_event ?a ?b ?c ?d ?x] =>
        destruct (exported_event a b c d x) as [[r|e] w1] eqn:H
    end;
      destruct (exported_event_effect _ _ _ _ _ _ _ H (pool_ok_logged _ w Ok)) as (Ok1 & Ev);
      rewrite rows_logged in Ev; cbn [conclude snd].
    + split; assumption.
    + split; [apply pool_ok_logged, Ok1|rewrite rows_logged; exact Ev].
  - split; [exact (pool_ok_same w _ P Ok)|].
    rewrite (rows_same_db w _ D). apply evolves_same, by_delivery_refl.
Qed.

Lemma evolves_nth (R : Recording.t -> Recording.t -> Prop) rs rs' n a :
  evolves R rs rs' -> nth_error rs n = Some a ->
  exists b, nth_error rs' n = Some b /\ R a b.
Proof.
  intros (kept & extra & -> & F) N. revert n N.
  induction F as [|x y l l' Hxy _ IH]; intros [|n] N; simpl in *; try discriminate N.
  - injection N as <-. exists y. split; [reflexivity|exact Hxy].
  - exact (IH n N).
Qed.

Lemma Forall2_evolves (R : Recording.t -> Recording.t -> Prop) rs rs' :
  Forall2 R rs rs' -> evolves R rs rs'.
Proof. intro F. exists rs', []. split; [rewrite app_nil_r; reflexivity|exact F]. Qed.

Lemma run_statuses interference sdk rid vid key w :
  forward_only
    (statuses_written rid
       (snd (run interference sdk (processIndexingBackground rid vid key) w))).
Proof.
  destruct (run_processIndexingBackground interference sdk rid vid key w)
    as (w' & t & R & [(_ & _ & ->)|(cs & rest & tail & -> & _ & T)]);
    rewrite R; cbn [snd].
  - left. reflexivity.
  - cbn [statuses_written status_of filter column_eqb defined andb last snd].
    rewrite Z.eqb_refl, statuses_written_calls.
    destruct T as [(-> & _)|[(-> & _)|(data & -> & St & _)]].
    + right. left. reflexivity.
    + right. right. right. simpl. rewrite Z.eqb_refl. reflexivity.
    + right. right. left. cbn [statuses_written]. rewrite St, Z.eqb_refl. reflexivity.
Qed.

Lemma react_effect h w :
  pool_ok w ->
  pool_ok (react h w) /\
  forall n a b,
    nth_error (rows w) n = Some a ->
    nth_error (rows (react h w)) n = Some b ->
    Recording.insights_status b <> Recording.insights_status a ->
    (exists body,
        h = Delivery body /\
        (Recording.insights_status b = Some "pending" \/
         Recording.insights_status b = Some "processing")) \/
    (exists i o p,
        h = Completion i o /\
        nth_error (pool w) i = Some p /\ finishing (Recording.id a) p /\
        terminal (Recording.insights_status b)).
Proof.
  intro Ok. destruct h as [body|i o|now|]; cbn [react].
  - destruct (webhook_effect body w Ok) as (Ok' & Ev). split; [exact Ok'|].
    intros n a b Na Nb Changed. left. exists body. split; [reflexivity|].
    destruct (evolves_nth _ _ _ n a Ev Na) as (b' & Nb' & _ & S).
    rewrite Nb in Nb'. injection Nb' as <-.
    destruct S as [E|S]; [contradiction|exact S].
  - destruct (resume_effect i o w Ok) as (Ok' & [Same|(p & id & Np & F & R)]).
    + split; [exact Ok'|]. intros n a b Na Nb Changed. exfalso.
      rewrite Same, Na in Nb. injection Nb as <-. apply Changed. reflexivity.
    + split; [exact Ok'|]. intros n a b Na Nb Changed. right.
      destruct (evolves_nth _ _ _ n a (Forall2_evolves _ _ _ R) Na)
        as (b' & Nb' & _ & Other & S).
      rewrite Nb in Nb'. injection Nb' as <-.
      exists i, o, p. split; [reflexivity|]. split; [exact Np|].
      destruct (Z.eq_dec (Recording.id a) id) as [E|N].
      * subst id. split; [exact F|].
        destruct S as [E|T]; [contradiction|exact T].
      * exfalso. apply Changed. rewrite (Other N). reflexivity.
  - split; [exact Ok|]. intros n a b Na Nb Changed. exfalso.
    change (rows {| db := db w; clock := now; console := console w; pool := pool w |})
      with (rows w) in Nb.
    rewrite Na in Nb. injection Nb as <-. apply Changed. reflexivity.
  - split; [exact Ok|]. intros n a b Na Nb Changed. exfalso.
    change (rows (snd (closeDatabase w))) with (@nil Recording.t) in Nb.
    destruct n; discriminate Nb.
Qed.

Lemma Forall2_in_r {A : Type} (R : A -> A -> Prop) l l' b :
  Forall2 R l l' -> In b l' -> exists a, In a l /\ R a b.
Proof.
  induction 1 as [|x y l l' Hxy _ IH]; intro I; [destruct I|].
  destruct I as [<-|I].
  - exists x. split; [left; reflexivity|exact Hxy].
  - destruct (IH I) as (a & Ia & Ra). exists a. split; [right; exact Ia|exact Ra].
Qed.

(** Nothing but a delivery makes a row ['pending']. *)
Lemma not_pending_kept h w rid :
  (forall body, h <> Delivery body) ->
  pool_ok w ->
  (forall x, In x (rows w) -> Recording.id x = rid ->
             Recording.insights_status x <> Some "pending") ->
  pool_ok (react h w) /\
  forall x, In x (rows (react h w)) -> Recording.id x = rid ->
            Recording.insights_status x <> Some "pending".
Proof.
  intros NoDelivery Ok Inv. split; [exact (proj1 (react_effect h w Ok))|].
  destruct h as [body|i o|now|]; cbn [react].
  - exfalso. exact (NoDelivery body eq_refl).
  - destruct (resume_effect i o w Ok) as (_ & [Same|(p & id & _ & _ & R)]).
    + rewrite Same. exact Inv.
    + intros x I E.
      destruct (Forall2_in_r _ _ _ x R I) as (a & Ia & (Ea & _) & _ & S).
      assert (Recording.id a = rid) as Ea' by congruence.
      specialize (Inv a Ia Ea').
      destruct S as [S|[T|T]]; [congruence|rewrite T; discriminate|rewrite T; discriminate].
  - exact Inv.
  - intros x I. destruct I.
Qed.

Lemma not_pending_played hs rid : forall w,
  (forall body, ~ In (Delivery body) hs) ->
  pool_ok w ->
  (forall x, In x (rows w) -> Recording.id x = rid ->
             Recording.insights_status x <> Some "pending") ->
  forall x, In x (rows (play hs w)) -> Recording.id x = rid ->
            Recording.insights_status x <> Some "pending".
Proof.
  unfold play. induction hs as [|h hs IH]; intros w NoDelivery Ok Inv; simpl; [exact Inv|].
  assert (forall body, h <> Delivery body) as Nh
    by (intros body E; apply (NoDelivery body); left; exact E).
  destruct (not_pending_kept h w rid Nh Ok Inv) as (Ok' & Inv').
  apply IH; [|exact Ok'|exact Inv'].
  intros body I. apply (NoDelivery body). right. exact I.
Qed.

(** C6, as the code has it.  In any run of the background task, a call to
    the SDK is only ever made after ['processing'] was written: the trace of
    a run that makes a call starts with that write.  When the task, in its
    first turn, reaches its first call, the rows with its id have status
    ['processing']; and with the database open it does reach that call.
    From then on, whatever happens that is not a webhook delivery (calls of
    this task or of any other completing, the clock, a shutdown), no reader
    finds these rows ['pending']. *)
Theorem processing_is_written_before_the_first_call interference sdk rid vid key w :
  (forall r w' t,
      run interference sdk (processIndexingBackground rid vid key) w = (r, w', t) ->
      forall c, In (Called c) t ->
                exists t', t = Wrote rid [(insights_status, JString "processing")] :: t') /\
  (forall c k w1,
      advance (processIndexingBackground rid vid key) w = (External c k, w1) ->
      has_status rid "processing" w1 /\ db w1 <> None) /\
  (db w <> None ->
   exists k w1,
     advance (processIndexingBackground rid vid key) w =
     (External (connect {| apiKey := key; baseUrl := None |}) k, w1)) /\
  (forall hs x,
      pool_ok w -> db w <> None ->
      (forall body, ~ In (Delivery body) hs) ->
      In x (rows (play hs (snd (spawn (processIndexingBackground rid vid key) w)))) ->
      Recording.id x = rid ->
      Recording.insights_status x <> Some "pending").
Proof.
  split; [|split; [|split]].
  - intros r w' t R.
    exact (proj1 (processing_written_first interference sdk rid vid key w r w' t R)).
  - destruct (run interference sdk (processIndexingBackground rid vid key) w)
      as [[r w'] t] eqn:R.
    exact (proj1 (proj2 (processing_written_first interference sdk rid vid key w r w' t R))).
  - destruct (run interference sdk (processIndexingBackground rid vid key) w)
      as [[r w'] t] eqn:R.
    exact (proj2 (proj2 (processing_written_first interference sdk rid vid key w r w' t R))).
  - intros hs x Ok Open NoDelivery.
    destruct (db w) as [d|] eqn:D; [|contradiction].
    destruct (start_open rid vid key w d D) as (k & A).
    pose proof (start_finishing _ _ _ _ _ _ A) as F.
    unfold spawn. rewrite A. cbn [snd].
    match goal with
    | |- context [enqueue ?p ?y] => change (enqueue p y) with (begun rid p d w)
    end.
    apply not_pending_played; [exact NoDelivery| |].
    + apply pool_ok_begun; [exact F|exact Ok].
    + intros y I E. rewrite rows_begun in I.
      rewrite (updated_rows_status rid "processing" _ y I E). discriminate.
Qed.

(** C3, as the code has it.  Within one run of the background task the
    status only moves forward: the run writes ['processing'] first, then at
    most one of ['ready'] and ['failed'], and nothing after that.  And in
    any state whose waiting tasks are background tasks (which every state
    reached from one without waiting tasks is), a row whose status is
    terminal changes status in two ways only: a webhook delivery puts it to
    ['pending'] or ['processing'], or the completion of a call of a task
    that is still waiting on that row writes that task's own terminal
    status. *)
Theorem status_moves_forward_and_leaves_terminal_by_delivery_or_late_run :
  (forall interference sdk rid vid key w,
      forward_only
        (statuses_written rid
           (snd (run interference sdk (processIndexingBackground rid vid key) w)))) /\
  (forall w, pool w = [] -> pool_ok w) /\
  (forall h w, pool_ok w -> pool_ok (react h w)) /\
  (forall h w n a b,
      pool_ok w ->
      nth_error (rows w) n = Some a ->
      nth_error (rows (react h w)) n = Some b ->
      terminal (Recording.insights_status a) ->
      Recording.insights_status b <> Recording.insights_status a ->
      (exists body,
          h = Delivery body /\
          (Recording.insights_status b = Some "pending" \/
           Recording.insights_status b = Some "processing")) \/
      (exists i o p,
          h = Completion i o /\
          nth_error (pool w) i = Some p /\ finishing (Recording.id a) p /\
          terminal (Recording.insights_status b))).
Proof.
  split; [exact run_statuses|]. split; [|split].
  - intros w E. unfold pool_ok. rewrite E. constructor.
  - intros h w Ok. exact (proj1 (react_effect h w Ok)).
  - intros h w n a b Ok Na Nb _ Changed.
    exact (proj2 (react_effect h w Ok) n a b Na Nb Changed).
Qed.

(** ** A delivery for a session that is already tracked *)

Lemma db_enqueue p w : db (enqueue p w) = db w.
Proof. destruct p; reflexivity. Qed.

Lemma advance_closed {A : Type} (p : proc A) :
  forall w, db w = None -> db (snd (advance p w)) = None.
Proof.
  induction p as [a|e|id data k IH|id k IH|line k IH|c k IH]; intros w D;
    cbn [advance]; try exact D.
  - rewrite updateRecording_eq, D.
    destruct (defined_entries data); apply IH, D.
  - rewrite getRecordingById_eq, D. apply IH, D.
  - apply IH. rewrite db_logged. exact D.
Qed.

Lemma exported_event_closed vid su pu sid w :
  db w = None -> db (snd (exported_event vid su pu sid w)) = None.
Proof.
  intro D. unfold exported_event. destruct (truthy vid).
  - rewrite sync_bind_eq, findRecordingBySessionId_eq, D. exact D.
  - cbn. exact D.
Qed.

Lemma db_conclude x : db (snd (conclude x)) = db (snd x).
Proof. destruct x as [[r|e] w]; reflexivity. Qed.

Lemma react_closed h w : db w = None -> db (react h w) = None.
Proof.
  intro D. destruct h as [body|i o|now|]; cbn [react].
  - destruct (webhook_other body w) as [(b & -> & E)|(Same & _)].
    + rewrite (webhook_exported_body b w E), db_conclude.
      apply exported_event_closed. rewrite db_logged. exact D.
    + rewrite Same. exact D.
  - unfold resume. destruct (nth_error (pool w) i) as [[a|e|id data k|id k|line k|c k]|];
      try exact D.
    match goal with
    | |- context [advance (k o) ?x] =>
        pose proof (advance_closed (k o) x D) as H;
        destruct (advance (k o) x) as [p' w']
    end.
    rewrite db_enqueue. exact H.
  - exact D.
  - reflexivity.
Qed.

Lemma play_closed hs : forall w, db w = None -> db (play hs w) = None.
Proof.
  unfold play. induction hs as [|h hs IH]; intros w D; simpl; [exact D|].
  apply IH, react_closed, D.
Qed.








Lemma storable_bound vid su pu :
  vid <> "" -> storable su -> storable pu ->
  exists sets, bind_all (defined_entries (redelivery (JString vid) su pu)) = Ok sets.
Proof.
  unfold storable. intros _ Hs Hp.
  destruct su, pu; try congruence; simpl; eexists; reflexivity.
Qed.

Lemma nonempty_truthy s : s <> "" -> truthy (JString s) = true.
Proof.
  intro N. simpl. destruct (s =? "")%string eqn:E; [|reflexivity].
  apply String.eqb_eq in E. contradiction.
Qed.


Lemma storable_or_null v : storable v -> exists p, bindValue (js_or v JNull) = Ok p.
Proof.
  unfold storable, js_or. intro S.
  destruct v; try congruence; simpl; try (eexists; reflexivity).
  - destruct (negb (n =? 0)); eexists; reflexivity.
  - destruct (negb (s =? "")%string); eexists; reflexivity.
Qed.


Lemma rows_nonempty_open w r : In r (rows w) -> db w <> None.
Proof. unfold rows. destruct (db w); [discriminate|contradiction]. Qed.

Lemma session_row_in sid rs r : session_row sid rs = Some r -> In r rs.
Proof.
  unfold session_row, getOne. intro H.
  assert (In r (filter (fun x => sql_text_eq (Recording.session_id x) sid) rs)) as I.
  { destruct (filter _ rs); [discriminate H|]. injection H as ->. left. reflexivity. }
  apply filter_In in I. exact (proj1 I).
Qed.



(** ** Fresh ids *)

Lemma new_row_id data d now row : new_row data d now = Ok row -> Recording.id row = next_rowid d.
Proof.
  unfold new_row, result_bind. intro N.
  repeat match type of N with
  | context [bindValue ?v] => destruct (bindValue v); [|discriminate N]
  end.
  injection N as <-. reflexivity.
Qed.

Lemma new_row_created data d now row :
  new_row data d now = Ok row -> Recording.created_at row = Some now.
Proof.
  unfold new_row, result_bind. intro N.
  repeat match type of N with
  | context [bindValue ?v] => destruct (bindValue v); [|discriminate N]
  end.
  injection N as <-. reflexivity.
Qed.

Lemma rowids_below_next d r : In r (recordings d) -> Recording.id r < next_rowid d.
Proof.
  unfold next_rowid. intro I.
  assert (Recording.id r <= fold_right Z.max 0 (map Recording.id (recordings d))) as L.
  { induction (recordings d) as [|x rs IH]; [destruct I|]. simpl.
    destruct I as [->|I]; [lia|]. specialize (IH I). lia. }
  lia.
Qed.

Lemma row_by_id_absent id rs :
  (forall r, In r rs -> Recording.id r <> id) -> filter (fun r => Recording.id r =? id) rs = [].
Proof.
  intro H. induction rs as [|r rs IH]; simpl; [reflexivity|].
  destruct (Recording.id r =? id) eqn:E.
  - apply Z.eqb_eq in E. exfalso. exact (H r (or_introl eq_refl) E).
  - apply IH. intros x I. apply H. right. exact I.
Qed.

Lemma updated_rows_absent id sets rs :
  (forall r, In r rs -> Recording.id r <> id) -> updated_rows id sets rs = rs.
Proof.
  intro H. unfold updated_rows. induction rs as [|r rs IH]; simpl; [reflexivity|].
  rewrite IH by (intros x I; apply H; right; exact I).
  destruct (Recording.id r =? id) eqn:E; [|reflexivity].
  apply Z.eqb_eq in E. exfalso. exact (H r (or_introl eq_refl) E).
Qed.

(** ** Requests that store nothing *)

Lemma webhook_no_event b w :
  truthy (Body.event b) = false -> webhook (Some b) w = (ok_received, w).
Proof.
  intro F. unfold webhook, handle. rewrite F. cbn. destruct w. reflexivity.
Qed.

Lemma webhook_string_event b s w :
  Body.event b = JString s -> s <> "" -> s <> "capture_session.exported" ->
  webhook (Some b) w =
  (ok_received,
   if String.prefix "capture_session." s
   then logged ("[Webhook] Capture session event: " ++ s) (logged ("[Webhook] Event: " ++ s) w)
   else logged ("[Webhook] Event: " ++ s) w).
Proof.
  intros E N X. unfold webhook, handle, js_or. rewrite E. cbn.
  apply String.eqb_neq in N, X. rewrite N. cbn. rewrite X. cbn.
  destruct (String.prefix "capture_session." s); reflexivity.
Qed.

Lemma webhook_odd_event b w :
  truthy (Body.event b) = true -> (forall s, Body.event b <> JString s) ->
  webhook (Some b) w =
  (error_500,
   logged "[Webhook] Error processing:"
     (logged ("[Webhook] Event: " ++ to_string (Body.event b)) w)).
Proof.
  intros T N. unfold webhook, handle, js_or. rewrite T. cbn.
  destruct (Body.event b) as [| |n|s|]; try discriminate T.
  - reflexivity.
  - exfalso. exact (N s eq_refl).
  - reflexivity.
Qed.

(** X1.  A request that is not a [capture_session.exported] event never
    touches the database, the waiting tasks or the clock.  A missing body or
    a falsy [event] is acknowledged without even a log line; an event that
    is a string is acknowledged; and an event that is truthy but not a
    string (a number, an object) is answered 500, because [startsWith] is
    not a function of it. *)
Theorem other_events_store_nothing body w :
  (forall b, body = Some b -> Body.event b <> JString "capture_session.exported") ->
  exists r w',
    webhook body w = (r, w') /\
    db w' = db w /\ pool w' = pool w /\ clock w' = clock w /\
    (r = error_500 <->
     exists b, body = Some b /\ truthy (Body.event b) = true /\
               forall s, Body.event b <> JString s) /\
    (body = None \/ (exists b, body = Some b /\ truthy (Body.event b) = false) -> w' = w).
Proof.
  intro Other. destruct body as [b|].
  - specialize (Other b eq_refl). destruct (truthy (Body.event b)) eqn:T.
    + assert ((exists s, Body.event b = JString s) \/ forall s, Body.event b <> JString s)
        as [(s & E)|N].
      { destruct (Body.event b) as [| |n|s|]; try (right; discriminate).
        left. exists s. reflexivity. }
      * assert (s <> "") as N1 by (intros ->; rewrite E in T; discriminate T).
        assert (s <> "capture_session.exported") as N2
          by (intros ->; apply Other; exact E).
        exists ok_received. eexists.
        split; [exact (webhook_string_event b s w E N1 N2)|].
        destruct (String.prefix "capture_session." s);
          (split; [reflexivity|]; split; [reflexivity|]; split; [reflexivity|]; split;
           [split; [discriminate|
                    intros (b' & A & _ & N); injection A as <-; exfalso; exact (N s E)]
           |intros [A|(b' & A & F)]; [discriminate A|];
            injection A as <-; rewrite T in F; discriminate F]).
      * exists error_500. eexists. split; [exact (webhook_odd_event b w T N)|].
        split; [reflexivity|]. split; [reflexivity|]. split; [reflexivity|]. split.
        -- split; [intros _; exists b; repeat split; assumption|reflexivity].
        -- intros [A|(b' & A & F)]; [discriminate A|].
           injection A as <-. rewrite T in F. discriminate F.
    + exists ok_received, w. split; [apply webhook_no_event, T|].
      split; [reflexivity|]. split; [reflexivity|]. split; [reflexivity|]. split.
      * split; [discriminate|].
        intros (b' & A & T' & _). injection A as <-. rewrite T in T'. discriminate T'.
      * reflexivity.
  - exists ok_received, w. split; [destruct w; reflexivity|].
    split; [reflexivity|]. split; [reflexivity|]. split; [reflexivity|]. split.
    + split; [discriminate|]. intros (b' & A & _). discriminate A.
    + reflexivity.
Qed.

(** The exported-event branch either acknowledges, or throws before it has
    changed anything. *)
Lemma exported_event_outcome vid su pu sid w out w' :
  exported_event vid su pu sid w = (out, w') ->
  out = Ok ok_received \/ (exists e, out = Throws e) /\ w' = w.
Proof.
  intro H. unfold exported_event in H. destruct (truthy vid) eqn:T.
  2:{ injection H as <- <-. left. reflexivity. }
  rewrite sync_bind_eq, findRecordingBySessionId_eq in H.
  destruct (db w) as [d|] eqn:D; [|injection H as <- <-; right; eauto].
  destruct (bindValue sid) as [ps|e] eqn:Bs; [|injection H as <- <-; right; eauto].
  destruct (session_row (text_affinity ps) (recordings d)) as [r|] eqn:S.
  - rewrite sync_bind_eq in H. fold (redelivery vid su pu) in H.
    rewrite updateRecording_eq, D in H.
    destruct (redelivery_defined vid su pu) as (e0 & es & E). rewrite E in H.
    rewrite <- E in H.
    destruct (bind_all (defined_entries (redelivery vid su pu))) as [sets|e] eqn:B;
      [|injection H as <- <-; right; eauto].
    destruct (redelivery_video vid su pu sets T B) as (pv & Bv & _).
    rewrite sync_bind_eq in H. cbn [console_log] in H. rewrite sync_bind_eq in H.
    match type of H with
    | context [schedule_indexing vid ?x] =>
        destruct (schedule_indexing_begins vid pv x _ eq_refl Bv)
          as [Sch|(id & p & F & Sch)]; rewrite Sch in H
    end; injection H as <- <-; left; reflexivity.
  - rewrite sync_bind_eq, findRecordingByVideoId_eq, D in H.
    destruct (bindValue vid) as [pv|e] eqn:Bv; [|injection H as <- <-; right; eauto].
    destruct (video_row (text_affinity pv) (recordings d)) as [x|] eqn:V.
    + injection H as <- <-. left. reflexivity.
    + rewrite sync_bind_eq, createRecording_eq, D in H.
      match type of H with
      | context [new_row ?f d ?c] => destruct (new_row f d c) as [row|e] eqn:N
      end; [|injection H as <- <-; right; eauto].
      rewrite sync_bind_eq in H. cbn [console_log] in H. rewrite sync_bind_eq in H.
      match type of H with
      | context [schedule_indexing vid ?x] =>
          destruct (schedule_indexing_begins vid pv x _ eq_refl Bv)
            as [Sch|(id & p & F & Sch)]; rewrite Sch in H
      end; injection H as <- <-; left; reflexivity.
Qed.

Lemma webhook_keeps_clock body w : clock (snd (webhook body w)) = clock w.
Proof.
  assert (forall vid su pu sid x, clock (snd (exported_event vid su pu sid x)) = clock x) as Ex.
  { intros vid su pu sid x.
    destruct (exported_event vid su pu sid x) as [out x'] eqn:H. cbn [snd].
    unfold exported_event in H. destruct (truthy vid) eqn:T.
    2:{ injection H as _ <-. reflexivity. }
    rewrite sync_bind_eq, findRecordingBySessionId_eq in H.
    destruct (db x) as [d|] eqn:D; [|injection H as _ <-; reflexivity].
    destruct (bindValue sid) as [ps|e] eqn:Bs; [|injection H as _ <-; reflexivity].
    assert (forall y, db y <> None -> clock (snd (schedule_indexing vid y)) = clock y) as Sch.
    { intros y Dy. destruct (db y) as [dy|] eqn:Ey; [|contradiction].
      destruct (bindValue vid) as [pv|e] eqn:Bv.
      - destruct (schedule_indexing_effect vid pv y dy Ey Bv) as [->|(r & key & k & _ & ->)];
          reflexivity.
      - unfold schedule_indexing. rewrite sync_bind_eq, findRecordingByVideoId_eq, Ey, Bv.
        reflexivity. }
    destruct (session_row (text_affinity ps) (recordings d)) as [r|] eqn:S.
    - rewrite sync_bind_eq in H. rewrite updateRecording_eq, D in H.
      match type of H with
      | context [defined_entries ?data] => destruct (defined_entries data) as [|e0 es] eqn:E
      end.
      + rewrite sync_bind_eq in H. cbn [console_log] in H. rewrite sync_bind_eq in H.
        match type of H with
        | context [schedule_indexing vid ?y] =>
            pose proof (Sch y ltac:(cbn; rewrite D; discriminate)) as C;
            destruct (schedule_indexing vid y) as [[u|e] y']
        end; injection H as _ <-; exact C.
      + match type of H with
        | context [bind_all ?l] => destruct (bind_all l) as [sets|e]
        end; [|injection H as _ <-; reflexivity].
        rewrite sync_bind_eq in H. cbn [console_log] in H. rewrite sync_bind_eq in H.
        match type of H with
        | context [schedule_indexing vid ?y] =>
            pose proof (Sch y ltac:(cbn; discriminate)) as C;
            destruct (schedule_indexing vid y) as [[u|e] y']
        end; injection H as _ <-; exact C.
    - rewrite sync_bind_eq, findRecordingByVideoId_eq, D in H.
      destruct (bindValue vid) as [pv|e] eqn:Bv; [|injection H as _ <-; reflexivity].
      destruct (video_row (text_affinity pv) (recordings d)) as [y|] eqn:V.
      + injection H as _ <-. reflexivity.
      + rewrite sync_bind_eq, createRecording_eq, D in H.
        match type of H with
        | context [new_row ?f d ?c] => destruct (new_row f d c) as [row|e] eqn:N
        end; [|injection H as _ <-; reflexivity].
        rewrite sync_bind_eq in H. cbn [console_log] in H. rewrite sync_bind_eq in H.
        match type of H with
        | context [schedule_indexing vid ?y] =>
            pose proof (Sch y ltac:(cbn; discriminate)) as C;
            destruct (schedule_indexing vid y) as [[u|e] y']
        end; injection H as _ <-; exact C. }
  destruct body as [b|]; [|reflexivity].
  destruct (truthy (Body.event b)) eqn:T; [|rewrite (webhook_no_event b w T); reflexivity].
  assert ((exists s, Body.event b = JString s) \/ forall s, Body.event b <> JString s)
    as [(s & E)|N].
  { destruct (Body.event b) as [| |n|s|]; try (right; discriminate).
    left. exists s. reflexivity. }
  - destruct (String.eqb_spec s "capture_session.exported") as [->|N2].
    + rewrite (webhook_exported_body b w E).
      match goal with
      | |- context [exported_event ?a ?b ?c ?d ?x] =>
          pose proof (Ex a b c d x) as C; destruct (exported_event a b c d x) as [[r|e] x']
      end; exact C.
    + assert (s <> "") as N1 by (intros ->; rewrite E in T; discriminate T).
      rewrite (webhook_string_event b s w E N1 N2).
      destruct (String.prefix "capture_session." s); reflexivity.
  - rewrite (webhook_odd_event b w T N). reflexivity.
Qed.

(** X2.  The handler is all-or-nothing: a request answered with 500 has
    changed neither the database nor the waiting tasks nor the clock (only
    the console).  Once a row is written, nothing in the handler can throw
    any more. *)
Theorem a_delivery_answered_500_stored_nothing body w w' :
  webhook body w = (error_500, w') ->
  db w' = db w /\ pool w' = pool w /\ clock w' = clock w.
Proof.
  intro H. pose proof (webhook_keeps_clock body w) as C. rewrite H in C.
  split; [|split; [|exact C]];
    (destruct (webhook_other body w) as [(b & -> & E)|(D & P)];
     [|rewrite H in D, P; assumption]);
    rewrite (webhook_exported_body b w E) in H;
    match type of H with
    | context [exported_event ?a ?b ?c ?d ?x] =>
        destruct (exported_event a b c d x) as [out x'] eqn:X;
        destruct (exported_event_outcome _ _ _ _ _ _ _ X) as [->|[(e & ->) ->]]
    end; cbn [conclude] in H; try discriminate H; injection H as <-; reflexivity.
Qed.

Lemma exported_on_closed b w :
  db w = None ->
  Body.event b = JString "capture_session.exported" ->
  truthy (data_field Data.exported_video_id (Body.data b)) = true ->
  webhook (Some b) w =
  (error_500,
   logged "[Webhook] Error processing:"
     (logged "[Webhook] Event: capture_session.exported" w)).
Proof.
  intros D E T. rewrite (webhook_exported_body b w E).
  unfold exported_event. rewrite T.
  rewrite sync_bind_eq, findRecordingBySessionId_eq, db_logged, D. reflexivity.
Qed.

Lemma advance_pool {A : Type} (p : proc A) :
  forall w, pool (snd (advance p w)) = pool w.
Proof.
  induction p as [a|e|id data k IH|id k IH|line k IH|c k IH]; intro w;
    cbn [advance]; try reflexivity.
  - rewrite updateRecording_eq.
    destruct (defined_entries data); [apply IH|].
    destruct (db w); [|apply IH].
    destruct (bind_all _); rewrite IH; reflexivity.
  - rewrite getRecordingById_eq. apply IH.
  - rewrite IH. apply pool_logged.
Qed.

Lemma without_length {A : Type} i (l : list A) x :
  nth_error l i = Some x -> S (List.length (without i l)) = List.length l.
Proof.
  unfold without. revert i. induction l as [|y l IH]; intros [|i] N; simpl in *;
    try discriminate N.
  - reflexivity.
  - f_equal. exact (IH i N).
Qed.

Lemma webhook_closed_pool body w : db w = None -> pool (snd (webhook body w)) = pool w.
Proof.
  intro D. destruct (webhook_other body w) as [(b & -> & E)|(_ & P)]; [|exact P].
  rewrite (webhook_exported_body b w E).
  unfold exported_event.
  destruct (truthy (data_field Data.exported_video_id (Body.data b))).
  - rewrite sync_bind_eq, findRecordingBySessionId_eq, db_logged, D. reflexivity.
  - reflexivity.
Qed.

Lemma react_closed_pool h w :
  db w = None -> (List.length (pool (react h w)) <= List.length (pool w))%nat.
Proof.
  intro D. destruct h as [body|i o|now|]; cbn [react].
  - rewrite (webhook_closed_pool body w D). lia.
  - unfold resume. destruct (nth_error (pool w) i) as [p|] eqn:N; [|lia].
    destruct p as [a|e|id data k|id k|line k|c k]; try lia.
    match goal with
    | |- context [advance (k o) ?x] =>
        pose proof (advance_pool (k o) x) as P;
        destruct (advance (k o) x) as [p' w']
    end.
    cbn [snd pool] in P. pose proof (without_length i (pool w) _ N) as L.
    unfold enqueue. destruct p'; cbn [pool]; rewrite ?length_app, P; simpl; lia.
  - simpl. lia.
  - simpl. lia.
Qed.

(** X3.  After [closeDatabase], whatever happens next (deliveries,
    completions of calls of the tasks in flight, ticks): the database stays
    closed, no background task is added to the waiting ones (their number
    only goes down), and every [capture_session.exported] delivery with a
    video id is answered 500. *)
Theorem after_closeDatabase_no_task_is_started hs w :
  db w = None ->
  db (play hs w) = None /\
  (List.length (pool (play hs w)) <= List.length (pool w))%nat /\
  (forall b,
      Body.event b = JString "capture_session.exported" ->
      truthy (data_field Data.exported_video_id (Body.data b)) = true ->
      fst (webhook (Some b) (play hs w)) = error_500).
Proof.
  intro D. pose proof (play_closed hs w D) as Closed.
  split; [exact Closed|]. split.
  - revert w D Closed. unfold play.
    induction hs as [|h hs IH]; intros w D _; simpl; [lia|].
    pose proof (react_closed_pool h w D) as L.
    pose proof (react_closed h w D) as D'.
    specialize (IH (react h w) D' (play_closed hs _ D')). lia.
  - intros b E T. rewrite (exported_on_closed b _ Closed E T). reflexivity.
Qed.

(** ** The first delivery of a recording *)

Lemma video_row_appended vid rs row :
  video_row (Some vid) rs = None -> Recording.video_id row = Some vid ->
  video_row (Some vid) (rs ++ [row]) = Some row.
Proof.
  unfold video_row, getOne. intros N E. rewrite filter_app.
  destruct (filter _ rs) as [|x xs]; [|discriminate N].
  simpl. rewrite E. simpl. rewrite String.eqb_refl. reflexivity.
Qed.

Lemma truthy_bound_text v p :
  truthy v = true -> bindValue v = Ok p -> exists s, text_affinity p = Some s.
Proof.
  destruct v; simpl; intros T B; try discriminate T; try discriminate B;
    injection B as <-; try destruct (is_int32 n); eexists; reflexivity.
Qed.

(** The row the handler creates. *)
Lemma new_row_first_delivery vid su pu sid d now ps pv :
  truthy vid = true -> bindValue sid = Ok ps -> bindValue vid = Ok pv ->
  storable su -> storable pu ->
  exists row,
    new_row (first_delivery vid su pu sid) d now = Ok row /\
    Recording.id row = next_rowid d /\
    Recording.video_id row = text_affinity pv /\
    Recording.session_id row = (if truthy sid then text_affinity ps else None) /\
    Recording.created_at row = Some now /\
    Recording.insights row = None /\
    Recording.insights_status row = Some "pending".
Proof.
  intros T Bs Bv Ssu Spu.
  destruct (storable_or_null su Ssu) as (psu & Bsu).
  destruct (storable_or_null pu Spu) as (ppu & Bpu).
  unfold new_row, first_delivery. cbn [Fields.video_id Fields.stream_url
    Fields.player_url Fields.session_id Fields.duration Fields.insights
    Fields.insights_status].
  unfold js_or at 1. rewrite T, Bv, Bsu, Bpu. cbn [result_bind].
  unfold js_or at 1. destruct (truthy sid).
  - rewrite Bs. eexists. split; [reflexivity|]. repeat split.
  - eexists. split; [reflexivity|]. repeat split.
Qed.

Lemma schedule_indexing_no_key vid pv w d :
  db w = Some d -> bindValue vid = Ok pv ->
  (forall u, latest_user (users d) = Some u -> text_truthy (User.api_key u) = false) ->
  schedule_indexing vid w = (Ok tt, w).
Proof.
  intros D B NoKey. rewrite (schedule_indexing_open vid pv w d D B).
  destruct (latest_user (users d)) as [u|]; [|reflexivity].
  specialize (NoKey u eq_refl).
  destruct (video_row (text_affinity pv) (recordings d)) as [r|]; [|reflexivity].
  destruct (User.api_key u) as [k|]; [|reflexivity]. rewrite NoKey. reflexivity.
Qed.

Lemma schedule_indexing_key vid pv w d u key r :
  db w = Some d -> bindValue vid = Ok pv ->
  latest_user (users d) = Some u -> User.api_key u = Some key -> key <> "" ->
  video_row (text_affinity pv) (recordings d) = Some r ->
  exists k,
    schedule_indexing vid w =
    (Ok tt, begun (Recording.id r)
              (External (connect {| apiKey := key; baseUrl := None |}) k) d w).
Proof.
  intros D B L K N V. rewrite (schedule_indexing_open vid pv w d D B), L, V, K.
  assert (text_truthy (Some key) = true) as ->.
  { simpl. destruct (String.eqb_spec key ""); [contradiction|reflexivity]. }
  exact (spawn_open (Recording.id r) vid key w d D).
Qed.

(** X4.  A first delivery while no API key is registered: with the
    database open, a session id and a video id that no row has (strings,
    [null] or numbers of at most fifteen digits), and a latest user that is
    missing or has no API key, the handler answers 200 and appends one row
    with status ['pending']; no background task is started, so nothing will
    move that status. *)
Theorem first_delivery_without_api_key_stays_pending sid vid su pu w d ps pv :
  db w = Some d -> truthy vid = true ->
  plain sid -> plain vid ->
  bindValue sid = Ok ps -> bindValue vid = Ok pv ->
  storable su -> storable pu ->
  session_row (text_affinity ps) (recordings d) = None ->
  video_row (text_affinity pv) (recordings d) = None ->
  (forall u, latest_user (users d) = Some u -> text_truthy (User.api_key u) = false) ->
  exists w' row,
    webhook (exported sid vid su pu) w = (ok_received, w') /\
    rows w' = (recordings d ++ [row])%list /\
    Recording.id row = next_rowid d /\
    Recording.video_id row = text_affinity pv /\
    Recording.insights_status row = Some "pending" /\
    pool w' = pool w.
Proof.
  intros D T _ _ Bs Bv Ssu Spu S V NoKey.
  destruct (new_row_first_delivery vid su pu sid d (clock w) ps pv T Bs Bv Ssu Spu)
    as (row & N & Id & Vid & _ & _ & _ & St).
  rewrite webhook_exported.
  rewrite (exported_create vid su pu sid (logged _ w) d ps pv row D T Bs Bv S V N).
  match goal with
  | |- context [schedule_indexing vid ?x] =>
      rewrite (schedule_indexing_no_key vid pv x _ eq_refl Bv NoKey)
  end.
  eexists. exists row. split; [reflexivity|]. repeat split; assumption.
Qed.

(** X5.  A first delivery while an API key is registered, for a session id
    and a video id that no row has (strings, [null] or numbers of at most
    fifteen digits): the handler appends the row and starts one background
    task on it, which connects with the API key of the latest user (the one
    with the greatest id, whoever made the recording); when the handler
    returns the row is already ['processing'] and the task waits, last in
    the pool. *)
Theorem first_delivery_indexes_with_the_latest_users_key
    sid vid su pu w d ps pv u key :
  db w = Some d -> truthy vid = true ->
  plain sid -> plain vid ->
  bindValue sid = Ok ps -> bindValue vid = Ok pv ->
  storable su -> storable pu ->
  session_row (text_affinity ps) (recordings d) = None ->
  video_row (text_affinity pv) (recordings d) = None ->
  latest_user (users d) = Some u -> User.api_key u = Some key -> key <> "" ->
  exists w' row k,
    webhook (exported sid vid su pu) w = (ok_received, w') /\
    rows w' = (recordings d ++ [row])%list /\
    Recording.id row = next_rowid d /\
    Recording.video_id row = text_affinity pv /\
    Recording.insights_status row = Some "processing" /\
    pool w' = (pool w ++ [External (connect {| apiKey := key; baseUrl := None |}) k])%list.
Proof.
  intros D T _ _ Bs Bv Ssu Spu S V L K Nk.
  destruct (new_row_first_delivery vid su pu sid d (clock w) ps pv T Bs Bv Ssu Spu)
    as (row & N & Id & Vid & _ & _ & _ & St).
  destruct (truthy_bound_text vid pv T Bv) as (s & Es).
  rewrite webhook_exported.
  rewrite (exported_create vid su pu sid (logged _ w) d ps pv row D T Bs Bv S V N).
  match goal with
  | |- context [schedule_indexing vid ?x] =>
      destruct (schedule_indexing_key vid pv x _ u key row eq_refl Bv L K Nk) as (k & Sch)
  end.
  { cbn [recordings]. rewrite Es in *. apply video_row_appended; assumption. }
  rewrite Sch.
  eexists. exists (apply_sets [(insights_status, SqlText "processing")] row), k.
  split; [reflexivity|]. rewrite rows_begun. cbn [recordings].
  rewrite updated_rows_app, updated_rows_absent.
  - split.
    + unfold updated_rows. simpl. rewrite Z.eqb_refl. reflexivity.
    + destruct row. simpl in *. repeat split; try assumption.
  - intros r I E. pose proof (rowids_below_next d r I). lia.
Qed.

(** ** [indexVideo] on its own *)

Section Indexing.

Variable interference : ext_call -> world -> world.
Variable sdk : ext_call -> result jsval.

Ltac answer c := destruct (sdk c) as [[| |?|?|]|[?|]] eqn:?; cbn.

Ltac leaf cs :=
  do 2 eexists; exists cs; eexists;
  split; [reflexivity|]; split; [reflexivity|];
  split; [cbn [removelast];
          repeat (apply Forall_cons; [unfold resolves; eexists; eassumption|]);
          apply Forall_nil|];
  split; [let P := fresh "P" in let HI := fresh "HI" in
          let HL := fresh "HL" in let H0 := fresh "H0" in
          intros P HI HL H0; repeat first [apply HL | apply HI]; exact H0|];
  split; [let e := fresh "e" in let Habs := fresh "Habs" in
          intros e Habs;
          first [discriminate Habs
                | eexists; split; [|eassumption]; simpl; tauto]|];
  split; [let out := fresh "out" in let Habs := fresh "Habs" in
          intros out Habs; discriminate Habs|];
  let Hl := fresh "Hl" in
  intro Hl;
  first [simpl; lia
        | let v := fresh "v" in let Hv := fresh "Hv" in let Fv := fresh "Fv" in
          destruct Hl as (v & Hv & Fv);
          match goal with
          | E : sdk (getVideo _) = Ok JObject |- _ => rewrite E in Hv
          end;
          injection Hv as <-; discriminate Fv].

(** X6.  One run of [indexVideo], whatever the SDK answers and whatever
    the rest of the program does meanwhile.  It makes its calls in one fixed
    order, with a [baseUrl] in the configuration only when it was given a
    truthy one, and stops at the first that fails: every call but the last
    one made has resolved.  It writes nothing to the database; its only own
    effect on the state is logging.  It throws only when a call failed with
    [null] or [undefined] (reading [err.message] in its [catch]); any other
    failure makes it return [null].  It returns a transcript and a subtitle
    URL only when all six calls resolved and the video was found, and these
    are what [getTranscriptText] and [addSubtitle] resolved to.  When the
    video is not found it stops after the lookup. *)
Theorem indexVideo_stops_at_the_first_failure vid key base w :
  exists r w' cs rest,
    run interference sdk (indexVideo vid key base) w = (r, w', map Called cs) /\
    (cs ++ rest)%list = indexing_calls vid (config_for key base) /\
    Forall (resolves sdk) (removelast cs) /\
    only_logged interference w w' /\
    (forall e, r = Throws e -> exists c, In c cs /\ sdk c = Throws Nullish) /\
    (forall out, r = Ok (Some out) ->
       rest = [] /\ Forall (resolves sdk) cs /\ ~ lookup_fails sdk vid /\
       Ok (fst out) = sdk getTranscriptText /\ Ok (snd out) = sdk addSubtitle) /\
    (lookup_fails sdk vid -> (List.length cs <= 3)%nat).
Proof.
  clear JSON_stringify.
  unfold indexVideo, indexing_calls, only_logged. cbn.
  fold (config_for key base). set (cfg := config_for key base).
  set (c1 := connect cfg).
  answer c1; try solve [leaf [c1]].
  answer getCollection; try solve [leaf [c1; getCollection]].
  destruct (sdk (getVideo vid)) as [[| |?|?|]|[?|]] eqn:E3; cbn;
    try match goal with
        | |- context [(?n =? 0)%Z] => destruct (n =? 0)%Z; cbn
        | |- context [(?s =? "")%string] => destruct (s =? "")%string; cbn
        end;
    try solve [leaf [c1; getCollection; getVideo vid]].
  destruct (sdk indexSpokenWords) as [v4|[|]] eqn:E4; cbn;
    try solve [leaf [c1; getCollection; getVideo vid; indexSpokenWords]].
  destruct (sdk getTranscriptText) as [v5|[|]] eqn:E5; cbn;
    try solve [leaf [c1; getCollection; getVideo vid; indexSpokenWords; getTranscriptText]].
  destruct (sdk addSubtitle) as [v6|[|]] eqn:E6; cbn;
    try solve [leaf [c1; getCollection; getVideo vid; indexSpokenWords;
                     getTranscriptText; addSubtitle]].
  do 2 eexists.
  exists [c1; getCollection; getVideo vid; indexSpokenWords; getTranscriptText; addSubtitle], [].
  split; [reflexivity|]. split; [reflexivity|].
  assert (Forall (resolves sdk)
            [c1; getCollection; getVideo vid; indexSpokenWords; getTranscriptText;
             addSubtitle]) as All
    by (repeat (apply Forall_cons; [unfold resolves; eexists; eassumption|]);
        apply Forall_nil).
  split; [inversion All; cbn [removelast];
          repeat (apply Forall_cons; [unfold resolves; eexists; eassumption|]);
          apply Forall_nil|].
  split; [intros P HI HL H0; repeat first [apply HL | apply HI]; exact H0|].
  split; [intros e Habs; discriminate Habs|].
  assert (~ lookup_fails sdk vid) as Found.
  { intros (v & Hv & Fv).
    rewrite E3 in Hv. injection Hv as <-. discriminate Fv. }
  split; [|intro Hl; contradiction].
  intros out Habs. injection Habs as <-.
  split; [reflexivity|]. split; [exact All|]. split; [exact Found|].
  split; reflexivity.
Qed.

(** X7.  A run of the background task in which every call resolves but
    [addSubtitle] gives nothing (a falsy value), nothing else writing to the
    database meanwhile.  The run makes all six calls and returns; every row
    with the task's id ends ['ready'], with the transcript as JSON in
    [insights] when there is one ([insights] is left alone otherwise), and
    with both URLs, and every other column, as they were.  The other rows
    are unchanged. *)
Theorem success_without_subtitles_keeps_the_urls rid vid key w d t s v4 :
  (forall c w0, db (interference c w0) = db w0) ->
  db w = Some d ->
  sdk (connect {| apiKey := key; baseUrl := None |}) = Ok JObject ->
  sdk getCollection = Ok JObject ->
  sdk (getVideo vid) = Ok JObject ->
  sdk indexSpokenWords = Ok v4 ->
  sdk getTranscriptText = Ok t ->
  sdk addSubtitle = Ok s ->
  truthy s = false ->
  exists w' tr,
    run interference sdk (processIndexingBackground rid vid key) w = (Ok tt, w', tr) /\
    calls_made tr = steps vid key /\
    Forall2 (fun a b =>
               (Recording.id a <> rid -> b = a) /\
               (Recording.id a = rid ->
                Recording.id b = rid /\
                Recording.insights_status b = Some "ready" /\
                Recording.insights b =
                  (if truthy t then Some (JSON_stringify t) else Recording.insights a) /\
                Recording.stream_url b = Recording.stream_url a /\
                Recording.player_url b = Recording.player_url a /\
                Recording.video_id b = Recording.video_id a /\
                Recording.session_id b = Recording.session_id a /\
                Recording.duration b = Recording.duration a /\
                Recording.created_at b = Recording.created_at a))
            (recordings d) (rows w').
Proof.
  intros Q D E1 E2 E3 E4 E5 E6 Ts.
  unfold processIndexingBackground. cbn [try_catch bind ret throw proc_monad].
  rewrite run_catch, run_bind, run_write, update_status_eq, D.
  cbn [run_then]. rewrite run_log, run_bind.
  set (rows1 := updated_rows rid [(insights_status, SqlText "processing")] (recordings d)).
  set (d1 := {| users := users d; recordings := rows1; recordings_seq := recordings_seq d |}).
  match goal with |- context [run _ _ (indexVideo _ _ _) ?x] => set (w1 := x) end.
  destruct (run_indexVideo_success interference sdk (fun x => db x = Some d1)
              vid key w1 t s v4) as (w3 & I & D3); try assumption.
  { intros c w0 H. rewrite Q. exact H. }
  { intros line w0 H. rewrite db_logged. exact H. }
  { reflexivity. }
  rewrite I. cbn [run_then].
  unfold store_result. cbn [try_catch bind ret throw proc_monad]. rewrite Ts.
  cbn [proc_bind].
  match goal with |- context [Store_update rid ?x] => set (data := x) end.
  destruct (ready_entries t []) as (e0 & es & E).
  fold data in E.
  pose proof (run_ready_update interference sdk rid vid data w3 e0 es E) as R.
  cbn [proc_bind] in R. rewrite R, D3. clear R.
  assert (exists sets,
             bind_all (defined_entries data) = Ok sets /\
             sets = (insights_status, SqlText "ready")
                    :: (if truthy t then [(insights, SqlText (JSON_stringify t))] else []))
    as (sets & B & Hsets).
  { unfold data. destruct (truthy t); eexists; split; reflexivity. }
  rewrite B. cbn [run_else app].
  do 2 eexists. split; [reflexivity|]. split.
  - cbn [calls_made]. rewrite calls_made_app, calls_made_calls. apply app_nil_r.
  - rewrite rows_logged. cbn [rows with_rows db recordings]. unfold rows1, updated_rows.
    unfold d1. cbn [recordings]. unfold rows1, updated_rows.
    rewrite map_map. apply Forall2_map_r. intro a.
    destruct (Recording.id a =? rid) eqn:Ea.
    + rewrite apply_sets_id, Ea. split; [intro N; apply Z.eqb_eq in Ea; contradiction|].
      intros _. apply Z.eqb_eq in Ea. subst sets.
      destruct a. simpl in *. destruct (truthy t); simpl; repeat split; assumption.
    + rewrite Ea. split; [reflexivity|].
      intro Y. apply Z.eqb_neq in Ea. contradiction.
Qed.

End Indexing.

(** ** What a run leaves alone *)

Lemma kept_refl rid a : kept_by_indexing rid a a.
Proof. repeat split. Qed.

Lemma kept_trans rid a b c :
  kept_by_indexing rid a b -> kept_by_indexing rid b c -> kept_by_indexing rid a c.
Proof.
  intros (A1 & A2 & A3 & A4 & A5 & A6) (B1 & B2 & B3 & B4 & B5 & B6).
  repeat split; try congruence.
  intro N. rewrite (A6 N) in *. exact (B6 N).
Qed.

Lemma cell_of_text_inj x y : cell_of_text x = cell_of_text y -> x = y.
Proof. destruct x, y; simpl; congruence. Qed.

Lemma indexing_update_kept rid data w r w' :
  indexing_update data ->
  updateRecording rid data w = (r, w') ->
  Forall2 (kept_by_indexing rid) (rows w) (rows w').
Proof.
  intros (A1 & A2 & A3 & A4) H. rewrite updateRecording_eq in H.
  assert (Forall2 (kept_by_indexing rid) (rows w) (rows w)) as Same
    by (apply Forall2_same, kept_refl).
  destruct (defined_entries data) as [|e0 es] eqn:E; [injection H as _ <-; exact Same|].
  destruct (db w) as [d|] eqn:D; [|injection H as _ <-; exact Same].
  rewrite <- E in H.
  destruct (bind_all (defined_entries data)) as [sets|e] eqn:B;
    [|injection H as _ <-; exact Same].
  injection H as _ <-. unfold rows at 1. rewrite D. cbn [rows with_rows db recordings].
  apply Forall2_map_r. intro a.
  destruct (Recording.id a =? rid) eqn:Ea; [|apply kept_refl].
  pose proof (apply_sets_frame video_id sets (avoids_bound _ _ _ A1 B) a) as F1.
  pose proof (apply_sets_frame session_id sets (avoids_bound _ _ _ A2 B) a) as F2.
  pose proof (apply_sets_frame duration sets (avoids_bound _ _ _ A3 B) a) as F3.
  pose proof (apply_sets_frame created_at sets (avoids_bound _ _ _ A4 B) a) as F4.
  cbn [column_value] in F1, F2, F3, F4.
  apply cell_of_text_inj in F1, F2, F4.
  split; [apply apply_sets_id|]. repeat split; try assumption.
  intro N. apply Z.eqb_eq in Ea. contradiction.
Qed.

Lemma run_indexing_only interference sdk rid p :
  (forall c w0, db (interference c w0) = db w0) ->
  indexing_only rid p ->
  forall w,
    Forall2 (kept_by_indexing rid) (rows w) (rows (snd (fst (run interference sdk p w)))).
Proof.
  intros Q. induction 1 as [|e|line k F IH|c k F IH|i k F IH|data k U F IH]; intro w;
    cbn [run].
  - apply Forall2_same, kept_refl.
  - apply Forall2_same, kept_refl.
  - specialize (IH (logged line w)). rewrite rows_logged in IH. exact IH.
  - specialize (IH (sdk c) (interference c w)).
    rewrite (rows_same_db w _ (Q c w)) in IH.
    destruct (run interference sdk (k (sdk c)) (interference c w)) as [[out w'] t].
    exact IH.
  - rewrite getRecordingById_eq. apply IH.
  - destruct (updateRecording rid data w) as [r w1] eqn:W.
    pose proof (indexing_update_kept rid data w r w1 U W) as R1.
    specialize (IH r w1).
    destruct (run interference sdk (k r) w1) as [[out w'] t].
    destruct r; cbn [fst snd] in *;
      exact (Forall2_compose _ _ _ (kept_trans rid) _ _ _ R1 IH).
Qed.

Ltac index_tree :=
  repeat first
    [ apply indexing_return
    | apply indexing_raise
    | apply indexing_console
    | apply indexing_external; intros [[| |?|?|]|[?|]]; cbn
    | apply indexing_get; intros [[?|]|?]; cbn
    | apply indexing_write; [repeat split; reflexivity|intros [[]|?]; cbn]
    | match goal with
      | |- context [if ?b then _ else _] => destruct b; cbn
      end ].

Lemma processIndexingBackground_indexing_only rid vid key :
  indexing_only rid (processIndexingBackground rid vid key).
Proof.
  unfold processIndexingBackground, indexVideo, store_result, on_error, method, proc_log.
  cbn. index_tree.
Qed.

(** X28. A run of the background task, whatever the SDK answers and however it
    ends, leaves rows in place and in order; it changes no row with another
    id; and in the rows with its id the video id, the session id, the
    duration and the creation time stay as the delivery stored them.  The
    rest of the program does not touch the database while the task waits. *)
Theorem a_run_keeps_what_the_delivery_stored interference sdk rid vid key w :
  (forall c w0, db (interference c w0) = db w0) ->
  exists w' t,
    run interference sdk (processIndexingBackground rid vid key) w = (Ok tt, w', t) /\
    Forall2 (kept_by_indexing rid) (rows w) (rows w').
Proof.
  intro Q.
  destruct (run_processIndexingBackground interference sdk rid vid key w)
    as (w' & t & R & _).
  exists w', t. split; [exact R|].
  pose proof (run_indexing_only interference sdk rid _ Q
                (processIndexingBackground_indexing_only rid vid key) w) as K.
  rewrite R in K. exact K.
Qed.

(** ** A delivery with a video id that another row has *)

Lemma video_row_first v pre x post :
  (forall a, In a pre -> Recording.video_id a <> Some v) ->
  Recording.video_id x = Some v ->
  video_row (Some v) (pre ++ x :: post) = Some x.
Proof.
  intros P E. unfold video_row, getOne. rewrite filter_app.
  assert (filter (fun r => sql_text_eq (Recording.video_id r) (Some v)) pre = []) as ->.
  { induction pre as [|a pre IH]; simpl; [reflexivity|].
    rewrite IH by (intros b I; apply P; right; exact I).
    specialize (P a (or_introl eq_refl)).
    destruct (Recording.video_id a) as [s|]; simpl; [|reflexivity].
    destruct (String.eqb_spec s v); [congruence|reflexivity]. }
  simpl. rewrite E. simpl. rewrite String.eqb_refl. reflexivity.
Qed.

Lemma redelivery_status_pending vid su pu sets a :
  bind_all (defined_entries (redelivery vid su pu)) = Ok sets ->
  Recording.insights_status (apply_sets sets a) = Some "pending".
Proof.
  intro B. unfold redelivery, defined_entries in B. simpl in B.
  destruct a as [i v s p sid du ca ins st].
  destruct vid, su, pu; simpl in B; try discriminate B; injection B as <-; reflexivity.
Qed.

(** X29. A delivery for a session that has a row, carrying a video id
    that an earlier row of the table already holds: the handler writes the
    video id and ['pending'] to the row of the session, and then starts the
    indexing on the row it finds by video id, which is the earlier one.  When
    the handler returns, the earlier row is ['processing'], whatever its
    status was, and the row of the session is ['pending'] with no task of
    its own. *)
Theorem redelivery_indexes_the_first_row_with_the_video_id
    w d sid v2 su2 pu2 r pre x post u key :
  db w = Some d -> v2 <> "" -> storable su2 -> storable pu2 ->
  session_row (Some sid) (recordings d) = Some r ->
  recordings d = (pre ++ x :: post)%list ->
  (forall a, In a pre ->
             Recording.id a <> Recording.id r /\ Recording.video_id a <> Some v2) ->
  Recording.video_id x = Some v2 -> Recording.id x <> Recording.id r ->
  latest_user (users d) = Some u -> User.api_key u = Some key -> key <> "" ->
  exists w2 k,
    webhook (exported (JString sid) (JString v2) su2 pu2) w = (ok_received, w2) /\
    pool w2 = (pool w ++ [External (connect {| apiKey := key; baseUrl := None |}) k])%list /\
    has_status (Recording.id x) "processing" w2 /\
    has_status (Recording.id r) "pending" w2 /\
    (forall b, In b (rows w2) -> Recording.id b = Recording.id r ->
               Recording.video_id b = Some v2).
Proof.
  intros D N Hs Hp S Split Pre Vx Nx L K Nk.
  destruct (storable_bound v2 su2 pu2 N Hs Hp) as (sets & B).
  rewrite webhook_exported.
  rewrite (exported_update (JString v2) su2 pu2 (JString sid) (logged _ w) d (SqlText sid)
             r sets D (nonempty_truthy v2 N) eq_refl S B).
  assert (updated_rows (Recording.id r) sets (recordings d) =
          (pre ++ x :: updated_rows (Recording.id r) sets post)%list) as U.
  { rewrite Split, updated_rows_app.
    rewrite updated_rows_absent by (intros a I; exact (proj1 (Pre a I))).
    unfold updated_rows at 1. cbn [map].
    destruct (Z.eqb_spec (Recording.id x) (Recording.id r)); [contradiction|reflexivity]. }
  match goal with
  | |- context [schedule_indexing ?v ?y] =>
      destruct (schedule_indexing_key v (SqlText v2) y _ u key x eq_refl eq_refl L K Nk)
        as (k & Sch)
  end.
  { cbn [recordings text_affinity]. rewrite U.
    apply video_row_first; [intros a I; exact (proj2 (Pre a I))|exact Vx]. }
  rewrite Sch. eexists. exists k. split; [reflexivity|].
  split; [reflexivity|].
  assert (forall b,
             In b (updated_rows (Recording.id x) [(insights_status, SqlText "processing")]
                     (updated_rows (Recording.id r) sets (recordings d))) ->
             Recording.id b = Recording.id r ->
             exists a, b = apply_sets sets a) as Shape.
  { intros b I E. unfold updated_rows in I.
    apply in_map_iff in I as (b0 & <- & I). apply in_map_iff in I as (a & <- & _).
    destruct (Z.eqb_spec (Recording.id a) (Recording.id r)) as [Ea|Ea].
    - rewrite apply_sets_id in *.
      destruct (Z.eqb_spec (Recording.id a) (Recording.id x)) as [Eb|Eb]; [congruence|].
      exists a. reflexivity.
    - destruct (Recording.id a =? Recording.id x); [rewrite apply_sets_id in E|];
        contradiction. }
  split; [|split].
  - intros b I E. rewrite rows_begun in I. exact (updated_rows_status _ _ _ b I E).
  - intros b I E. rewrite rows_begun in I. cbn [recordings] in I.
    destruct (Shape b I E) as (a & ->).
    exact (redelivery_status_pending _ _ _ sets a B).
  - intros b I E. rewrite rows_begun in I. cbn [recordings] in I.
    destruct (Shape b I E) as (a & ->).
    destruct (redelivery_video (JString v2) su2 pu2 sets (nonempty_truthy v2 N) B)
      as (pv & Bv & _).
    clear - B Hs Hp. unfold storable in *.
    destruct a. destruct su2, pu2; try congruence; simpl in B; injection B as <-;
      reflexivity.
Qed.

End Server.

(** * The [users] table *)

Lemma findUserByToken_eq token w :
  findUserByToken token w =
  (match db w with
   | Some d =>
       match bindValue token with
       | Ok p => Ok (user_by_token (text_affinity p) (users d))
       | Throws e => Throws e
       end
   | None => Throws closed_error
   end, w).
Proof.
  unfold findUserByToken. cbn. unfold sync_bind, the_db.
  destruct (db w); [|reflexivity]. cbn. destruct (bindValue token); reflexivity.
Qed.

Lemma findUserByApiKey_eq key w :
  findUserByApiKey key w =
  (match db w with
   | Some d =>
       match bindValue key with
       | Ok p => Ok (user_by_api_key (text_affinity p) (users d))
       | Throws e => Throws e
       end
   | None => Throws closed_error
   end, w).
Proof.
  unfold findUserByApiKey. cbn. unfold sync_bind, the_db.
  destruct (db w); [|reflexivity]. cbn. destruct (bindValue key); reflexivity.
Qed.

Lemma createUser_eq seq name apiKey token w :
  createUser seq name apiKey token w =
  match db w with
  | Some d =>
      match bindValue name, bindValue apiKey, bindValue token with
      | Ok n, Ok k, Ok t =>
          if token_taken (text_affinity t) (users d)
          then (Throws unique_violation, w)
          else
            (Ok (NewUser.mk (next_user_id seq (users d)) name apiKey token),
             {| db := Some {| users := (users d ++
                                [User.mk (next_user_id seq (users d)) (text_affinity n)
                                         (text_affinity k) (text_affinity t)])%list;
                              recordings := recordings d;
                              recordings_seq := recordings_seq d |};
                clock := clock w; console := console w; pool := pool w |})
      | Throws e, _, _ => (Throws e, w)
      | Ok _, Throws e, _ => (Throws e, w)
      | Ok _, Ok _, Throws e => (Throws e, w)
      end
  | None => (Throws closed_error, w)
  end.
Proof.
  unfold createUser. cbn. unfold sync_bind, the_db.
  destruct (db w) as [d|]; [|reflexivity]. cbn.
  destruct (bindValue name); cbn; [|reflexivity].
  destruct (bindValue apiKey); cbn; [|reflexivity].
  destruct (bindValue token); cbn; [|reflexivity].
  destruct (token_taken _ _); reflexivity.
Qed.

Lemma token_free token us :
  token_taken token us = false -> user_by_token token us = None.
Proof.
  unfold token_taken, user_by_token, getOne. induction us as [|u us IH]; simpl; intro H.
  - reflexivity.
  - apply orb_false_iff in H as [H1 H2]. rewrite H1. exact (IH H2).
Qed.

Lemma user_by_token_app token us us' :
  user_by_token token (us ++ us') =
  match user_by_token token us with
  | Some u => Some u
  | None => user_by_token token us'
  end.
Proof.
  unfold user_by_token, getOne. rewrite filter_app.
  destruct (filter _ us); reflexivity.
Qed.

Lemma sql_text_eq_refl s : sql_text_eq (Some s) (Some s) = true.
Proof. apply String.eqb_refl. Qed.

Lemma sql_text_eq_null stored : sql_text_eq stored None = false.
Proof. destruct stored; reflexivity. Qed.

Lemma bound_text v p : bindValue v = Ok p -> v <> JNull -> exists s, text_affinity p = Some s.
Proof.
  destruct v; simpl; intros H N; try discriminate H; try contradiction;
    injection H as <-; try destruct (is_int32 n); eexists; reflexivity.
Qed.

Lemma bound_null p : bindValue JNull = Ok p -> text_affinity p = None.
Proof. intro H. injection H as <-. reflexivity. Qed.

Lemma user_by_token_null us : user_by_token None us = None.
Proof.
  unfold user_by_token, getOne. induction us as [|u us IH]; simpl; [reflexivity|].
  rewrite sql_text_eq_null. exact IH.
Qed.

Lemma latest_user_app us u :
  latest_user (us ++ [u]) =
  match latest_user us with
  | Some b => if User.id b <? User.id u then Some u else Some b
  | None => Some u
  end.
Proof.
  unfold latest_user. rewrite fold_left_app. simpl.
  destruct (fold_left _ us None) as [b|]; [|reflexivity].
  destruct (User.id b <? User.id u); reflexivity.
Qed.

Lemma latest_user_bound us :
  match latest_user us with
  | Some b => In b us /\ User.id b <= fold_right Z.max 0 (map User.id us) 
  | None => us = []
  end.
Proof.
  induction us as [|u us IH] using rev_ind; [reflexivity|].
  rewrite latest_user_app, map_app, fold_right_app. simpl.
  assert (forall l a, a <= fold_right Z.max a l) as Mono1.
  { induction l as [|x l IHl]; intro a; simpl; [lia|]. specialize (IHl a). lia. }
  assert (forall l a b, a <= b -> fold_right Z.max a l <= fold_right Z.max b l) as Mono2.
  { induction l as [|x l IHl]; intros a b L; simpl; [exact L|].
    specialize (IHl a b L). lia. }
  pose proof (Mono1 (map User.id us) (Z.max (User.id u) 0)) as M1.
  pose proof (Mono2 (map User.id us) 0 (Z.max (User.id u) 0) ltac:(lia)) as M2.
  destruct (latest_user us) as [b|].
  - destruct IH as [I L]. destruct (User.id b <? User.id u) eqn:E.
    + split; [apply in_or_app; right; left; reflexivity|lia].
    + split; [apply in_or_app; left; exact I|lia].
  - split; [apply in_or_app; right; left; reflexivity|lia].
Qed.

Lemma ids_below_next seq us u : In u us -> User.id u < next_user_id seq us.
Proof.
  unfold next_user_id. intro I.
  assert (User.id u <= fold_right Z.max 0 (map User.id us)) as L.
  { induction us as [|x us IH]; [destruct I|]. simpl.
    destruct I as [->|I]; [lia|]. specialize (IH I). lia. }
  lia.
Qed.

Lemma tokens_app us us' : tokens (us ++ us') = (tokens us ++ tokens us')%list.
Proof. apply flat_map_app. Qed.

Lemma token_free_tokens s us : token_taken (Some s) us = false -> ~ In s (tokens us).
Proof.
  unfold token_taken, tokens. induction us as [|u us IH]; simpl; intros H I; [exact I|].
  apply orb_false_iff in H as [H1 H2]. apply in_app_or in I as [I|I].
  - destruct (User.access_token u) as [t|]; [|exact I].
    destruct I as [->|[]]. rewrite sql_text_eq_refl in H1. discriminate H1.
  - exact (IH H2 I).
Qed.

Lemma user_by_token_taken token us u :
  user_by_token token us = Some u -> token_taken token us = true.
Proof.
  unfold user_by_token, token_taken, getOne. intro H.
  apply existsb_exists. exists u.
  assert (In u (filter (fun x => sql_text_eq (User.access_token x) token) us)) as I.
  { destruct (filter _ us) as [|x xs]; [discriminate H|].
    injection H as ->. left. reflexivity. }
  apply filter_In in I. exact I.
Qed.

(** X8.  A call [createUser name apiKey accessToken] that returns, for
    arguments that are strings, [null] or numbers of at most fifteen digits,
    has added one row to [users] (and touched nothing else); looking the
    access token up afterwards finds exactly that row, with the id
    [createUser] returned, unless the token is [null], which is stored as
    NULL and which no lookup finds. *)
Theorem createUser_then_findUserByToken seq name apiKey token w res w' :
  plain name -> plain apiKey -> plain token ->
  createUser seq name apiKey token w = (Ok res, w') ->
  exists n k t,
    bindValue name = Ok n /\ bindValue apiKey = Ok k /\ bindValue token = Ok t /\
    let u := User.mk (NewUser.id res) (text_affinity n) (text_affinity k) (text_affinity t) in
    registered w' = (registered w ++ [u])%list /\
    rows w' = rows w /\
    (token <> JNull -> findUserByToken token w' = (Ok (Some u), w')) /\
    (token = JNull -> findUserByToken token w' = (Ok None, w')).
Proof.
  intros _ _ _. rewrite createUser_eq. intro H.
  destruct (db w) as [d|] eqn:D; [|discriminate H].
  destruct (bindValue name) as [n|] eqn:Bn; [|discriminate H].
  destruct (bindValue apiKey) as [k|] eqn:Bk; [|discriminate H].
  destruct (bindValue token) as [t|] eqn:Bt; [|discriminate H].
  destruct (token_taken (text_affinity t) (users d)) eqn:T; [discriminate H|].
  injection H as <- <-. exists n, k, t. repeat split; try reflexivity.
  - unfold registered. rewrite D. reflexivity.
  - unfold rows. rewrite D. reflexivity.
  - intro N. rewrite findUserByToken_eq. cbn [db users]. rewrite Bt.
    rewrite user_by_token_app, (token_free _ _ T).
    destruct (bound_text _ _ Bt N) as (s & E). rewrite E.
    unfold user_by_token. cbn [filter User.access_token NewUser.id].
    rewrite sql_text_eq_refl. reflexivity.
  - intros ->. rewrite findUserByToken_eq. cbn [db users]. rewrite Bt.
    rewrite (bound_null _ Bt), user_by_token_null. reflexivity.
Qed.

(** X9.  [access_token] is [UNIQUE]: a token that [findUserByToken] finds
    cannot be inserted again ([createUser] throws, with the constraint
    violation when its other two arguments can be bound); a call that throws
    leaves the state as it was; and a call that returns keeps the access
    tokens of the table pairwise distinct. *)
Theorem createUser_keeps_tokens_unique seq name apiKey token w :
  (forall u, findUserByToken token w = (Ok (Some u), w) ->
     exists e, createUser seq name apiKey token w = (Throws e, w) /\
               ((exists n k, bindValue name = Ok n /\ bindValue apiKey = Ok k) ->
                e = unique_violation)) /\
  (forall e w', createUser seq name apiKey token w = (Throws e, w') -> w' = w) /\
  (forall res w', createUser seq name apiKey token w = (Ok res, w') ->
     NoDup (tokens (registered w)) -> NoDup (tokens (registered w'))).
Proof.
  rewrite createUser_eq. split; [|split].
  - intros u F. rewrite findUserByToken_eq in F.
    destruct (db w) as [d|]; [|discriminate F].
    destruct (bindValue token) as [t|]; [|discriminate F].
    injection F as F. rewrite (user_by_token_taken _ _ _ F).
    destruct (bindValue name) as [n|en]; [destruct (bindValue apiKey) as [k|ek]|].
    + eexists. split; [reflexivity|]. intros _. reflexivity.
    + eexists. split; [reflexivity|]. intros (n' & k' & _ & E). discriminate E.
    + eexists. split; [reflexivity|]. intros (n' & k' & E & _). discriminate E.
  - intros e w' H. destruct (db w) as [d|]; [|injection H as _ <-; reflexivity].
    destruct (bindValue name); [|injection H as _ <-; reflexivity].
    destruct (bindValue apiKey); [|injection H as _ <-; reflexivity].
    destruct (bindValue token); [|injection H as _ <-; reflexivity].
    destruct (token_taken _ _); [injection H as _ <-; reflexivity|discriminate H].
  - intros res w' H N. unfold registered in *.
    destruct (db w) as [d|]; [|discriminate H].
    destruct (bindValue name) as [n|]; [|discriminate H].
    destruct (bindValue apiKey) as [k|]; [|discriminate H].
    destruct (bindValue token) as [t|]; [|discriminate H].
    destruct (token_taken (text_affinity t) (users d)) eqn:T; [discriminate H|].
    injection H as _ <-. cbn [db users]. rewrite tokens_app.
    unfold tokens at 2. cbn [flat_map User.access_token].
    destruct (text_affinity t) as [s|]; cbn [app]; [|rewrite app_nil_r; exact N].
    apply (Permutation_NoDup (l := s :: tokens (users d))).
    + apply Permutation_cons_append.
    + constructor; [exact (token_free_tokens s _ T)|exact N].
Qed.

(** X10.  Ids of [users] only grow: the id [createUser] returns is greater
    than every id in the table (and than the sequence value), so the row it
    adds is the one [getLatestUser] returns afterwards. *)
Theorem createUser_makes_the_latest_user seq name apiKey token w res w' :
  createUser seq name apiKey token w = (Ok res, w') ->
  seq < NewUser.id res /\
  (forall u, In u (registered w) -> User.id u < NewUser.id res) /\
  exists u,
    getLatestUser w' = (Ok (Some u), w') /\
    User.id u = NewUser.id res /\
    registered w' = (registered w ++ [u])%list.
Proof.
  rewrite createUser_eq. intro H. unfold registered.
  destruct (db w) as [d|] eqn:D; [|discriminate H].
  destruct (bindValue name) as [n|]; [|discriminate H].
  destruct (bindValue apiKey) as [k|]; [|discriminate H].
  destruct (bindValue token) as [t|]; [|discriminate H].
  destruct (token_taken (text_affinity t) (users d)); [discriminate H|].
  injection H as <- <-. cbn [NewUser.id db users].
  split; [unfold next_user_id; lia|]. split; [intros u I; apply ids_below_next, I|].
  eexists. split; [|split; [|reflexivity]].
  - rewrite getLatestUser_eq. cbn [db users]. rewrite latest_user_app.
    pose proof (latest_user_bound (users d)) as B.
    destruct (latest_user (users d)) as [b|]; [|reflexivity].
    destruct B as [I _]. pose proof (ids_below_next seq _ _ I) as L.
    cbn [User.id]. apply Z.ltb_lt in L. rewrite L. reflexivity.
  - reflexivity.
Qed.

(** * The [recordings] table *)

(** X11.  Ids of [recordings] are never reused: the id [createRecording]
    returns is greater than every id in the table, the row it appends
    carries it and the current time, and [getRecordingById] on that id finds
    exactly that row. *)
Theorem createRecording_then_getRecordingById data w res w' :
  createRecording data w = (Ok res, w') ->
  (forall r, In r (rows w) -> Recording.id r < fst res) /\
  snd res = data /\
  exists row,
    rows w' = (rows w ++ [row])%list /\
    Recording.id row = fst res /\
    Recording.created_at row = Some (clock w) /\
    getRecordingById (fst res) w' = (Ok (Some row), w').
Proof.
  rewrite createRecording_eq. intro H. unfold rows.
  destruct (db w) as [d|] eqn:D; [|discriminate H].
  destruct (new_row data d (clock w)) as [row|] eqn:N; [|discriminate H].
  injection H as <- <-. cbn [fst snd with_rows db recordings].
  pose proof (new_row_id _ _ _ _ N) as Id.
  split; [intros r I; rewrite Id; apply rowids_below_next, I|].
  split; [reflexivity|]. exists row. split; [reflexivity|]. split; [reflexivity|].
  split; [exact (new_row_created _ _ _ _ N)|].
  rewrite getRecordingById_eq. cbn [with_rows db recordings].
  rewrite filter_app, row_by_id_absent.
  - simpl. rewrite Z.eqb_refl. reflexivity.
  - intros r I E. pose proof (rowids_below_next d r I). lia.
Qed.

Lemma record_ext r r' :
  Recording.id r = Recording.id r' ->
  (forall c, column_value c r = column_value c r') -> r = r'.
Proof.
  intros Hid H.
  pose proof (H video_id) as H1. pose proof (H stream_url) as H2.
  pose proof (H player_url) as H3. pose proof (H session_id) as H4.
  pose proof (H duration) as H5. pose proof (H created_at) as H6.
  pose proof (H insights) as H7. pose proof (H insights_status) as H8.
  destruct r as [i a b c d e f g h], r' as [i' a' b' c' d' e' f' g' h'].
  simpl in *.
  assert (forall x y : option string, cell_of_text x = cell_of_text y -> x = y) as Inj.
  { intros [x|] [y|] E; simpl in E; congruence. }
  apply Inj in H1, H2, H3, H4, H6, H7, H8. congruence.
Qed.

Lemma apply_sets_column sets c :
  (exists p, forall r, column_value c (apply_sets sets r) = stored c p) \/
  (forall r, column_value c (apply_sets sets r) = column_value c r).
Proof.
  induction sets as [|[c' p'] sets IH].
  - right. reflexivity.
  - destruct IH as [(p & Hp)|Hf].
    + left. exists p. intro r. rewrite apply_sets_cons. apply Hp.
    + destruct (column_eqb c' c) eqn:E.
      * apply column_eqb_eq in E. subst c'. left. exists p'. intro r.
        rewrite apply_sets_cons, Hf. apply set_column_same.
      * right. intro r. rewrite apply_sets_cons, Hf. apply set_column_other.
        intro E'. subst c'. rewrite column_eqb_refl in E. discriminate E.
Qed.

Lemma apply_sets_twice sets r : apply_sets sets (apply_sets sets r) = apply_sets sets r.
Proof.
  apply record_ext; [apply apply_sets_id|].
  intro c. destruct (apply_sets_column sets c) as [(p & Hp)|Hf].
  - rewrite !Hp. reflexivity.
  - apply Hf.
Qed.

Lemma updated_rows_twice id sets rs :
  updated_rows id sets (updated_rows id sets rs) = updated_rows id sets rs.
Proof.
  unfold updated_rows. rewrite map_map. apply map_ext. intro r.
  destruct (Recording.id r =? id) eqn:E.
  - rewrite apply_sets_id, E. apply apply_sets_twice.
  - rewrite E. reflexivity.
Qed.

(** X12.  [updateRecording] is idempotent: repeating a call that returned,
    with the same id and the same update map, changes nothing more. *)
Theorem updateRecording_twice_is_once id data w w' :
  updateRecording id data w = (Ok tt, w') ->
  updateRecording id data w' = (Ok tt, w').
Proof.
  intro H. apply updateRecording_ok in H as [[E ->]|(d & sets & D & B & ->)].
  - rewrite updateRecording_eq, E. reflexivity.
  - rewrite updateRecording_eq. cbn [with_rows db]. rewrite B.
    destruct (defined_entries data) as [|e es]; [reflexivity|].
    unfold with_rows. cbn [users recordings recordings_seq clock console pool].
    rewrite updated_rows_twice. reflexivity.
Qed.

Lemma bind_all_storable (data : updates) :
  (forall c v, In (c, v) data -> v <> JObject) ->
  exists sets, bind_all (defined_entries data) = Ok sets.
Proof.
  unfold defined_entries. induction data as [|[c v] data IH]; intro H; simpl.
  - eexists. reflexivity.
  - destruct IH as (sets & B); [intros c' v' I; apply (H c' v'); right; exact I|].
    pose proof (H c v (or_introl eq_refl)) as N.
    destruct v; simpl; try contradiction; try (exists sets; exact B);
      rewrite B; eexists; reflexivity.
Qed.

(** X13.  Updating an id that no row has is not an error: with the database
    open and values sql.js can bind, [updateRecording] returns, the table is
    as before, and [getRecordingById] still finds nothing for that id. *)
Theorem updateRecording_of_a_missing_id_changes_nothing id data w :
  db w <> None ->
  (forall r, In r (rows w) -> Recording.id r <> id) ->
  (forall c v, In (c, v) data -> v <> JObject) ->
  exists w',
    updateRecording id data w = (Ok tt, w') /\
    rows w' = rows w /\ registered w' = registered w /\
    getRecordingById id w' = (Ok None, w').
Proof.
  intros Open Missing Storable. unfold rows, registered in *.
  destruct (db w) as [d|] eqn:D; [|contradiction].
  destruct (bind_all_storable data Storable) as (sets & B).
  rewrite updateRecording_eq, D, B.
  destruct (defined_entries data) as [|e es].
  - exists w. rewrite D. repeat split.
    rewrite getRecordingById_eq, D, (row_by_id_absent id _ Missing). reflexivity.
  - eexists. split; [reflexivity|]. cbn [with_rows db recordings users].
    rewrite (updated_rows_absent id sets _ Missing). repeat split.
    rewrite getRecordingById_eq. unfold with_rows. cbn [db recordings].
    rewrite (row_by_id_absent id _ Missing). reflexivity.
Qed.

(** X14.  Once [closeDatabase] has run, every query throws (reading a
    property of [null]) and leaves the state alone; the one exception is
    [updateRecording] with no defined value in its update map, which returns
    before it touches the database.  Closing again does nothing. *)
Theorem closed_database_refuses_every_query w :
  let w0 := snd (closeDatabase w) in
  closeDatabase w0 = (Ok tt, w0) /\
  (forall v, findRecordingBySessionId v w0 = (Throws closed_error, w0)) /\
  (forall v, findRecordingByVideoId v w0 = (Throws closed_error, w0)) /\
  (forall id, getRecordingById id w0 = (Throws closed_error, w0)) /\
  (forall limit, getRecordings limit w0 = (Throws closed_error, w0)) /\
  (forall data, createRecording data w0 = (Throws closed_error, w0)) /\
  getLatestUser w0 = (Throws closed_error, w0) /\
  (forall v, findUserByToken v w0 = (Throws closed_error, w0)) /\
  (forall v, findUserByApiKey v w0 = (Throws closed_error, w0)) /\
  (forall seq n k t, createUser seq n k t w0 = (Throws closed_error, w0)) /\
  (forall id data,
      updateRecording id data w0 =
      (if existsb (fun '(_, v) => defined v) data then Throws closed_error else Ok tt, w0)).
Proof.
  cbv zeta. repeat split; intros; try reflexivity.
  rewrite updateRecording_eq. cbn [closeDatabase snd db]. unfold defined_entries.
  induction data as [|[c v] data IH]; simpl; [reflexivity|].
  destruct (defined v); simpl; [reflexivity|exact IH].
Qed.

(** X15.  No lookup finds a row through [null]: [column = NULL] is never
    true, also for the rows that hold NULL in that column.  And [undefined]
    cannot be bound at all: the lookup throws. *)
Theorem null_finds_no_row w d :
  db w = Some d ->
  findRecordingBySessionId JNull w = (Ok None, w) /\
  findRecordingByVideoId JNull w = (Ok None, w) /\
  findUserByToken JNull w = (Ok None, w) /\
  findUserByApiKey JNull w = (Ok None, w) /\
  (exists e, findRecordingBySessionId JUndefined w = (Throws e, w) /\
             findRecordingByVideoId JUndefined w = (Throws e, w) /\
             findUserByToken JUndefined w = (Throws e, w) /\
             findUserByApiKey JUndefined w = (Throws e, w)).
Proof.
  intro D.
  assert (forall (A : Type) (f : A -> option string) (l : list A),
             filter (fun x => sql_text_eq (f x) None) l = []) as Null.
  { intros A f l. induction l as [|x l IH]; simpl; [reflexivity|].
    rewrite sql_text_eq_null. exact IH. }
  rewrite !findRecordingBySessionId_eq, !findRecordingByVideoId_eq,
    !findUserByToken_eq, !findUserByApiKey_eq, D.
  cbn [bindValue text_affinity].
  unfold session_row, video_row, user_by_token, user_by_api_key.
  rewrite (Null _ Recording.session_id), (Null _ Recording.video_id),
    (Null _ User.access_token), (Null _ User.api_key).
  repeat split. eexists. repeat split.
Qed.

(** X16.  A negative limit is no limit: [getRecordings n] with [n] below
    0 and above -2^63 returns the whole table, most recent first.  At -2^63
    and below the limit is refused by SQLite, and the call throws.  Without
    argument the limit is 20. *)
Theorem getRecordings_negative_limit_lists_everything n w d :
  db w = Some d ->
  getRecordings None w = getRecordings (Some 20) w /\
  (- 2 ^ 63 < n < 0 ->
   exists listing,
     getRecordings (Some n) w = (Ok listing, w) /\
     Sorted newest_first listing /\
     Permutation listing (recordings d)) /\
  (n <= - 2 ^ 63 ->
   getRecordings (Some n) w = (Throws (Exn "datatype mismatch"), w)).
Proof.
  intro D. split; [reflexivity|]. rewrite getRecordings_eq, D. split.
  - intros [L Hn].
    rewrite limit_value_taken by (unfold smallest_int64, largest_int64; lia).
    exists (order_by_created_at_desc (recordings d)). split; [|split].
    + unfold sql_limit. apply Z.ltb_lt in Hn. rewrite Hn. reflexivity.
    + apply order_sorted.
    + apply order_perm.
  - intro L. rewrite limit_value_refused; [reflexivity|].
    left. unfold smallest_int64. exact L.
Qed.

(** * The tunnel manager *)

Lemma prefix_drop p : forall s, String.prefix p s = true -> s = p ++ drop (String.length p) s.
Proof.
  induction p as [|a p IH]; intros [|b s]; simpl; intro H; try reflexivity;
    try discriminate H.
  destruct (ascii_dec a b) as [->|]; [|discriminate H].
  f_equal. apply IH, H.
Qed.

Lemma prefix_nil s : String.prefix "" s = true.
Proof. destruct s; reflexivity. Qed.

Lemma span_label_split s :
  s = fst (span_label s) ++ snd (span_label s) /\ label_ok (fst (span_label s)) = true.
Proof.
  induction s as [|c s [IH1 IH2]]; simpl; [split; reflexivity|].
  destruct (is_label_char c) eqn:E; [|split; reflexivity].
  destruct (span_label s) as [label rest]. simpl in *. rewrite E, IH2.
  split; [f_equal; exact IH1|reflexivity].
Qed.

Lemma span_label_app label rest :
  label_ok label = true ->
  match rest with
  | EmptyString => True
  | String c _ => is_label_char c = false
  end ->
  span_label (label ++ rest) = (label, rest).
Proof.
  intros L R. induction label as [|c label IH]; simpl in *.
  - destruct rest as [|c r]; [reflexivity|]. simpl. rewrite R. reflexivity.
  - apply andb_true_iff in L as [L1 L2]. rewrite L1, (IH L2). reflexivity.
Qed.

Lemma match_tunnel_url_eq c s :
  match_tunnel_url (String c s) =
  if String.prefix "https://" (String c s) then
    let (label, rest) := span_label (drop 8 (String c s)) in
    if negb (label =? "")%string && String.prefix ".trycloudflare.com" rest
    then Some ("https://" ++ label ++ ".trycloudflare.com")
    else match_tunnel_url s
  else match_tunnel_url s.
Proof. reflexivity. Qed.

Lemma match_tunnel_url_shape s : forall u,
  match_tunnel_url s = Some u ->
  exists before label rest,
    s = before ++ u ++ rest /\
    u = "https://" ++ label ++ ".trycloudflare.com" /\
    label <> "" /\ label_ok label = true.
Proof.
  induction s as [|c s IH]; intros u H; [discriminate H|].
  rewrite match_tunnel_url_eq in H.
  assert (match_tunnel_url s = Some u ->
          exists before label rest,
            String c s = before ++ u ++ rest /\
            u = "https://" ++ label ++ ".trycloudflare.com" /\
            label <> "" /\ label_ok label = true) as Later.
  { intro H'. destruct (IH u H') as (before & label & rest & E & Hu & N & L).
    exists (String c before), label, rest. rewrite E. repeat split; assumption. }
  destruct (String.prefix "https://" (String c s)) eqn:P; [|exact (Later H)].
  pose proof (span_label_split (drop 8 (String c s))) as [Sp L].
  destruct (span_label (drop 8 (String c s))) as [label rest] eqn:Sl.
  cbn [fst snd] in Sp, L.
  destruct (negb (label =? "")%string && String.prefix ".trycloudflare.com" rest) eqn:C;
    [|exact (Later H)].
  apply andb_true_iff in C as [C1 C2]. injection H as <-.
  exists "", label, (drop 18 rest). split; [|split; [reflexivity|split; [|exact L]]].
  - rewrite (prefix_drop _ _ P). cbn [String.length]. rewrite Sp.
    rewrite (prefix_drop _ _ C2) at 1. cbn [String.length].
    cbn [append]. rewrite !append_assoc. reflexivity.
  - intros ->. discriminate C1.
Qed.

Lemma match_tunnel_url_complete before label rest :
  label <> "" -> label_ok label = true ->
  exists u,
    match_tunnel_url (before ++ "https://" ++ label ++ ".trycloudflare.com" ++ rest)
    = Some u.
Proof.
  intros N L. induction before as [|c before IH].
  - set (tail := ".trycloudflare.com" ++ rest).
    assert (span_label (label ++ tail) = (label, tail)) as Sp
      by (apply span_label_app; [exact L|reflexivity]).
    assert (String.prefix ".trycloudflare.com" tail = true) as Pt by apply prefix_app.
    cbn [append]. rewrite match_tunnel_url_eq. cbn [String.prefix drop].
    repeat match goal with |- context [ascii_dec ?a ?a] =>
      destruct (ascii_dec a a) as [_|X]; [|contradiction] end.
    rewrite prefix_nil, Sp, Pt.
    assert ((label =? "")%string = false) as -> by (apply String.eqb_neq, N).
    eexists. reflexivity.
  - cbn [append]. rewrite match_tunnel_url_eq.
    destruct IH as (u & Hu). cbn [append] in Hu.
    destruct (String.prefix _ _); [|eauto].
    destruct (span_label _) as [l r].
    destruct (negb _ && _); eauto.
Qed.

(** X17.  The pattern [handleOutput] looks for.  Whatever it extracts from a
    chunk of cloudflared's output is a piece of that chunk of the form
    [https://<label>.trycloudflare.com], with a label that is not empty and
    is made of letters, digits and hyphens; and a chunk that contains such a
    piece does have one extracted.  Nothing is found in an empty chunk. *)
Theorem match_tunnel_url_finds_a_quick_tunnel_url :
  (forall s u,
      match_tunnel_url s = Some u ->
      exists before label rest,
        s = before ++ u ++ rest /\
        u = "https://" ++ label ++ ".trycloudflare.com" /\
        label <> "" /\ label_ok label = true) /\
  (forall before label rest,
      label <> "" -> label_ok label = true ->
      exists u,
        match_tunnel_url (before ++ "https://" ++ label ++ ".trycloudflare.com" ++ rest)
        = Some u) /\
  match_tunnel_url "" = None.
Proof.
  split; [exact match_tunnel_url_shape|].
  split; [exact match_tunnel_url_complete|reflexivity].
Qed.

Lemma start_consistent port existing spawned :
  tunnel_consistent (Tunnel.start port existing spawned Tunnel.fresh).
Proof.
  unfold tunnel_consistent, Tunnel.start.
  destruct (truthy existing) eqn:T; [|destruct spawned as [[]|[what|]]]; simpl.
  - repeat split; try (simpl; lia); try discriminate. 
  - repeat split; try (simpl; lia); try discriminate; try contradiction.
  - repeat split; try (simpl; lia); try discriminate; try contradiction.
  - repeat split; try (simpl; lia); try discriminate; try contradiction.
Qed.

Lemma fire_consistent e m : tunnel_consistent m -> tunnel_consistent (Tunnel.fire e m).
Proof.
  unfold tunnel_consistent, Tunnel.fire, Tunnel.handleOutput, Tunnel.settle.
  intros (A & B & C & D).
  destruct (Tunnel.listening m) as [[port resolved timer]|] eqn:L;
    [|rewrite L; auto].
  cbn [Tunnel.resolved Tunnel.timer Tunnel.port] in *. destruct A as [A1 A2].
  assert (resolved = false -> Tunnel.publicUrl m = None /\ Tunnel.webhookUrl m = JNull) as Idle.
  { intro R. apply A1 in R. split.
    - destruct (Tunnel.publicUrl m) as [u|] eqn:P; [|reflexivity].
      specialize (C u eq_refl). rewrite C in D.
      rewrite R in D. specialize (D ltac:(discriminate)). discriminate D.
    - destruct (Tunnel.webhookUrl m) eqn:W; try reflexivity;
        rewrite R in D; specialize (D ltac:(discriminate)); discriminate D. }
  destruct e as [data|code|code|].
  - destruct (match_tunnel_url data) as [url|]; [|rewrite L; auto].
    destruct resolved; cbn [negb]; [rewrite L; auto|].
    cbn. rewrite (proj1 A1 eq_refl). repeat split; try discriminate; try (simpl; lia).
    intros u E. injection E as <-. reflexivity.
  - destruct resolved; cbn [negb]; [rewrite L; auto|].
    destruct (Idle eq_refl) as [P W].
    cbn. rewrite (proj1 A1 eq_refl), P, W. repeat split; try discriminate; try (simpl; lia); try contradiction.
  - destruct resolved; cbn [negb].
    + cbn. rewrite L. cbn. repeat split; try assumption; try discriminate;
        try apply A1.
    + destruct (Idle eq_refl) as [P W].
      cbn. rewrite (proj1 A1 eq_refl), W. repeat split; try discriminate; try (simpl; lia); try contradiction.
  - destruct timer; [|rewrite L; auto].
    destruct resolved; cbn [negb].
    + specialize (A2 eq_refl). discriminate A2.
    + destruct (Idle eq_refl) as [P W].
      cbn. rewrite (proj1 A1 eq_refl), P, W. repeat split; try discriminate; try (simpl; lia); try contradiction.
Qed.

Lemma stop_consistent killed m :
  tunnel_consistent m -> tunnel_consistent (snd (Tunnel.stop killed m)).
Proof.
  unfold tunnel_consistent, Tunnel.stop. intros (A & B & C & D).
  destruct (Tunnel.process m); [destruct killed as [[]|[what|]]|]; cbn;
    repeat split; try assumption; try discriminate; try contradiction;
    try (destruct (Tunnel.listening m); [destruct A as [A1 A2]|exact I]; split;
         [exact A1|exact A2]).
Qed.

Lemma play_consistent ops :
  forall m, tunnel_consistent m -> tunnel_consistent (Tunnel.play ops m).
Proof.
  unfold Tunnel.play. induction ops as [|o ops IH]; intros m H; simpl; [exact H|].
  apply IH. destruct o as [e|killed]; [apply fire_consistent|apply stop_consistent]; exact H.
Qed.

Lemma fire_shaped e m :
  (forall u, Tunnel.publicUrl m = Some u -> exists data, match_tunnel_url data = Some u) ->
  forall u, Tunnel.publicUrl (Tunnel.fire e m) = Some u ->
            exists data, match_tunnel_url data = Some u.
Proof.
  unfold Tunnel.fire, Tunnel.handleOutput, Tunnel.settle. intros H u.
  destruct (Tunnel.listening m) as [[port resolved timer]|]; [|apply H].
  cbn [Tunnel.resolved Tunnel.timer Tunnel.port].
  destruct e as [data|code|code|].
  - destruct (match_tunnel_url data) as [url|] eqn:M; [|apply H].
    destruct resolved; cbn; [apply H|].
    intro E. injection E as <-. exists data. exact M.
  - destruct resolved; cbn; apply H.
  - destruct resolved; cbn; discriminate.
  - destruct timer; [|apply H]. destruct resolved; cbn; apply H.
Qed.

Lemma stop_shaped killed m :
  (forall u, Tunnel.publicUrl m = Some u -> exists data, match_tunnel_url data = Some u) ->
  forall u, Tunnel.publicUrl (snd (Tunnel.stop killed m)) = Some u ->
            exists data, match_tunnel_url data = Some u.
Proof.
  unfold Tunnel.stop. intros H u.
  destruct (Tunnel.process m); [destruct killed as [[]|[what|]]|]; cbn;
    try discriminate. apply H.
Qed.

Lemma play_shaped ops : forall m,
  (forall u, Tunnel.publicUrl m = Some u -> exists data, match_tunnel_url data = Some u) ->
  forall u, Tunnel.publicUrl (Tunnel.play ops m) = Some u ->
            exists data, match_tunnel_url data = Some u.
Proof.
  unfold Tunnel.play. induction ops as [|o ops IH]; intros m H; simpl; [exact H|].
  apply IH. destruct o as [e|killed]; [apply fire_shaped|apply stop_shaped]; exact H.
Qed.

Lemma start_shaped port existing spawned u :
  Tunnel.publicUrl (Tunnel.start port existing spawned Tunnel.fresh) = Some u ->
  exists data, match_tunnel_url data = Some u.
Proof.
  unfold Tunnel.start.
  destruct (truthy existing); [|destruct spawned as [[]|[what|]]]; discriminate.
Qed.

(** X18.  One call of [start] on a new manager, followed by any events of
    the child process and calls of [stop], in any order.  The promise
    [start] returned is resolved at most once.  A webhook URL the manager
    reports is the value that promise was resolved with.  And whenever the
    manager reports that the tunnel runs, its public URL is a
    [https://<label>.trycloudflare.com] found in the output, and its webhook
    URL is that URL followed by [/api/webhook]. *)
Theorem start_resolves_once_with_what_the_manager_reports port existing spawned ops :
  let m := Tunnel.play ops (Tunnel.start port existing spawned Tunnel.fresh) in
  (List.length (Tunnel.resolutions m) <= 1)%nat /\
  (Tunnel.getWebhookUrl m <> JNull -> Tunnel.resolutions m = [Tunnel.getWebhookUrl m]) /\
  (Tunnel.isRunning m = true ->
   exists label,
     Tunnel.getUrl m = Some ("https://" ++ label ++ ".trycloudflare.com") /\
     label <> "" /\ label_ok label = true /\
     Tunnel.getWebhookUrl m =
       JString (("https://" ++ label ++ ".trycloudflare.com") ++ "/api/webhook")).
Proof.
  intro m.
  destruct (play_consistent ops _ (start_consistent port existing spawned))
    as (_ & B & C & D).
  fold m in B, C, D. split; [exact B|]. split; [exact D|].
  unfold Tunnel.isRunning, Tunnel.getUrl, Tunnel.getWebhookUrl. intro R.
  apply andb_true_iff in R as [_ R].
  destruct (Tunnel.publicUrl m) as [u|] eqn:P; [|discriminate R].
  destruct (play_shaped ops _ (start_shaped port existing spawned) u P) as (data & M).
  destruct (match_tunnel_url_shape data u M) as (before & label & rest & _ & -> & N & L).
  exists label. split; [reflexivity|]. split; [exact N|]. split; [exact L|].
  apply C. reflexivity.
Qed.

Lemma fire_unlistened e m : Tunnel.listening m = None -> Tunnel.fire e m = m.
Proof. unfold Tunnel.fire. intros ->. reflexivity. Qed.

(** X19.  With a webhook URL configured, [start] spawns nothing: the
    promise is resolved with that URL at once, the manager reports it as its
    webhook URL, and, no child process existing, events change nothing:
    [isRunning] stays false. *)
Theorem a_configured_webhook_url_starts_no_tunnel port url spawned es :
  truthy url = true ->
  let m := Tunnel.start port url spawned Tunnel.fresh in
  Tunnel.resolutions m = [url] /\
  Tunnel.getWebhookUrl m = url /\
  Tunnel.getUrl m = None /\
  Tunnel.isRunning m = false /\
  Tunnel.play (map Tunnel.Fire es) m = m.
Proof.
  intros T m. unfold m, Tunnel.start. rewrite T.
  repeat split. unfold Tunnel.play.
  induction es as [|e es IH]; simpl; [reflexivity|].
  rewrite fire_unlistened by reflexivity. exact IH.
Qed.

Lemma step_settled o m :
  tunnel_consistent m -> Tunnel.resolutions m <> [] ->
  Tunnel.resolutions (Tunnel.step o m) = Tunnel.resolutions m.
Proof.
  intros (A & _) N. destruct o as [e|killed].
  - unfold Tunnel.step, Tunnel.fire, Tunnel.handleOutput.
    destruct (Tunnel.listening m) as [[port resolved timer]|]; [|reflexivity].
    cbn [Tunnel.resolved Tunnel.timer Tunnel.port] in *. destruct A as [A1 A2].
    destruct resolved; [|exfalso; apply N, A1; reflexivity].
    destruct e as [data|code|code|]; cbn.
    + destruct (match_tunnel_url data); reflexivity.
    + reflexivity.
    + reflexivity.
    + destruct timer; reflexivity.
  - unfold Tunnel.step, Tunnel.stop.
    destruct (Tunnel.process m); [destruct killed as [[]|[what|]]|]; reflexivity.
Qed.

(** X20.  Once [start] has resolved to [null] (the timeout fired, the child
    process failed or exited before it printed a URL, or [spawn] threw),
    the manager never reports a tunnel: whatever cloudflared prints later is
    ignored, and [getUrl] and [getWebhookUrl] stay [null]. *)
Theorem a_start_resolved_to_null_never_reports_a_tunnel port existing spawned ops1 ops2 :
  let m1 := Tunnel.play ops1 (Tunnel.start port existing spawned Tunnel.fresh) in
  Tunnel.resolutions m1 = [JNull] ->
  let m2 := Tunnel.play ops2 m1 in
  Tunnel.resolutions m2 = [JNull] /\
  Tunnel.getUrl m2 = None /\
  Tunnel.getWebhookUrl m2 = JNull /\
  Tunnel.isRunning m2 = false.
Proof.
  intros m1 R1 m2.
  pose proof (play_consistent ops1 _ (start_consistent port existing spawned)) as C1.
  fold m1 in C1.
  assert (forall ops m, tunnel_consistent m -> Tunnel.resolutions m = [JNull] ->
                        tunnel_consistent (Tunnel.play ops m) /\
                        Tunnel.resolutions (Tunnel.play ops m) = [JNull]) as Keep.
  { unfold Tunnel.play. induction ops as [|o ops IH]; intros m C R; simpl; [split; assumption|].
    apply IH.
    - destruct o as [e|killed]; [apply fire_consistent|apply stop_consistent]; exact C.
    - rewrite (step_settled o m C); [exact R|rewrite R; discriminate]. }
  destruct (Keep ops2 m1 C1 R1) as ((_ & _ & C & D) & R2). fold m2 in C, D, R2.
  assert (Tunnel.webhookUrl m2 = JNull) as W.
  { destruct (Tunnel.webhookUrl m2) eqn:W; try reflexivity;
      specialize (D ltac:(discriminate)); rewrite R2 in D; discriminate D. }
  assert (Tunnel.publicUrl m2 = None) as P.
  { destruct (Tunnel.publicUrl m2) as [u|] eqn:P; [|reflexivity].
    specialize (C u eq_refl). rewrite W in C. discriminate C. }
  unfold Tunnel.getUrl, Tunnel.getWebhookUrl, Tunnel.isRunning. rewrite P.
  repeat split; try assumption. apply andb_false_r.
Qed.

Lemma fire_keeps_stopped e m : Tunnel.process m = false -> Tunnel.process (Tunnel.fire e m) = false.
Proof.
  unfold Tunnel.fire, Tunnel.handleOutput, Tunnel.settle. intro P.
  destruct (Tunnel.listening m) as [[port resolved timer]|]; [|exact P].
  cbn [Tunnel.resolved Tunnel.timer Tunnel.port].
  destruct e as [data|code|code|].
  - destruct (match_tunnel_url data); [|exact P]. destruct resolved; cbn; exact P.
  - destruct resolved; cbn; exact P.
  - reflexivity.
  - destruct timer; [|exact P]. destruct resolved; cbn; exact P.
Qed.

(** X21.  A call of [stop] that returns leaves no child process and no
    URLs, and nothing the killed process does afterwards makes the manager
    report a running tunnel again.  ([stop] itself throws only when [kill]
    throws a value without a [message], and then it has changed nothing.) *)
Theorem after_stop_the_manager_never_runs killed m es :
  (fst (Tunnel.stop killed m) = Ok tt ->
   let m' := snd (Tunnel.stop killed m) in
   Tunnel.getUrl m' = None /\ Tunnel.getWebhookUrl m' = JNull /\
   Tunnel.isRunning (Tunnel.play (map Tunnel.Fire es) m') = false) /\
  (fst (Tunnel.stop killed m) <> Ok tt ->
   Tunnel.process m = true /\ killed = Throws Nullish /\ snd (Tunnel.stop killed m) = m).
Proof.
  split.
  - intros Returned m'.
    assert (Tunnel.process m' = false /\ Tunnel.publicUrl m' = None /\
            Tunnel.webhookUrl m' = JNull) as (P & U & W).
    { unfold m', Tunnel.stop in *.
      destruct (Tunnel.process m); [destruct killed as [[]|[what|]]|]; cbn in *;
        try discriminate Returned; repeat split. }
    split; [exact U|]. split; [exact W|].
    assert (forall l x, Tunnel.process x = false ->
                        Tunnel.process (Tunnel.play (map Tunnel.Fire l) x) = false) as Keep.
    { unfold Tunnel.play. induction l as [|e l IH]; intros x Px; simpl; [exact Px|].
      apply IH, fire_keeps_stopped, Px. }
    unfold Tunnel.isRunning. rewrite (Keep es m' P). reflexivity.
  - unfold Tunnel.stop. intro Threw.
    destruct (Tunnel.process m); [destruct killed as [[]|[what|]]|]; cbn in *;
      try (exfalso; apply Threw; reflexivity).
    repeat split.
Qed.

(** * The handlers of [main.js] *)

(** X22.  The [get-recordings] handler never throws and never writes to the
    database.  It returns at most 20 entries: with the database open, the 20
    most recent rows, most recent first, each without its [video_id]; with
    the database closed, the empty list, after logging the failure. *)
Theorem get_recordings_handler_never_throws w :
  exists listing w',
    get_recordings_handler w = (Ok listing, w') /\
    db w' = db w /\ pool w' = pool w /\
    (List.length listing <= 20)%nat /\
    (db w = None ->
     listing = [] /\ console w' = "Failed to get recordings:" :: console w) /\
    (forall d, db w = Some d ->
     w' = w /\
     listing = map listing_of (firstn 20 (order_by_created_at_desc (recordings d)))).
Proof.
  unfold get_recordings_handler, getRecordings. cbn. unfold sync_catch, sync_bind, the_db.
  destruct (db w) as [d|] eqn:D; cbn.
  - do 2 eexists. split; [reflexivity|]. split; [exact D|]. split; [reflexivity|].
    split; [rewrite length_map, length_firstn; lia|].
    split; [discriminate|]. intros d' E. injection E as <-. split; reflexivity.
  - do 2 eexists. split; [reflexivity|]. split; [exact D|]. split; [reflexivity|].
    split; [simpl; lia|]. split; [split; reflexivity|discriminate].
Qed.

Lemma register_resume_valid uuid written name apiKey a :
  register_resume uuid written name apiKey (Ok true) a =
  match findUserByApiKey apiKey (App.store a) with
  | (Ok (Some u), w) =>
      (Ok (Success (jsval_of_text (User.name u))),
       signed_in written (jsval_of_text (User.access_token u)) (jsval_of_text (User.name u))
         (with_store w a))
  | (Ok None, w) =>
      match createUser (App.users_seq a) (js_or name (JString "Guest")) apiKey
                       (JString uuid) w with
      | (Ok res, w') =>
          (Ok (Success (js_or name (JString "Guest"))),
           signed_in written (JString uuid) (js_or name (JString "Guest"))
             (App.mk w' (NewUser.id res) (App.accessToken a) (App.userName a)
                     (App.cachedSessionToken a) (App.tokenExpiresAt a)))
      | (Throws e, w') => registration_error e (with_store w' a)
      end
  | (Throws e, w) => registration_error e (with_store w a)
  end.
Proof.
  unfold register_resume, in_store, app_createUser.
  cbn [bind ret throw try_catch action_monad lift negb].
  destruct (findUserByApiKey apiKey (App.store a)) as [[[u|]|e] w]; cbn [with_store App.store
    App.users_seq App.accessToken App.userName App.cachedSessionToken App.tokenExpiresAt].
  - destruct written; reflexivity.
  - destruct (createUser _ _ _ _ w) as [[res|e] w']; [|reflexivity].
    destruct written; reflexivity.
  - reflexivity.
Qed.

Lemma registration_error_account e a r a' :
  registration_error e a = (r, a') ->
  same_account a a' /\ forall n, r <> Ok (Success n).
Proof.
  unfold registration_error, app_log, in_store. cbn [bind ret throw action_monad console_log].
  destruct e; intro H; injection H as <- <-; (split; [repeat split|discriminate]).
Qed.

Lemma same_account_store w a :
  registered w = registered (App.store a) -> rows w = rows (App.store a) ->
  same_account a (with_store w a).
Proof. intros R1 R2. repeat split; assumption. Qed.

Lemma same_account_trans a b c : same_account a b -> same_account b c -> same_account a c.
Proof.
  unfold same_account. intros (A1 & A2 & A3 & A4 & A5 & A6 & A7) (B1 & B2 & B3 & B4 & B5 & B6 & B7).
  repeat split; congruence.
Qed.

Lemma findUserByApiKey_store key w : snd (findUserByApiKey key w) = w.
Proof. rewrite findUserByApiKey_eq. reflexivity. Qed.

Lemma createUser_throws seq name apiKey token w e w' :
  createUser seq name apiKey token w = (Throws e, w') -> w' = w.
Proof.
  rewrite createUser_eq. intro H.
  destruct (db w) as [d|]; [|injection H as _ <-; reflexivity].
  destruct (bindValue name); [|injection H as _ <-; reflexivity].
  destruct (bindValue apiKey); [|injection H as _ <-; reflexivity].
  destruct (bindValue token); [|injection H as _ <-; reflexivity].
  destruct (token_taken _ _); [injection H as _ <-; reflexivity|discriminate H].
Qed.

(** X23.  A registration that does not succeed.  When [data] cannot be
    destructured the handler answers at once, and when it can the handler
    logs the name and waits for the verification of the key; either way
    users, recordings, [appConfig] and the session token cache are as they
    were.  Whatever the state is when the verification settles, a
    registration that then does not succeed (the key was not valid, the
    verification failed, the database refused the lookup or the insert)
    leaves these as it found them; and for a key that is not valid it
    changes nothing at all from there on, so that the line logged before
    the verification is all such a registration leaves. *)
Theorem a_registration_that_fails_changes_nothing uuid written data a :
  match register uuid written data a with
  | (Returned r, a') =>
      data = None /\ same_account a a' /\ forall n, r <> Ok (Success n)
  | (Awaiting c k, a0) =>
      exists name apiKey,
        data = Some (name, apiKey) /\ c = verifyApiKey apiKey /\
        a0 = snd (app_log ("Registering user: " ++ to_string name) a) /\
        same_account a a0 /\
        forall valid b r b',
          k valid b = (r, b') -> (forall n, r <> Ok (Success n)) ->
          same_account b b' /\
          (valid = Ok false ->
           r = Ok (Refused "Invalid API key. Please check your key and try again.") /\
           b' = b)
  end.
Proof.
  destruct data as [[name apiKey]|]; cbn [register].
  2:{ destruct (registration_error _ a) as [r a'] eqn:E.
      apply registration_error_account in E. split; [reflexivity|exact E]. }
  exists name, apiKey. split; [reflexivity|]. split; [reflexivity|].
  split; [reflexivity|]. split; [repeat split|].
  intros valid b r b' H Failed.
  assert (same_account b (with_store (App.store b) b)) as Same
    by (apply same_account_store; reflexivity).
  destruct valid as [[|]|e].
  - split; [|discriminate]. rewrite register_resume_valid in H.
    pose proof (findUserByApiKey_store apiKey (App.store b)) as St.
    destruct (findUserByApiKey apiKey (App.store b)) as [[[u|]|e] w]; cbn [snd] in St; subst w.
    + injection H as <- _. exfalso. exact (Failed _ eq_refl).
    + destruct (createUser _ _ _ _ (App.store b)) as [[res|e] w'] eqn:C.
      * injection H as <- _. exfalso. exact (Failed _ eq_refl).
      * apply createUser_throws in C. subst w'.
        exact (same_account_trans _ _ _ Same (proj1 (registration_error_account _ _ _ _ H))).
    + exact (same_account_trans _ _ _ Same (proj1 (registration_error_account _ _ _ _ H))).
  - injection H as <- <-. split; [repeat split|]. intros _. split; reflexivity.
  - split; [|discriminate].
    unfold register_resume in H. cbn [bind ret throw try_catch action_monad lift] in H.
    exact (proj1 (registration_error_account _ _ _ _ H)).
Qed.

Lemma user_by_api_key_app key us us' :
  user_by_api_key key (us ++ us') =
  match user_by_api_key key us with
  | Some u => Some u
  | None => user_by_api_key key us'
  end.
Proof.
  unfold user_by_api_key, getOne. rewrite filter_app.
  destruct (filter _ us); reflexivity.
Qed.

(** X24.  One user per API key.  A registration that succeeds, for an API
    key that is not [null] (a string, or a number of at most fifteen
    digits), adds at most one row to [users]; it puts in [appConfig] the
    access token of the first row that then holds the key (the fresh UUID
    when no row held the key before, and otherwise whatever the column
    holds, NULL included) and empties the session token cache; and
    registering the same key again (whatever the name and whatever
    [randomUUID] gives) succeeds without adding a row and leaves the same
    access token in [appConfig]. *)
Theorem register_twice_keeps_one_user uuid written name apiKey a n a1 :
  register_resume uuid written name apiKey (Ok true) a = (Ok (Success n), a1) ->
  apiKey <> JNull -> plain apiKey ->
  (exists p u,
      bindValue apiKey = Ok p /\
      user_by_api_key (text_affinity p) (registered (App.store a1)) = Some u /\
      App.accessToken a1 = jsval_of_text (User.access_token u) /\
      (user_by_api_key (text_affinity p) (registered (App.store a)) = None ->
       App.accessToken a1 = JString uuid)) /\
  App.userName a1 = n /\
  App.cachedSessionToken a1 = JNull /\ App.tokenExpiresAt a1 = None /\
  (exists extra,
      registered (App.store a1) = (registered (App.store a) ++ extra)%list /\
      (List.length extra <= 1)%nat) /\
  forall uuid' written' name',
    exists n' a2,
      register_resume uuid' written' name' apiKey (Ok true) a1 = (Ok (Success n'), a2) /\
      registered (App.store a2) = registered (App.store a1) /\
      App.users_seq a2 = App.users_seq a1 /\
      App.accessToken a2 = App.accessToken a1.
Proof.
  intros H N _. rewrite register_resume_valid, findUserByApiKey_eq in H.
  destruct (db (App.store a)) as [d|] eqn:D;
    [|apply registration_error_account in H; exfalso; exact (proj2 H _ eq_refl)].
  destruct (bindValue apiKey) as [p|e] eqn:B;
    [|apply registration_error_account in H; exfalso; exact (proj2 H _ eq_refl)].
  destruct (bound_text _ _ B N) as (key & K). rewrite K in H.
  assert (registered (App.store a) = users d) as Ra
    by (unfold registered; rewrite D; reflexivity).
  destruct (user_by_api_key (Some key) (users d)) as [u|] eqn:U.
  - injection H as <- <-. cbn [signed_in App.accessToken App.userName
      App.cachedSessionToken App.tokenExpiresAt App.store App.users_seq with_store].
    split.
    { exists p, u. split; [reflexivity|]. rewrite K, Ra.
      unfold registered. rewrite !db_logged, D.
      split; [exact U|]. split; [reflexivity|]. rewrite U. discriminate. }
    split; [reflexivity|]. split; [reflexivity|]. split; [reflexivity|].
    split; [exists []; rewrite app_nil_r; split; [reflexivity|simpl; lia]|].
    intros uuid' written' name'. rewrite register_resume_valid, findUserByApiKey_eq.
    cbn [signed_in App.store with_store]. rewrite !db_logged, D, B, K, U.
    do 2 eexists. split; [reflexivity|]. repeat split.
  - rewrite createUser_eq, D, B in H.
    destruct (bindValue (js_or name (JString "Guest"))) as [pn|e] eqn:Bn;
      [|apply registration_error_account in H; exfalso; exact (proj2 H _ eq_refl)].
    rewrite ?K in H. cbn [bindValue] in H.
    change (text_affinity (SqlText uuid)) with (Some uuid) in H.
    destruct (token_taken (Some uuid) (users d)) eqn:T;
      [apply registration_error_account in H; exfalso; exact (proj2 H _ eq_refl)|].
    injection H as <- <-. cbn [signed_in App.accessToken App.userName
      App.cachedSessionToken App.tokenExpiresAt App.store App.users_seq NewUser.id].
    split.
    { exists p. eexists. split; [reflexivity|]. rewrite K.
      unfold registered. rewrite !db_logged. cbn [db users].
      rewrite user_by_api_key_app, U. unfold user_by_api_key at 1.
      cbn [filter User.api_key]. rewrite sql_text_eq_refl. cbn [getOne hd_error].
      split; [reflexivity|]. split; reflexivity. }
    split; [reflexivity|]. split; [reflexivity|]. split; [reflexivity|].
    split.
    { eexists. unfold registered. rewrite !db_logged, D. cbn [db users].
      split; [reflexivity|simpl; lia]. }
    intros uuid' written' name'. rewrite register_resume_valid, findUserByApiKey_eq.
    cbn [signed_in App.store]. rewrite !db_logged. cbn [db users]. rewrite B, K.
    rewrite user_by_api_key_app, U. unfold user_by_api_key at 1.
    cbn [filter User.api_key]. rewrite sql_text_eq_refl. cbn [getOne hd_error].
    do 2 eexists. split; [reflexivity|]. repeat split.
Qed.

Lemma nonempty_text_truthy s : s <> "" -> text_truthy (Some s) = true.
Proof. intro N. simpl. destruct (String.eqb_spec s ""); [contradiction|reflexivity]. Qed.

(** X25.  From registration to the session token.  After a registration
    that succeeded for a key no user had, with a UUID and a key that are not
    empty, the current user is the row just added (its id is the new
    sequence value), [getCurrentUserApiKey] returns the registered key, and
    the next [getSessionToken], the cache being empty, asks the SDK for a
    token with that key. *)
Theorem register_then_the_session_token_uses_the_new_key uuid written name key a n a1 :
  register_resume uuid written name (JString key) (Ok true) a = (Ok (Success n), a1) ->
  user_by_api_key (Some key) (registered (App.store a)) = None ->
  key <> "" -> uuid <> "" ->
  (exists u,
      getCurrentUser a1 = (Ok (Some u), a1) /\
      User.id u = App.users_seq a1 /\
      User.api_key u = Some key /\
      User.access_token u = Some uuid /\
      registered (App.store a1) = (registered (App.store a) ++ [u])%list) /\
  getCurrentUserApiKey a1 = (Ok (Some key), a1) /\
  forall now later,
    exists a2,
      getSessionToken now later a1 =
      (Awaiting (generateSessionToken key) (getSessionToken_resume later), a2) /\
      same_account a1 a2.
Proof.
  intros H New Nk Nu. rewrite register_resume_valid, findUserByApiKey_eq in H.
  unfold registered in New.
  destruct (db (App.store a)) as [d|] eqn:D;
    [|apply registration_error_account in H; exfalso; exact (proj2 H _ eq_refl)].
  cbn [bindValue text_affinity] in H. rewrite New in H.
  rewrite createUser_eq, D in H.
  destruct (bindValue (js_or name (JString "Guest"))) as [pn|e] eqn:Bn;
    [|apply registration_error_account in H; exfalso; exact (proj2 H _ eq_refl)].
  cbn [bindValue text_affinity] in H.
  destruct (token_taken (Some uuid) (users d)) eqn:T;
    [apply registration_error_account in H; exfalso; exact (proj2 H _ eq_refl)|].
  injection H as <- <-.
  assert (truthy (JString uuid) = true) as Tu by (apply nonempty_truthy, Nu).
  set (u := User.mk (next_user_id (App.users_seq a) (users d)) (text_affinity pn)
                    (Some key) (Some uuid)).
  assert (forall w, db w = Some {| users := (users d ++ [u])%list;
                                   recordings := recordings d;
                                   recordings_seq := recordings_seq d |} ->
                    findUserByToken (JString uuid) w = (Ok (Some u), w)) as Find.
  { intros w Dw. rewrite findUserByToken_eq, Dw. cbn [bindValue text_affinity users].
    rewrite user_by_token_app, (token_free _ _ T). unfold user_by_token.
    cbn [filter User.access_token u]. rewrite sql_text_eq_refl. reflexivity. }
  split; [|split].
  - exists u. unfold getCurrentUser, in_store, signed_in.
    cbn [App.accessToken App.store]. rewrite Tu. cbn [negb].
    rewrite Find by reflexivity. repeat split.
    unfold registered. cbn [App.store]. rewrite !db_logged, D. reflexivity.
  - unfold getCurrentUserApiKey, in_store, signed_in.
    cbn [App.accessToken App.store]. rewrite Tu.
    cbn [negb bind ret sync_monad]. unfold sync_bind.
    rewrite Find by reflexivity. reflexivity.
  - intros now later. unfold getSessionToken, signed_in.
    cbn [App.cachedSessionToken truthy andb].
    unfold getCurrentUserApiKey, in_store.
    cbn [App.accessToken App.store]. rewrite Tu.
    cbn [negb bind ret sync_monad]. unfold sync_bind.
    rewrite Find by reflexivity. cbn [User.api_key u].
    rewrite (nonempty_text_truthy key Nk).
    eexists. split; [reflexivity|]. repeat split.
Qed.

(** X26.  The session token cache.  A token the SDK generated is returned
    to the caller and, from then on, served from the cache, without a call
    to the SDK and without a look at the database, to every call made less
    than its lifetime minus five minutes after the generation; a call made
    later never returns it from the cache (it returns [null], throws, or
    asks the SDK again). *)
Theorem a_generated_session_token_is_reused_until_it_expires later tokenData a :
  truthy (TokenData.sessionToken tokenData) = true ->
  later + cache_window tokenData <> 0 ->
  let a1 := snd (getSessionToken_resume later (Ok tokenData) a) in
  fst (getSessionToken_resume later (Ok tokenData) a) = Ok (TokenData.sessionToken tokenData) /\
  (forall now now',
      now < later + cache_window tokenData ->
      getSessionToken now now' a1 =
      (Returned (Ok (TokenData.sessionToken tokenData)),
       with_store (logged "Using cached session token (expires in" (App.store a1)) a1)) /\
  (forall now now' r a2,
      later + cache_window tokenData <= now ->
      getSessionToken now now' a1 = (Returned (Ok r), a2) -> r = JNull).
Proof.
  intros T Nz. cbv zeta. unfold getSessionToken_resume. rewrite T. cbn [fst snd].
  match goal with |- context [getSessionToken _ _ ?x] => set (a1 := x) end.
  split; [reflexivity|].
  assert (later + (if TokenData.expiresIn tokenData =? 0 then 3600
                   else TokenData.expiresIn tokenData) * 1000 - 5 * 60 * 1000
          = later + cache_window tokenData) as E by (unfold cache_window; lia).
  split.
  - intros now now' Lt. unfold getSessionToken, a1.
    cbn [App.cachedSessionToken App.tokenExpiresAt]. rewrite T, E.
    apply Z.eqb_neq in Nz. apply Z.ltb_lt in Lt. rewrite Nz, Lt. reflexivity.
  - intros now now' r a2 Ge. unfold getSessionToken, a1.
    cbn [App.cachedSessionToken App.tokenExpiresAt]. rewrite T, E.
    assert ((now <? later + cache_window tokenData) = false) as -> by (apply Z.ltb_ge, Ge).
    rewrite andb_false_r. cbn [andb].
    destruct (getCurrentUserApiKey _) as [[[key|]|e] a'].
    + destruct (text_truthy (Some key)); intro H; [discriminate H|].
      injection H as <- _. reflexivity.
    + intro H. injection H as <- _. reflexivity.
    + intro H. discriminate H.
Qed.

(** X27.  [getSessionToken] asks the SDK for a token only when the cache
    holds no token or one that has expired, an access token is in
    [appConfig], the database has a user with that access token, and that
    user has an API key that is not empty: it asks with that key, and has
    changed nothing but the console. *)
Theorem getSessionToken_asks_only_for_the_signed_in_users_key now later a c k a' :
  getSessionToken now later a = (Awaiting c k, a') ->
  exists u key,
    truthy (App.accessToken a) = true /\
    findUserByToken (App.accessToken a) (App.store a) = (Ok (Some u), App.store a) /\
    User.api_key u = Some key /\ key <> "" /\
    c = generateSessionToken key /\
    k = getSessionToken_resume later /\
    same_account a a' /\
    (truthy (App.cachedSessionToken a) = false \/
     forall expires, App.tokenExpiresAt a = Some expires -> expires = 0 \/ expires <= now).
Proof.
  unfold getSessionToken. intro H.
  assert (truthy (App.cachedSessionToken a) = false \/
          forall expires, App.tokenExpiresAt a = Some expires -> expires = 0 \/ expires <= now)
    as Stale.
  { destruct (truthy (App.cachedSessionToken a)); [|left; reflexivity].
    right. intros expires E. rewrite E in H. cbn [andb] in H.
    destruct (Z.eqb_spec expires 0) as [Z|Z]; [left; exact Z|]. cbn [negb andb] in H.
    destruct (Z.ltb_spec now expires) as [L|L]; [discriminate H|right; exact L]. }
  destruct (truthy (App.cachedSessionToken a) &&
            match App.tokenExpiresAt a with
            | Some expires => negb (expires =? 0) && (now <? expires)
            | None => false
            end); [discriminate H|].
  unfold getCurrentUserApiKey in H.
  destruct (truthy (App.accessToken a)) eqn:T; cbn [negb] in H; [|discriminate H].
  unfold in_store in H. cbn [bind ret sync_monad] in H. unfold sync_bind in H.
  rewrite findUserByToken_eq in *.
  destruct (db (App.store a)) as [d|]; [|discriminate H].
  destruct (bindValue (App.accessToken a)) as [p|]; [|discriminate H].
  destruct (user_by_token (text_affinity p) (users d)) as [u|]; [|discriminate H].
  destruct (User.api_key u) as [key|] eqn:K; [|discriminate H].
  destruct (text_truthy (Some key)) eqn:Tk; [|discriminate H].
  injection H as <- <- <-. exists u, key.
  split; [reflexivity|]. split; [reflexivity|]. split; [exact K|].
  split; [intros ->; discriminate Tk|].
  split; [reflexivity|]. split; [reflexivity|]. split; [repeat split|exact Stale].
Qed.

(** * Instances

    The properties above at concrete states, with [sample_stringify] for
    [JSON.stringify], and the inputs at which a stronger reading of a
    property fails. *)

Lemma updateRecording_touches_only_given_fields_witness :
  updateRecording 1 [(stream_url, JString "s1"); (duration, JString "12")] sample_world
  = (Ok tt, world_of [sample_user]
              [Recording.mk 1 (Some "v0") (Some "s1") (Some "p0?url=s0&t=3") (Some "sess0")
                 (CellInt 12) (Some "2025-02-18 10:00:00") None (Some "ready");
               sample_row2]) /\
  Forall2 (fun r r' =>
             Recording.id r' = Recording.id r /\
             (Recording.id r <> 1 -> r' = r) /\
             (forall c, mentions c [(stream_url, JString "s1"); (duration, JString "12")] = false ->
                        column_value c r' = column_value c r) /\
             (Recording.id r = 1 ->
              NoDup (map fst [(stream_url, JString "s1"); (duration, JString "12")]) ->
              forall c v, In (c, v) [(stream_url, JString "s1"); (duration, JString "12")] ->
                          defined v = true ->
                          (c <> duration -> plain v) ->
                          exists p, bindValue v = Ok p /\
                                    column_value c r' = stored c p))
          (rows sample_world)
          (rows (world_of [sample_user]
                   [Recording.mk 1 (Some "v0") (Some "s1") (Some "p0?url=s0&t=3")
                      (Some "sess0") (CellInt 12) (Some "2025-02-18 10:00:00") None
                      (Some "ready");
                    sample_row2])).
Proof.
  split; [reflexivity|].
  apply (updateRecording_touches_only_given_fields 1
           [(stream_url, JString "s1"); (duration, JString "12")] sample_world).
  reflexivity.
Defined.

Lemma getRecordings_limit_and_order_witness :
  0 <= 1 < largest_int64 /\
  exists listing rest,
    getRecordings (Some 1) sample_world = (Ok listing, sample_world) /\
    Z.of_nat (List.length listing) <= 1 /\
    Sorted newest_first (listing ++ rest) /\
    Permutation (listing ++ rest) [sample_row; sample_row2] /\
    (rest <> [] -> Z.of_nat (List.length listing) = 1).
Proof.
  assert (0 <= 1 < largest_int64) as H by (unfold largest_int64; lia).
  split; [exact H|].
  exact (proj1 (getRecordings_limit_and_order 1 sample_world
                  {| users := [sample_user]; recordings := [sample_row; sample_row2];
                     recordings_seq := 0 |} eq_refl) H).
Defined.

(** With the limit -1 the listing has both rows of the table. *)
Lemma negative_limit_lists_more_than_the_limit : ~ every_limit_bounds_the_listing.
Proof.
  intro Bounded.
  pose proof (Bounded (-1) sample_world [sample_row2; sample_row] eq_refl) as H.
  simpl in H. lia.
Qed.

Lemma duplicate_video_id_is_acknowledged_unchanged_witness :
  exists w',
    webhook sample_stringify
      (exported (JString "sess-new") (JString "v0") (JString "s0") (JString "p0")) sample_world
    = (ok_received, w') /\
    db w' = db sample_world /\ pool w' = pool sample_world /\ clock w' = clock sample_world /\
    console w' = ["[Webhook] Recording already exists: v0";
                  "[Webhook] Event: capture_session.exported"].
Proof.
  apply (duplicate_video_id_is_acknowledged_unchanged sample_stringify
           (JString "sess-new") (JString "v0") (JString "s0") (JString "p0") sample_world
           {| users := [sample_user]; recordings := [sample_row; sample_row2];
              recordings_seq := 0 |}
           (SqlText "sess-new") (SqlText "v0") sample_row);
    try reflexivity; exact I.
Defined.

(** C2. A delivery without [capture_session_id] whose video id is on a
    row: the lookup by session id throws before the handler looks for the
    video id, nothing is stored, and the answer is 500. *)
Lemma delivery_without_session_id_is_answered_500 :
  video_row (Some "v0") (rows sample_world) = Some sample_row /\
  findRecordingBySessionId JUndefined sample_world
  = (Throws (Exn "Wrong API use : tried to bind a value of an unknown type"), sample_world) /\
  webhook sample_stringify
    (exported JUndefined (JString "v0") (JString "s0") (JString "p0")) sample_world
  = (error_500,
     logged "[Webhook] Error processing:"
       (logged "[Webhook] Event: capture_session.exported" sample_world)).
Proof. repeat split. Qed.

Lemma exported_without_video_id_changes_nothing_witness :
  exists w',
    webhook sample_stringify
      (Some (Body.mk (JString "capture_session.exported") (JString "sess1") None)) sample_world
    = (ok_received, w') /\
    db w' = db sample_world /\ pool w' = pool sample_world /\ clock w' = clock sample_world /\
    console w' = ["[Webhook] No video_id in exported event";
                  "[Webhook] Event: capture_session.exported"].
Proof.
  apply (exported_without_video_id_changes_nothing sample_stringify
           (Body.mk (JString "capture_session.exported") (JString "sess1") None) sample_world);
    reflexivity.
Defined.

Lemma createRecording_stores_null_for_falsy_fields_witness :
  (exists row,
      rows (snd (createRecording
                   (Fields.mk (JString "v1") (JString "") (JString "") (JString "")
                              (JNumber 0) JUndefined JUndefined) empty_world))
      = [row] /\
      Recording.stream_url row = None /\ Recording.player_url row = None /\
      Recording.session_id row = None /\ Recording.duration row = CellNull /\
      Recording.insights_status row = Some "pending") /\
  exists w' before row,
    webhook sample_stringify
      (exported (JString "sess1") (JString "v1") (JString "") (JString "")) empty_world
    = (ok_received, w') /\
    rows w' = (before ++ [row])%list /\
    Recording.video_id row = Some "v1" /\
    Recording.stream_url row = None /\ Recording.player_url row = None.
Proof.
  split.
  - destruct (proj1 (createRecording_stores_null_for_falsy_fields sample_stringify)
                (Fields.mk (JString "v1") (JString "") (JString "") (JString "")
                           (JNumber 0) JUndefined JUndefined)
                empty_world
                (1, Fields.mk (JString "v1") (JString "") (JString "") (JString "")
                              (JNumber 0) JUndefined JUndefined)
                (snd (createRecording
                        (Fields.mk (JString "v1") (JString "") (JString "") (JString "")
                                   (JNumber 0) JUndefined JUndefined) empty_world))
                eq_refl)
      as (row & R & _ & _ & Hs & Hp & Hi & Hd & _ & Ht).
    exists row. split; [exact R|].
    split; [apply Hs; reflexivity|]. split; [apply Hp; reflexivity|].
    split; [apply Hi; reflexivity|]. split; [apply Hd; reflexivity|].
    apply Ht; reflexivity.
  - destruct (proj2 (proj2 (proj2
                (createRecording_stores_null_for_falsy_fields sample_stringify)))
                (JString "sess1") (JString "v1") empty_world
                {| users := [sample_user]; recordings := []; recordings_seq := 0 |}
                (SqlText "sess1") (SqlText "v1")
                eq_refl eq_refl I I eq_refl eq_refl eq_refl eq_refl)
      as (w' & before & row & H & R & _ & V & S & P).
    exists w', before, row. repeat split; assumption.
Defined.

Lemma failed_indexing_ends_failed_without_throwing_witness :
  (exists w' t,
      run quiet sdk_not_found
        (processIndexingBackground sample_stringify 1 (JString "v0") "sk-1") sample_world
      = (Ok tt, w', t) /\
      (exists rest, (calls_made t ++ rest)%list = steps (JString "v0") "sk-1") /\
      ~ In (JString "ready") (statuses_written 1 t) /\
      (db w' <> None -> has_status 1 "failed" w')) /\
  (exists w' t,
      run shutting_down sdk_offline
        (processIndexingBackground sample_stringify 1 (JString "v0") "sk-1") sample_world
      = (Ok tt, w', t) /\
      (exists rest, (calls_made t ++ rest)%list = steps (JString "v0") "sk-1") /\
      ~ In (JString "ready") (statuses_written 1 t) /\
      (db w' <> None -> has_status 1 "failed" w')).
Proof.
  split.
  - apply (failed_indexing_ends_failed_without_throwing sample_stringify quiet sdk_not_found
             1 (JString "v0") "sk-1" sample_world).
    left. exists JNull. split; reflexivity.
  - apply (failed_indexing_ends_failed_without_throwing sample_stringify shutting_down
             sdk_offline 1 (JString "v0") "sk-1" sample_world).
    right. exists getCollection, (Exn "fetch failed").
    split; [right; left; reflexivity|reflexivity].
Defined.

Lemma processing_is_written_before_the_first_call_witness :
  (forall c,
      In (Called c)
         (snd (run quiet sdk_ok
                 (processIndexingBackground sample_stringify 1 (JString "v0") "sk-1")
                 sample_world)) ->
      exists t',
        snd (run quiet sdk_ok
               (processIndexingBackground sample_stringify 1 (JString "v0") "sk-1")
               sample_world)
        = Wrote 1 [(insights_status, JString "processing")] :: t') /\
  (exists k w1,
      advance (processIndexingBackground sample_stringify 1 (JString "v0") "sk-1") sample_world
      = (External (connect {| apiKey := "sk-1"; baseUrl := None |}) k, w1) /\
      has_status 1 "processing" w1) /\
  forall x,
    In x (rows (play sample_stringify
                  [Completion 0 (Ok JObject); Tick "2025-02-20 09:00:05";
                   Completion 0 (Throws (Exn "fetch failed"))]
                  (snd (spawn (processIndexingBackground sample_stringify 1 (JString "v0")
                                 "sk-1") sample_world)))) ->
    Recording.id x = 1 ->
    Recording.insights_status x <> Some "pending".
Proof.
  destruct (processing_is_written_before_the_first_call sample_stringify quiet sdk_ok
              1 (JString "v0") "sk-1" sample_world)
    as (Order & State & Reach & Later).
  split; [|split].
  - exact (Order
             (fst (fst (run quiet sdk_ok
                (processIndexingBackground sample_stringify 1 (JString "v0") "sk-1")
                sample_world)))
             (snd (fst (run quiet sdk_ok
                (processIndexingBackground sample_stringify 1 (JString "v0") "sk-1")
                sample_world)))
             (snd (run quiet sdk_ok
                (processIndexingBackground sample_stringify 1 (JString "v0") "sk-1")
                sample_world))
             eq_refl).
  - destruct (Reach ltac:(discriminate)) as (k & w1 & A).
    exists k, w1. split; [exact A|]. exact (proj1 (State _ k w1 A)).
  - intro x. apply Later.
    + constructor.
    + discriminate.
    + intros body [E|[E|[E|[]]]]; discriminate E.
Defined.

(** The run on row 2 has begun and waits for its first call when the
    session of that row is delivered again, with a video id that row 1
    holds: the indexing of that delivery starts on row 1, and row 2 is
    ['pending']. *)
Lemma redelivery_shows_pending_while_the_run_waits :
  ~ pending_is_not_seen_once_begun sample_stringify.
Proof.
  intro Hidden.
  apply (Hidden sample_world 2 (JString "v9") "sk-1"
           [exported (JString "sess9") (JString "v0") (JString "s0b") (JString "p0b")]
           (Recording.mk 2 (Some "v0") (Some "s0b") (Some "p0b") (Some "sess9")
              CellNull (Some "2025-02-20 08:30:00") None (Some "pending"))).
  - discriminate.
  - right. left. reflexivity.
  - reflexivity.
  - reflexivity.
Qed.

Lemma player_url_gets_the_subtitle_url_witness :
  exists w' tr,
    run quiet sdk_ok (processIndexingBackground sample_stringify 1 (JString "v1") "sk-1")
        round_trip_world
    = (Ok tt, w', tr) /\
    has_status 1 "ready" w' /\ has_stream_url 1 "s2" w' /\
    has_player_url 1 "p1?url=s2" w'.
Proof.
  destruct (player_url_gets_the_subtitle_url sample_stringify quiet sdk_ok
              1 (JString "v1") "sk-1" round_trip_world
              {| users := [sample_user]; recordings := [round_trip_row]; recordings_seq := 0 |}
              round_trip_row (JString "hello") "s2")
    as (w' & tr & R & _ & St & Su & Pu & _).
  - intros c w0. reflexivity.
  - reflexivity.
  - reflexivity.
  - discriminate.
  - repeat split; try reflexivity. exists JUndefined. reflexivity.
  - exists w', tr. split; [exact R|]. split; [exact St|]. split; [exact Su|].
    apply (Pu "p1?" "s1" ""); try reflexivity; [discriminate|left; reflexivity].
Defined.

(** Two runs on one row.  Session [sess1] is delivered, its run starts and
    waits; the session is delivered again and a second run starts on the same
    row.  The first run completes and writes ['ready'].  The second then has
    its pending call rejected and writes ['failed'] over it: the row left a
    terminal status on a [Completion], not on a [Delivery]. *)
Lemma late_run_overwrites_ready :
  ~ terminal_status_is_sticky sample_stringify.
Proof.
  intro Sticky.
  destruct (Sticky empty_world overlapping_runs (Completion 0 (Throws (Exn "timeout"))) 0%nat
              (Recording.mk 1 (Some "v1") (Some "s2") (Some "p1?url=s2") (Some "sess1")
                 CellNull (Some "2025-02-20 09:00:00") (Some "{transcript:hello}")
                 (Some "ready"))
              (Recording.mk 1 (Some "v1") (Some "s2") (Some "p1?url=s2") (Some "sess1")
                 CellNull (Some "2025-02-20 09:00:00") (Some "{transcript:hello}")
                 (Some "failed"))
              eq_refl eq_refl eq_refl (or_introl eq_refl))
    as (body & E).
  - discriminate.
  - discriminate E.
Qed.



Lemma status_moves_forward_and_leaves_terminal_by_delivery_or_late_run_witness :
  (exists body,
      Delivery (exported (JString "sess0") (JString "v0") (JString "s0b") JUndefined)
      = Delivery body /\
      (Some "processing" = Some "pending" \/ Some "processing" = Some "processing")) \/
  (exists i o p,
      Delivery (exported (JString "sess0") (JString "v0") (JString "s0b") JUndefined)
      = Completion i o /\
      nth_error (pool sample_world) i = Some p /\ finishing 1 p /\
      terminal (Some "processing")).
Proof.
  apply (proj2 (proj2 (proj2
           (status_moves_forward_and_leaves_terminal_by_delivery_or_late_run
              sample_stringify)))
           (Delivery (exported (JString "sess0") (JString "v0") (JString "s0b") JUndefined))
           sample_world 0%nat sample_row
           (Recording.mk 1 (Some "v0") (Some "s0b") (Some "p0?url=s0&t=3") (Some "sess0")
              CellNull (Some "2025-02-18 10:00:00") None (Some "processing"))).
  - constructor.
  - reflexivity.
  - reflexivity.
  - left. reflexivity.
  - discriminate.
Defined.

Lemma createUser_then_findUserByToken_witness :
  exists u w',
    createUser 1 (JNumber 2147483648) (JString "sk-2") (JString "token-2") empty_world
    = (Ok (NewUser.mk 2 (JNumber 2147483648) (JString "sk-2") (JString "token-2")), w') /\
    findUserByToken (JString "token-2") w' = (Ok (Some u), w') /\
    u = User.mk 2 (Some "2147483648.0") (Some "sk-2") (Some "token-2").
Proof.
  destruct (createUser_then_findUserByToken 1 (JNumber 2147483648) (JString "sk-2")
              (JString "token-2") empty_world
              (NewUser.mk 2 (JNumber 2147483648) (JString "sk-2") (JString "token-2"))
              (snd (createUser 1 (JNumber 2147483648) (JString "sk-2") (JString "token-2")
                      empty_world))
              ltac:(vm_compute; reflexivity) I I eq_refl)
    as (n & k & t & Bn & Bk & Bt & _ & _ & Found & _).
  injection Bn as <-. injection Bk as <-. injection Bt as <-.
  eexists.
  exists (snd (createUser 1 (JNumber 2147483648) (JString "sk-2") (JString "token-2")
                 empty_world)).
  split; [reflexivity|]. split; [apply Found; discriminate|reflexivity].
Defined.

Lemma createUser_keeps_tokens_unique_witness :
  createUser 1 (JString "bob") (JString "sk-2") (JString "token-1") empty_world
  = (Throws unique_violation, empty_world).
Proof.
  destruct (proj1 (createUser_keeps_tokens_unique 1 (JString "bob") (JString "sk-2")
                     (JString "token-1") empty_world) sample_user eq_refl)
    as (e & H & U).
  rewrite H. rewrite (U ltac:(do 2 eexists; split; reflexivity)). reflexivity.
Defined.

Lemma createUser_makes_the_latest_user_witness :
  exists u w',
    getLatestUser w' = (Ok (Some u), w') /\ User.id u = 2 /\
    registered w' = [sample_user; u].
Proof.
  destruct (createUser_makes_the_latest_user 1 (JString "bob") (JString "sk-2")
              (JString "token-2") empty_world
              (NewUser.mk 2 (JString "bob") (JString "sk-2") (JString "token-2"))
              (snd (createUser 1 (JString "bob") (JString "sk-2") (JString "token-2")
                      empty_world))
              eq_refl)
    as (_ & _ & u & L & I & R).
  exists u.
  exists (snd (createUser 1 (JString "bob") (JString "sk-2") (JString "token-2") empty_world)).
  split; [exact L|]. split; [exact I|exact R].
Defined.

Lemma createRecording_then_getRecordingById_witness :
  exists row w',
    getRecordingById 3 w' = (Ok (Some row), w') /\
    rows w' = [sample_row; sample_row2; row] /\
    Recording.created_at row = Some "2025-02-20 09:00:00".
Proof.
  destruct (createRecording_then_getRecordingById
              (Fields.mk (JString "v3") (JString "s3") JUndefined (JString "sess3")
                         JUndefined JUndefined JUndefined)
              sample_world
              (3, Fields.mk (JString "v3") (JString "s3") JUndefined (JString "sess3")
                            JUndefined JUndefined JUndefined)
              (snd (createRecording
                      (Fields.mk (JString "v3") (JString "s3") JUndefined (JString "sess3")
                         JUndefined JUndefined JUndefined) sample_world))
              eq_refl)
    as (_ & _ & row & R & _ & C & G).
  exists row.
  exists (snd (createRecording
                 (Fields.mk (JString "v3") (JString "s3") JUndefined (JString "sess3")
                    JUndefined JUndefined JUndefined) sample_world)).
  split; [exact G|]. split; [exact R|exact C].
Defined.

Lemma updateRecording_twice_is_once_witness :
  updateRecording 1 [(stream_url, JString "s1"); (duration, JNumber 12)]
    (snd (updateRecording 1 [(stream_url, JString "s1"); (duration, JNumber 12)] sample_world))
  = (Ok tt,
     snd (updateRecording 1 [(stream_url, JString "s1"); (duration, JNumber 12)] sample_world)).
Proof.
  apply (updateRecording_twice_is_once 1 [(stream_url, JString "s1"); (duration, JNumber 12)]
           sample_world).
  reflexivity.
Defined.

Lemma updateRecording_of_a_missing_id_changes_nothing_witness :
  exists w',
    updateRecording 7 [(insights_status, JString "ready")] sample_world = (Ok tt, w') /\
    rows w' = rows sample_world /\ registered w' = registered sample_world /\
    getRecordingById 7 w' = (Ok None, w').
Proof.
  apply (updateRecording_of_a_missing_id_changes_nothing 7
           [(insights_status, JString "ready")] sample_world).
  - discriminate.
  - intros r [<-|[<-|[]]]; discriminate.
  - intros c v [E|[]]. injection E as _ <-. discriminate.
Defined.

Lemma null_finds_no_row_witness :
  findRecordingBySessionId JNull sample_world = (Ok None, sample_world) /\
  findUserByToken JNull sample_world = (Ok None, sample_world).
Proof.
  destruct (null_finds_no_row sample_world
              {| users := [sample_user]; recordings := [sample_row; sample_row2];
                 recordings_seq := 0 |} eq_refl)
    as (A & _ & B & _).
  split; [exact A|exact B].
Defined.

Lemma getRecordings_negative_limit_lists_everything_witness :
  - 2 ^ 63 < -1 < 0 /\
  exists listing,
    getRecordings (Some (-1)) sample_world = (Ok listing, sample_world) /\
    Sorted newest_first listing /\
    Permutation listing [sample_row; sample_row2].
Proof.
  assert (- 2 ^ 63 < -1 < 0) as H by lia.
  split; [exact H|].
  exact (proj1 (proj2 (getRecordings_negative_limit_lists_everything (-1) sample_world
                         {| users := [sample_user]; recordings := [sample_row; sample_row2];
                            recordings_seq := 0 |} eq_refl)) H).
Defined.

Lemma other_events_store_nothing_witness :
  exists r w',
    webhook sample_stringify
      (Some (Body.mk (JString "capture_session.started") (JString "sess1") None)) sample_world
    = (r, w') /\
    db w' = db sample_world /\ pool w' = pool sample_world /\ r <> error_500.
Proof.
  destruct (other_events_store_nothing sample_stringify
              (Some (Body.mk (JString "capture_session.started") (JString "sess1") None))
              sample_world)
    as (r & w' & H & D & P & _ & R & _).
  - intros b E. injection E as <-. discriminate.
  - exists r, w'. split; [exact H|]. split; [exact D|]. split; [exact P|].
    intro E. apply R in E. destruct E as (b & Eb & _ & N).
    injection Eb as <-. exact (N _ eq_refl).
Defined.

Lemma a_delivery_answered_500_stored_nothing_witness :
  exists w',
    webhook sample_stringify
      (exported JUndefined (JString "v1") (JString "s1") (JString "p1")) sample_world
    = (error_500, w') /\
    db w' = db sample_world /\ pool w' = pool sample_world.
Proof.
  exists (snd (webhook sample_stringify
                 (exported JUndefined (JString "v1") (JString "s1") (JString "p1"))
                 sample_world)).
  split; [reflexivity|].
  destruct (a_delivery_answered_500_stored_nothing sample_stringify
              (exported JUndefined (JString "v1") (JString "s1") (JString "p1"))
              sample_world _ eq_refl)
    as (D & P & _).
  split; [exact D|exact P].
Defined.

Lemma after_closeDatabase_no_task_is_started_witness :
  fst (webhook sample_stringify
         (exported (JString "sess1") (JString "v1") (JString "s1") (JString "p1"))
         (play sample_stringify [Tick "2025-02-20 09:00:05"; Completion 0 (Ok JObject)]
            closed_world))
  = error_500.
Proof.
  apply (proj2 (proj2 (after_closeDatabase_no_task_is_started sample_stringify
                         [Tick "2025-02-20 09:00:05"; Completion 0 (Ok JObject)]
                         closed_world eq_refl))
           (Body.mk (JString "capture_session.exported") (JString "sess1")
              (Some (Data.mk (JString "v1") (JString "s1") (JString "p1")))));
    reflexivity.
Defined.

Lemma first_delivery_without_api_key_stays_pending_witness :
  exists w' row,
    webhook sample_stringify
      (exported (JString "sess1") (JString "v1") (JString "s1") (JString "p1"))
      anonymous_world
    = (ok_received, w') /\
    rows w' = [row] /\
    Recording.insights_status row = Some "pending" /\
    pool w' = [].
Proof.
  destruct (first_delivery_without_api_key_stays_pending sample_stringify
              (JString "sess1") (JString "v1") (JString "s1") (JString "p1")
              anonymous_world
              {| users := []; recordings := []; recordings_seq := 0 |}
              (SqlText "sess1") (SqlText "v1"))
    as (w' & row & H & R & _ & _ & St & P);
    try reflexivity; try discriminate; try exact I.
  exists w', row. split; [exact H|]. split; [exact R|]. split; [exact St|exact P].
Defined.

Lemma first_delivery_indexes_with_the_latest_users_key_witness :
  exists w' row k,
    webhook sample_stringify
      (exported (JString "sess1") (JString "v1") (JString "s1") (JString "p1"))
      empty_world
    = (ok_received, w') /\
    rows w' = [row] /\
    Recording.insights_status row = Some "processing" /\
    pool w' = [External (connect {| apiKey := "sk-1"; baseUrl := None |}) k].
Proof.
  destruct (first_delivery_indexes_with_the_latest_users_key sample_stringify
              (JString "sess1") (JString "v1") (JString "s1") (JString "p1")
              empty_world
              {| users := [sample_user]; recordings := []; recordings_seq := 0 |}
              (SqlText "sess1") (SqlText "v1") sample_user "sk-1")
    as (w' & row & k & H & R & _ & _ & St & P);
    try reflexivity; try discriminate; try exact I.
  exists w', row, k. split; [exact H|]. split; [exact R|]. split; [exact St|exact P].
Defined.

Lemma success_without_subtitles_keeps_the_urls_witness :
  exists w' tr row,
    run quiet sdk_no_subtitles
      (processIndexingBackground sample_stringify 1 (JString "v1") "sk-1") round_trip_world
    = (Ok tt, w', tr) /\
    rows w' = [row] /\
    Recording.insights_status row = Some "ready" /\
    Recording.insights row = Some "{transcript:hello}" /\
    Recording.stream_url row = Some "s1" /\
    Recording.player_url row = Some "p1?url=s1".
Proof.
  destruct (success_without_subtitles_keeps_the_urls sample_stringify quiet sdk_no_subtitles
              1 (JString "v1") "sk-1" round_trip_world
              {| users := [sample_user]; recordings := [round_trip_row]; recordings_seq := 0 |}
              (JString "hello") JNull JUndefined)
    as (w' & tr & R & _ & F);
    try reflexivity.
  inversion F as [|a b l l' (_ & Hb) Tail E1 E2]. subst. inversion Tail. subst.
  destruct (Hb eq_refl) as (_ & St & Ins & Su & Pu & _).
  exists w', tr, b. split; [exact R|]. split; [symmetry; assumption|].
  split; [exact St|]. split; [exact Ins|]. split; [exact Su|exact Pu].
Defined.

Lemma match_tunnel_url_finds_a_quick_tunnel_url_witness :
  match_tunnel_url sample_output = Some "https://blue-sky-42.trycloudflare.com" /\
  exists before label rest,
    sample_output = before ++ "https://blue-sky-42.trycloudflare.com" ++ rest /\
    "https://blue-sky-42.trycloudflare.com" = "https://" ++ label ++ ".trycloudflare.com" /\
    label <> "" /\ label_ok label = true.
Proof.
  split; [reflexivity|].
  apply (proj1 match_tunnel_url_finds_a_quick_tunnel_url sample_output).
  reflexivity.
Defined.

Lemma start_resolves_once_with_what_the_manager_reports_witness :
  exists label,
    Tunnel.getUrl
      (Tunnel.play [Tunnel.Fire (Tunnel.Output "starting"); Tunnel.Fire (Tunnel.Output sample_output);
                    Tunnel.Fire Tunnel.Timed_out]
         (Tunnel.start (JNumber 8000) JNull (Ok tt) Tunnel.fresh))
    = Some ("https://" ++ label ++ ".trycloudflare.com") /\
    label <> "" /\ label_ok label = true /\
    Tunnel.getWebhookUrl
      (Tunnel.play [Tunnel.Fire (Tunnel.Output "starting"); Tunnel.Fire (Tunnel.Output sample_output);
                    Tunnel.Fire Tunnel.Timed_out]
         (Tunnel.start (JNumber 8000) JNull (Ok tt) Tunnel.fresh))
    = JString (("https://" ++ label ++ ".trycloudflare.com") ++ "/api/webhook").
Proof.
  apply (proj2 (proj2 (start_resolves_once_with_what_the_manager_reports
                         (JNumber 8000) JNull (Ok tt)
                         [Tunnel.Fire (Tunnel.Output "starting");
                          Tunnel.Fire (Tunnel.Output sample_output);
                          Tunnel.Fire Tunnel.Timed_out]))).
  reflexivity.
Defined.

Lemma a_configured_webhook_url_starts_no_tunnel_witness :
  Tunnel.getWebhookUrl
    (Tunnel.start (JNumber 8000) (JString "https://hooks.example.org/api/webhook") (Ok tt)
       Tunnel.fresh)
  = JString "https://hooks.example.org/api/webhook" /\
  Tunnel.isRunning
    (Tunnel.start (JNumber 8000) (JString "https://hooks.example.org/api/webhook") (Ok tt)
       Tunnel.fresh)
  = false.
Proof.
  destruct (a_configured_webhook_url_starts_no_tunnel (JNumber 8000)
              (JString "https://hooks.example.org/api/webhook") (Ok tt)
              [Tunnel.Output sample_output] eq_refl)
    as (_ & W & _ & R & _).
  split; [exact W|exact R].
Defined.

Lemma a_start_resolved_to_null_never_reports_a_tunnel_witness :
  Tunnel.getWebhookUrl
    (Tunnel.play [Tunnel.Fire (Tunnel.Output sample_output)]
       (Tunnel.play [Tunnel.Fire Tunnel.Timed_out]
          (Tunnel.start (JNumber 8000) JNull (Ok tt) Tunnel.fresh)))
  = JNull /\
  Tunnel.isRunning
    (Tunnel.play [Tunnel.Fire (Tunnel.Output sample_output)]
       (Tunnel.play [Tunnel.Fire Tunnel.Timed_out]
          (Tunnel.start (JNumber 8000) JNull (Ok tt) Tunnel.fresh)))
  = false.
Proof.
  destruct (a_start_resolved_to_null_never_reports_a_tunnel (JNumber 8000) JNull (Ok tt)
              [Tunnel.Fire Tunnel.Timed_out] [Tunnel.Fire (Tunnel.Output sample_output)]
              eq_refl)
    as (_ & _ & W & R).
  split; [exact W|exact R].
Defined.

Lemma after_stop_the_manager_never_runs_witness :
  Tunnel.isRunning
    (Tunnel.play (map Tunnel.Fire [Tunnel.Output sample_output; Tunnel.Exit (JNumber 0)])
       (snd (Tunnel.stop (Ok tt) (Tunnel.start (JNumber 8000) JNull (Ok tt) Tunnel.fresh))))
  = false.
Proof.
  apply (proj1 (after_stop_the_manager_never_runs (Ok tt)
                  (Tunnel.start (JNumber 8000) JNull (Ok tt) Tunnel.fresh)
                  [Tunnel.Output sample_output; Tunnel.Exit (JNumber 0)])).
  reflexivity.
Defined.

Lemma get_recordings_handler_never_throws_witness :
  get_recordings_handler closed_world
  = (Ok [], logged "Failed to get recordings:" closed_world).
Proof.
  destruct (get_recordings_handler_never_throws closed_world)
    as (listing & w' & H & _ & _ & _ & Closed & _).
  destruct (Closed eq_refl) as (-> & _). reflexivity.
Defined.

Lemma a_registration_that_fails_changes_nothing_witness :
  exists k,
    register "uuid-2" true (Some (JString "bob", JString "sk-2")) sample_app
    = (Awaiting (verifyApiKey (JString "sk-2")) k,
       snd (app_log "Registering user: bob" sample_app)) /\
    k (Ok false) (snd (app_log "Registering user: bob" sample_app))
    = (Ok (Refused "Invalid API key. Please check your key and try again."),
       snd (app_log "Registering user: bob" sample_app)) /\
    same_account sample_app
      (snd (k (Throws (Exn "fetch failed")) (snd (app_log "Registering user: bob" sample_app)))).
Proof.
  pose proof (a_registration_that_fails_changes_nothing "uuid-2" true
                (Some (JString "bob", JString "sk-2")) sample_app) as H.
  cbn [register] in H. destruct H as (name & apiKey & E & _ & _ & Logged & Resumed).
  injection E as <- <-.
  eexists. split; [reflexivity|]. split; [reflexivity|].
  refine (same_account_trans _ _ _ Logged
            (proj1 (Resumed (Throws (Exn "fetch failed"))
                      (snd (app_log "Registering user: bob" sample_app)) _ _
                      (surjective_pairing _) _))).
  intros n N. discriminate N.
Defined.

Lemma register_twice_keeps_one_user_witness :
  App.accessToken
    (snd (register_resume "uuid-2" true (JString "bob") (JString "sk-2") (Ok true) sample_app))
  = JString "uuid-2" /\
  exists n' a2,
    register_resume "uuid-3" true (JString "bobby") (JString "sk-2") (Ok true)
      (snd (register_resume "uuid-2" true (JString "bob") (JString "sk-2") (Ok true)
              sample_app))
    = (Ok (Success n'), a2) /\
    List.length (registered (App.store a2)) = 2%nat /\
    App.accessToken a2 = JString "uuid-2".
Proof.
  destruct (register_twice_keeps_one_user "uuid-2" true (JString "bob") (JString "sk-2")
              sample_app (JString "bob")
              (snd (register_resume "uuid-2" true (JString "bob") (JString "sk-2") (Ok true)
                      sample_app))
              eq_refl ltac:(discriminate) I)
    as ((p & u & B & _ & _ & New) & _ & _ & _ & _ & Again).
  injection B as <-.
  split; [exact (New eq_refl)|].
  destruct (Again "uuid-3" true (JString "bobby")) as (n' & a2 & H & R & _ & T).
  exists n', a2. split; [exact H|].
  split; [rewrite R; reflexivity|rewrite T; exact (New eq_refl)].
Defined.

Lemma register_then_the_session_token_uses_the_new_key_witness :
  exists a2,
    getSessionToken 1740042000000 1740042000500
      (snd (register_resume "uuid-2" true (JString "bob") (JString "sk-2") (Ok true)
              sample_app))
    = (Awaiting (generateSessionToken "sk-2") (getSessionToken_resume 1740042000500), a2).
Proof.
  destruct (register_then_the_session_token_uses_the_new_key "uuid-2" true (JString "bob")
              "sk-2" sample_app (JString "bob")
              (snd (register_resume "uuid-2" true (JString "bob") (JString "sk-2") (Ok true)
                      sample_app))
              eq_refl eq_refl ltac:(discriminate) ltac:(discriminate))
    as (_ & _ & Ask).
  destruct (Ask 1740042000000 1740042000500) as (a2 & H & _).
  exists a2. exact H.
Defined.

Lemma a_generated_session_token_is_reused_until_it_expires_witness :
  fst (getSessionToken 1740128000000 1740128000500
         (snd (getSessionToken_resume 1740042000500 (Ok sample_token) sample_app)))
  = Returned (Ok (JString "st-1")).
Proof.
  destruct (a_generated_session_token_is_reused_until_it_expires 1740042000500 sample_token
              sample_app eq_refl ltac:(discriminate))
    as (_ & Cached & _).
  rewrite (Cached 1740128000000 1740128000500 ltac:(reflexivity)). reflexivity.
Defined.

Lemma getSessionToken_asks_only_for_the_signed_in_users_key_witness :
  exists u,
    findUserByToken (JString "token-1") empty_world = (Ok (Some u), empty_world) /\
    User.api_key u = Some "sk-1".
Proof.
  destruct (getSessionToken_asks_only_for_the_signed_in_users_key
              1740042000000 1740042000500 signed_in_app
              (generateSessionToken "sk-1") (getSessionToken_resume 1740042000500)
              (snd (getSessionToken 1740042000000 1740042000500 signed_in_app))
              eq_refl)
    as (u & key & _ & F & K & _ & C & _).
  injection C as <-. exists u. split; [exact F|exact K].
Defined.

Lemma indexVideo_stops_at_the_first_failure_witness :
  exists r w' cs,
    run quiet sdk_not_found (indexVideo (JString "v0") "sk-1" JUndefined) sample_world
    = (r, w', map Called cs) /\
    (List.length cs <= 3)%nat.
Proof.
  destruct (indexVideo_stops_at_the_first_failure quiet sdk_not_found
              (JString "v0") "sk-1" JUndefined sample_world)
    as (r & w' & cs & rest & R & _ & _ & _ & _ & _ & L).
  exists r, w', cs. split; [exact R|]. apply L. exists JNull. split; reflexivity.
Defined.

Lemma closed_database_refuses_every_query_witness :
  getLatestUser closed_world = (Throws closed_error, closed_world) /\
  updateRecording 1 [(duration, JUndefined)] closed_world = (Ok tt, closed_world).
Proof.
  destruct (closed_database_refuses_every_query sample_world)
    as (_ & _ & _ & _ & _ & _ & L & _ & _ & _ & U).
  split; [exact L|exact (U 1 [(duration, JUndefined)])].
Defined.

Lemma a_run_keeps_what_the_delivery_stored_witness :
  (forall c w0, db (quiet c w0) = db w0) /\
  exists w' t,
    run quiet sdk_ok
      (processIndexingBackground sample_stringify 2 (JString "v9") "sk-1") sample_world
    = (Ok tt, w', t) /\
    Forall2 (kept_by_indexing 2) (rows sample_world) (rows w').
Proof.
  split; [reflexivity|].
  apply (a_run_keeps_what_the_delivery_stored sample_stringify quiet sdk_ok
           2 (JString "v9") "sk-1" sample_world).
  reflexivity.
Defined.

Lemma redelivery_indexes_the_first_row_with_the_video_id_witness :
  exists w2 k,
    webhook sample_stringify
      (exported (JString "sess9") (JString "v0") (JString "s0b") (JString "p0b"))
      sample_world
    = (ok_received, w2) /\
    pool w2 = [External (connect {| apiKey := "sk-1"; baseUrl := None |}) k] /\
    has_status 1 "processing" w2 /\
    has_status 2 "pending" w2.
Proof.
  destruct (redelivery_indexes_the_first_row_with_the_video_id sample_stringify
              sample_world
              {| users := [sample_user]; recordings := [sample_row; sample_row2];
                 recordings_seq := 0 |}
              "sess9" "v0" (JString "s0b") (JString "p0b")
              sample_row2 [] sample_row [sample_row2] sample_user "sk-1")
    as (w2 & k & H & P & S1 & S2 & _);
    try reflexivity; try discriminate.
  - intros a [].
  - exists w2, k. split; [exact H|]. split; [exact P|]. split; [exact S1|exact S2].
Defined.
